(** * Boxlib / Orion data-file readers (yt/frontends/boxlib/io.py)

    A shallow embedding of [IOHandlerBoxlib] and [IOHandlerOrion].  Python
    exceptions become the [Raise] branch of a result type, the files on disk
    are a finite map from paths to byte strings, and every I/O action of the
    readers (open, seek, bulk read, call of the point predicate) is appended
    to an event log that the state monad threads through the code. *)

From stdpp Require Import gmap strings list fin_maps.
From Stdlib Require Import ZArith QArith.
From Stdlib Require Import Strings.Byte Strings.Ascii.

Local Open Scope string_scope.
Local Open Scope list_scope.
Local Open Scope nat_scope.

(** ** Python exceptions and the state/error monad *)

Inductive exn :=
  | NotImplementedError
  | KeyError
  | IOError
  | ValueError
  | RuntimeError
  | IndexError
  | UnboundLocalError
  | AttributeError.

Inductive result (A : Type) :=
  | Ok (a : A)
  | Raise (e : exn).
Arguments Ok {A} a.
Arguments Raise {A} e.

(** A computation over a mutable state [S]; an exception keeps the state
    reached so far (Python does not roll anything back). *)
Definition M (S A : Type) : Type := S -> result A * S.

Definition ret {S A : Type} (a : A) : M S A := fun s => (Ok a, s).
Definition raise {S A : Type} (e : exn) : M S A := fun s => (Raise e, s).
Definition bind {S A B : Type} (m : M S A) (k : A -> M S B) : M S B :=
  fun s => match m s with
           | (Ok a, s') => k a s'
           | (Raise e, s') => (Raise e, s')
           end.

Notation "'let*' x ':=' m 'in' k" := (bind m (fun x => k))
  (at level 10, x pattern, m at level 100, k at level 200).

(** [for x in l: acc = body x acc] *)
Fixpoint for_each {S A B : Type} (l : list A) (body : A -> B -> M S B) (b : B) : M S B :=
  match l with
  | [] => ret b
  | a :: l' => let* b' := body a b in for_each l' body b'
  end.

(** ** float64 values

    The readers only move values around, except for the synthesized z
    coordinate, which multiplies an array of ones by half the sum of two
    edges.  The arithmetic is kept abstract. *)
Class Float64 (F : Type) := {
  f_zero : F;
  f_one : F;
  f_half : F;
  fadd : F -> F -> F;
  fmul : F -> F -> F
}.

(** IEEE multiplication by [1.0] returns its other argument. *)
Class Float64Laws (F : Type) `{Float64 F} : Prop := {
  fmul_one_l : forall c : F, fmul f_one c = c
}.

(** Exact rationals are one instance (used to run the model on examples). *)
#[export] Instance Q_float64 : Float64 Q := {|
  f_zero := 0%Q;
  f_one := 1%Q;
  f_half := (1 # 2)%Q;
  fadd := Qplus;
  fmul := Qmult
|}.

(** ** Data model *)

Definition byte := Init.Byte.byte.
Definition FieldKey : Type := string * string.
Definition filesystem := gmap string (list byte).

Section Model.
Context {F : Type} `{Float64 F}.

(** A numpy dtype: element width and the float64 value of an element. *)
Record DType := {
  itemsize : nat;
  decode : list byte -> F
}.

(** An n-dimensional array: [flat] lists the elements in column-major
    (Fortran) order. *)
Record ndarray := {
  shape : list nat;
  flat : list F
}.

Record ParticleSet := {
  NumberOfParticles : nat;
  particle_filename : string;
  offset : Z
}.

Record ParticleHeader := {
  known_int_fields : list (string * string);
  known_real_fields : list (string * string);
  particle_int_dtype_itemsize : nat;
  int_type : DType;
  real_type : DType;
  num_int : nat;
  num_real : nat
}.

Record Index := {
  _dtype : DType;
  field_order : list FieldKey;
  particle_headers : gmap string ParticleHeader
}.

Record Dataset := {
  index : Index;
  particle_unions : gmap string (list string);
  dimensionality : nat;
  output_dir : string
}.

Record Grid := {
  id : Z;
  filename : option string;
  _offset : Z;
  ActiveDimensions : list nat;
  LeftEdge : F * F * F;
  RightEdge : F * F * F;
  grid_ds : Dataset;
  _pdata : gmap string ParticleSet;
  grid_NumberOfParticles : nat;
  _particle_line_numbers : list nat
}.

Record Chunk := { objs : list Grid }.

(** A selector object: its class name, its cell predicate (consulted by
    [grid.select]; the index is the position of the cell in column-major
    order) and its point predicate. *)
Record Selector := {
  class_name : string;
  cell_selected : Grid -> nat -> bool;
  select_points : list F -> list F -> list F -> F -> option (list bool)
}.

Record IOHandlerBoxlib := { ds : Dataset }.

(** ** Files and the event log *)

Inductive whence := SEEK_SET | SEEK_CUR.

Inductive event :=
  | EvOpen (fn : string)
  | EvSeek (fn : string) (w : whence) (off : Z)
  | EvFromfile (fn : string) (pos : Z) (nbytes : nat)
  | EvReadlines (fn : string)
  | EvParseSinks (fn : string)
  | EvSelectPoints (x y z : list F) (r : F).

Definition trace := list event.

Record handle := {
  h_name : string;
  h_data : list byte;
  h_pos : Z
}.

Definition emit {A} (e : event) (a : A) : M trace A :=
  fun tr => (Ok a, tr ++ [e]).

Definition open_file (fs : filesystem) (fn : string) : M trace handle :=
  match fs !! fn with
  | Some bs => emit (EvOpen fn) {| h_name := fn; h_data := bs; h_pos := 0 |}
  | None => raise IOError
  end.

Definition tell (f : handle) : Z := h_pos f.

(** [f.seek(off, whence)]: a negative target is an OS error; seeking past
    the end is allowed. *)
Definition seek (f : handle) (off : Z) (w : whence) : M trace handle :=
  let target := match w with SEEK_SET => off | SEEK_CUR => (h_pos f + off)%Z end in
  if (target <? 0)%Z then raise IOError
  else emit (EvSeek (h_name f) w off)
            {| h_name := h_name f; h_data := h_data f; h_pos := target |}.

Fixpoint split_items (w n : nat) (bs : list byte) : list (list byte) :=
  match n with
  | 0 => []
  | S n' => take w bs :: split_items w n' (drop w bs)
  end.

(** [np.fromfile(f, dtype, count)]: reads as many whole items as the file
    still holds, up to [count]; a short file gives a short array. *)
Definition np_fromfile (f : handle) (dt : DType) (count : nat)
  : M trace (handle * list F) :=
  let rest := drop (Z.to_nat (h_pos f)) (h_data f) in
  let n := count `min` (length rest `div` itemsize dt) in
  let v := map (decode dt) (split_items (itemsize dt) n rest) in
  emit (EvFromfile (h_name f) (h_pos f) (n * itemsize dt))
       ({| h_name := h_name f; h_data := h_data f;
           h_pos := (h_pos f + Z.of_nat (n * itemsize dt))%Z |}, v).

Definition prod (dims : list nat) : nat := foldr Nat.mul 1 dims.

(** [v.reshape(dims, order='F')] *)
Definition reshape_F {S : Type} (v : list F) (dims : list nat) : M S ndarray :=
  if decide (prod dims = length v) then ret {| shape := dims; flat := v |}
  else raise ValueError.

(** ** IOHandlerBoxlib: fluid fields *)

(** Modelled from the spec: [grid._get_offset(f)] is defined outside this
    file; it yields the byte offset of the grid's data block, the same
    attribute the sort key reads. *)
Definition _get_offset (grid : Grid) (f : handle) : Z := _offset grid.

(** [grids_by_file[fn].append(g)] on a [defaultdict(list)]; keys keep their
    insertion order. *)
Fixpoint dd_append (fn : string) (g : Grid) (d : list (string * list Grid))
  : list (string * list Grid) :=
  match d with
  | [] => [(fn, [g])]
  | (k, gs) :: d' =>
      if decide (k = fn) then (k, gs ++ [g]) :: d'
      else (k, gs) :: dd_append fn g d'
  end.

Definition group_by_file (gs : list Grid) : list (string * list Grid) :=
  fold_left (fun d g => match filename g with
                        | None => d
                        | Some fn => dd_append fn g d
                        end) gs [].

(** [grids.sort(key = lambda a: a._offset)], a stable sort. *)
Fixpoint insert_by_offset (g : Grid) (l : list Grid) : list Grid :=
  match l with
  | [] => [g]
  | h :: t => if (_offset g <=? _offset h)%Z then g :: h :: t
              else h :: insert_by_offset g t
  end.

Definition sort_by_offset (l : list Grid) : list Grid :=
  foldr insert_by_offset [] l.

Abbreviation chunk_data := (gmap Z (gmap FieldKey ndarray)).

(** One turn of [for field in self.ds.index.field_order]. *)
Definition read_field (fields : list FieldKey) (dtype : DType) (grid : Grid)
    (count size : nat) (field : FieldKey)
    (st : handle * chunk_data * Z) : M trace (handle * chunk_data * Z) :=
  let '(f, data, local_offset) := st in
  if decide (field ∈ fields) then
    let* f := seek f local_offset SEEK_CUR in
    let* (f, v) := np_fromfile f dtype count in
    let* v := reshape_F v (ActiveDimensions grid) in
    ret (f, alter (insert field v) (id grid) data, 0%Z)
  else
    ret (f, data, (local_offset + Z.of_nat size)%Z).

(** One turn of [for grid in grids]. *)
Definition read_grid (self : IOHandlerBoxlib) (fields : list FieldKey)
    (grid : Grid) (st : handle * chunk_data) : M trace (handle * chunk_data) :=
  let '(f, data) := st in
  let dtype := _dtype (index (ds self)) in
  let bpr := itemsize dtype in
  let data := <[id grid := ∅]> data in
  let local_offset := (_get_offset grid f - tell f)%Z in
  let count := prod (ActiveDimensions grid) in
  let size := count * bpr in
  let* (f, data, _) :=
    for_each (field_order (index (ds self)))
             (read_field fields dtype grid count size)
             (f, data, local_offset) in
  ret (f, data).

Definition _read_chunk_data (fs : filesystem) (self : IOHandlerBoxlib)
    (chunk : Chunk) (fields : list FieldKey) : M trace chunk_data :=
  let data : chunk_data := ∅ in
  if Nat.eqb (length (objs chunk)) 0 then ret data else
  let grids_by_file := group_by_file (objs chunk) in
  for_each grids_by_file
    (fun '(filename, grids) data =>
       let grids := sort_by_offset grids in
       let* f := open_file fs filename in
       let* (_, data) := for_each grids (read_grid self fields) (f, data) in
       ret data)
    data.

(** [np.empty(size)]: every cell starts uninitialised ([None]). *)
Definition np_empty (size : nat) : list (option F) := replicate size None.

(** [source[mask]] for a boolean mask of the source's length. *)
Fixpoint masked {A} (mask : list bool) (l : list A) : list A :=
  match mask, l with
  | b :: mask', x :: l' => if b then x :: masked mask' l' else masked mask' l'
  | _, _ => []
  end.

Definition cell_mask (sel : Selector) (g : Grid) (n : nat) : list bool :=
  map (cell_selected sel g) (seq 0 n).

(** [dest[ind:ind+len(vals)] = vals] *)
Definition write_at (dest : list (option F)) (ind : nat) (vals : list F)
  : list (option F) :=
  take ind dest ++ map Some vals ++ drop (ind + length vals) dest.

(** Modelled from the spec: [grid.select(selector, source, dest, offset)]
    belongs to the grid-selection machinery, outside this file.  It writes
    the cells of [source] that the selector keeps into [dest] starting at
    [offset] and returns how many it wrote; nothing is written when no cell
    matches, and a destination that is too short is an error. *)
Definition grid_select {S : Type} (g : Grid) (sel : Selector) (source : ndarray)
    (dest : list (option F)) (ind : nat) : M S (list (option F) * nat) :=
  let vals := masked (cell_mask sel g (length (flat source))) (flat source) in
  let count := length vals in
  if Nat.eqb count 0 then ret (dest, 0)
  else if decide (ind + count <= length dest)
       then ret (write_at dest ind vals, count)
       else raise ValueError.

(** [data[gid].pop(field)] *)
Definition pop_field {S : Type} (data : chunk_data) (gid : Z) (field : FieldKey)
  : M S (ndarray * chunk_data) :=
  match data !! gid with
  | None => raise KeyError
  | Some d =>
      match d !! field with
      | None => raise KeyError
      | Some v => ret (v, <[gid := delete field d]> data)
      end
  end.

(** [data.pop(gid)] *)
Definition pop_grid {S : Type} (data : chunk_data) (gid : Z) : M S chunk_data :=
  match data !! gid with
  | None => raise KeyError
  | Some _ => ret (delete gid data)
  end.

Abbreviation fluid_rv := (gmap FieldKey (list (option F))).

(** Body of [for field in fields] inside the grid loop; [nd] is [None]
    while the local variable is still unbound. *)
Definition select_field (g : Grid) (selector : Selector) (ind : nat)
    (field : FieldKey) (st : fluid_rv * option nat * chunk_data)
  : M trace (fluid_rv * option nat * chunk_data) :=
  let '(rv, _, data) := st in
  let* (ds, data) := pop_field data (id g) field in
  match rv !! field with
  | None => raise KeyError
  | Some dest =>
      let* (dest, nd) := grid_select g selector ds dest ind in
      ret (<[field := dest]> rv, Some nd, data)
  end.

(** Body of [for g in chunk.objs]. *)
Definition select_grid (selector : Selector) (fields : list FieldKey)
    (g : Grid) (st : fluid_rv * nat * option nat * chunk_data)
  : M trace (fluid_rv * nat * option nat * chunk_data) :=
  let '(rv, ind, nd, data) := st in
  let* (rv, nd, data) :=
    for_each fields (select_field g selector ind) (rv, nd, data) in
  match nd with
  | None => raise UnboundLocalError
  | Some n =>
      let ind := ind + n in
      let* data := pop_grid data (id g) in
      ret (rv, ind, nd, data)
  end.

(** Body of [for chunk in chunks]. *)
Definition select_chunk (fs : filesystem) (self : IOHandlerBoxlib)
    (selector : Selector) (fields : list FieldKey)
    (chunk : Chunk) (st : fluid_rv * nat * option nat)
  : M trace (fluid_rv * nat * option nat) :=
  let '(rv, ind, nd) := st in
  let* data := _read_chunk_data fs self chunk fields in
  let* (rv, ind, nd, _) :=
    for_each (objs chunk) (select_grid selector fields) (rv, ind, nd, data) in
  ret (rv, ind, nd).

(** [ng] and the debug message of the source have no effect and are left
    out. *)
Definition _read_fluid_selection (fs : filesystem) (self : IOHandlerBoxlib)
    (chunks : list Chunk) (selector : Selector) (fields : list FieldKey)
    (size : nat) : M trace fluid_rv :=
  if existsb (fun '(ftype, fname) => negb (String.eqb ftype "boxlib")) fields
  then raise NotImplementedError
  else
    let rv : fluid_rv :=
      fold_left (fun rv field => <[field := np_empty size]> rv) fields ∅ in
    let ind := 0 in
    let* (rv, _, _) :=
      for_each chunks (select_chunk fs self selector fields) (rv, ind, None) in
    ret rv.

(** ** IOHandlerBoxlib: particles *)

(** [l[start::step]] for a positive step: [skip] elements are passed over
    before the next one is taken. *)
Fixpoint take_every {A} (step skip : nat) (l : list A) : list A :=
  match l with
  | [] => []
  | x :: l' =>
      match skip with
      | 0 => x :: take_every step (step - 1) l'
      | S k => take_every step k l'
      end
  end.

(** A slice with step zero is a [ValueError]. *)
Definition strided {S : Type} (l : list F) (start step : nat) : M S (list F) :=
  if Nat.eqb step 0 then raise ValueError else ret (take_every step start l).

(** [names.index(name)], guarded by [name in names]. *)
Fixpoint index_of (name : string) (names : list string) : option nat :=
  match names with
  | [] => None
  | n :: names' =>
      if decide (n = name) then Some 0 else S <$> index_of name names'
  end.

(** [data[mask]] for a boolean mask: an empty mask selects nothing,
    whatever the length of the data; any other mask must have the length
    of the data. *)
Definition array_index {S : Type} (data : list F) (mask : list bool)
  : M S (list F) :=
  if decide (mask = [] \/ length mask = length data)
  then ret (masked mask data)
  else raise IndexError.

(** [selector.select_points(x, y, z, r)]; the call is logged with its
    arguments. *)
Definition call_select_points (selector : Selector) (x y z : list F) (r : F)
  : M trace (option (list bool)) :=
  emit (EvSelectPoints x y z r) (select_points selector x y z r).

Definition ones_like (y : list F) : list F := map (fun _ => f_one) y.

(** [z *= c] *)
Definition imul (z : list F) (c : F) : list F := map (fun zi => fmul zi c) z.

(** The result is [None] when the Python function falls off its end. *)
Definition _read_particles (fs : filesystem) (self : IOHandlerBoxlib)
    (grid : Grid) (selector : Selector) (ftype name : string)
  : M trace (option (list F)) :=
  match _pdata grid !! ftype with
  | None => raise KeyError
  | Some pdata =>
  let npart := NumberOfParticles pdata in
  if Nat.eqb npart 0 then ret (Some []) else
  let fn := particle_filename pdata in
  let offset := offset pdata in
  match particle_headers (index (ds self)) !! ftype with
  | None => raise KeyError
  | Some pheader =>
  let int_fnames := map snd (known_int_fields pheader) in
  match index_of name int_fnames with
  | Some ind =>
      let* f := open_file fs fn in
      let* f := seek f (offset + Z.of_nat (particle_int_dtype_itemsize pheader * npart))%Z
                     SEEK_SET in
      let* (f, rdata) := np_fromfile f (real_type pheader) (num_real pheader * npart) in
      let* x := strided rdata 0 (num_real pheader) in
      let* y := strided rdata 1 (num_real pheader) in
      let* z :=
        if decide (dimensionality (grid_ds grid) = 2) then
          let z := ones_like y in
          ret (imul z (fmul f_half (fadd (LeftEdge grid).2 (RightEdge grid).2)))
        else strided rdata 2 (num_real pheader) in
      let* mask := call_select_points selector x y z f_zero in
      match mask with
      | None => ret (Some [])
      | Some mask =>
          let* f := seek f offset SEEK_SET in
          let* (f, idata) := np_fromfile f (int_type pheader) (num_int pheader * npart) in
          let* data := strided idata ind (num_int pheader) in
          let* r := array_index data mask in
          ret (Some r)
      end
  | None =>
  let real_fnames := map snd (known_real_fields pheader) in
  match index_of name real_fnames with
  | Some ind =>
      let* f := open_file fs fn in
      let* f := seek f (offset + Z.of_nat (particle_int_dtype_itemsize pheader * npart))%Z
                     SEEK_SET in
      let* (f, rdata) := np_fromfile f (real_type pheader) (num_real pheader * npart) in
      let* x := strided rdata 0 (num_real pheader) in
      let* y := strided rdata 1 (num_real pheader) in
      let* z :=
        if decide (dimensionality (grid_ds grid) = 2) then
          let z := ones_like y in
          ret (imul z (fmul f_half (fadd (LeftEdge grid).2 (RightEdge grid).2)))
        else strided rdata 2 (num_real pheader) in
      let* mask := call_select_points selector x y z f_zero in
      match mask with
      | None => ret (Some [])
      | Some mask =>
          let* data := strided rdata ind (num_real pheader) in
          let* r := array_index data mask in
          ret (Some r)
      end
  | None => ret None
  end
  end
  end
  end.

Abbreviation particle_rv := (gmap FieldKey (list F)).

(** [rv[key] = np.concatenate((data, rv[key]))]; concatenating [None] is a
    [ValueError]. *)
Definition prepend {S : Type} (key : FieldKey) (data : option (list F))
    (rv : particle_rv) : M S particle_rv :=
  match rv !! key with
  | None => raise KeyError
  | Some acc =>
      match data with
      | None => raise ValueError
      | Some d => ret (<[key := d ++ acc]> rv)
      end
  end.

(** [{f: np.array([]) for f in fields}] *)
Definition empty_arrays (fields : list FieldKey) : particle_rv :=
  fold_left (fun rv f => <[f := []]> rv) fields ∅.

(** Body of [for ftype, fname in fields]. *)
Definition read_particle_field (fs : filesystem) (self : IOHandlerBoxlib)
    (selector : Selector) (grid : Grid) (field : FieldKey) (rv : particle_rv)
  : M trace particle_rv :=
  let '(ftype, fname) := field in
  let unions := particle_unions (ds self) in
  match unions !! ftype with
  | Some subtypes =>
      for_each subtypes
        (fun subtype rv =>
           let* data := _read_particles fs self grid selector subtype fname in
           prepend (ftype, fname) data rv)
        rv
  | None =>
      let* data := _read_particles fs self grid selector ftype fname in
      prepend (ftype, fname) data rv
  end.

Definition _read_particle_selection (fs : filesystem) (self : IOHandlerBoxlib)
    (chunks : list Chunk) (selector : Selector) (fields : list FieldKey)
  : M trace particle_rv :=
  let rv := empty_arrays fields in
  for_each chunks
    (fun chunk rv =>
       for_each (objs chunk)
         (fun grid rv =>
            for_each fields (read_particle_field fs self selector grid) rv)
         rv)
    rv.

(** ** IOHandlerOrion: the text-particle reader *)

(** The attributes the reader instance acquires at run time, with the log. *)
Record OrionState := {
  _cached_lines : option (list string);
  _particle_filename : option string;
  _particle_field_index : option (gmap string nat);
  io_log : trace
}.

Definition lift_io {A} (m : M trace A) : M OrionState A :=
  fun s =>
    let '(r, tr) := m (io_log s) in
    (r, {| _cached_lines := _cached_lines s;
           _particle_filename := _particle_filename s;
           _particle_field_index := _particle_field_index s;
           io_log := tr |}).

Definition get {S : Type} : M S S := fun s => (Ok s, s).
Definition put {S : Type} (s : S) : M S unit := fun _ => (Ok tt, s).

(** [try: body except AttributeError: handler] *)
Definition try_except_AttributeError {S A : Type} (body handler : M S A) : M S A :=
  fun s => match body s with
           | (Raise AttributeError, s') => handler s'
           | r => r
           end.

(** *** Text helpers *)

Definition newline : ascii := ascii_of_byte x0a.

(** Text mode with universal newlines, as [open(fn, 'r')] reads: a
    carriage return, alone or followed by a line feed, comes out as one
    line feed. *)
Fixpoint universal_newlines (bs : list byte) : list byte :=
  match bs with
  | [] => []
  | b :: bs' =>
      if Byte.eqb b x0d
      then x0a :: match bs' with
                  | b' :: bs'' =>
                      if Byte.eqb b' x0a then universal_newlines bs''
                      else universal_newlines bs'
                  | [] => []
                  end
      else b :: universal_newlines bs'
  end.

(** The lines of a text: each keeps its terminating newline. *)
Fixpoint lines_of (cur : list ascii) (bs : list byte) : list string :=
  match bs with
  | [] => match cur with [] => [] | _ => [String.string_of_list_ascii (rev cur)] end
  | b :: bs' =>
      let a := ascii_of_byte b in
      if decide (a = newline)
      then String.string_of_list_ascii (rev (a :: cur)) :: lines_of [] bs'
      else lines_of (a :: cur) bs'
  end.

(** [f.readlines()] on a file opened in text mode.  A character is the
    byte that encodes it, which is what decoding gives on ASCII text; the
    properties about the lines of a file assume such a file. *)
Definition readlines (bs : list byte) : list string :=
  lines_of [] (universal_newlines bs).

(** The characters below 256 that [str.isspace] accepts: space, tab to
    carriage return, the four separators 28 to 31, next line (133) and
    no-break space (160). *)
Definition is_space (a : ascii) : bool :=
  let n := nat_of_ascii a in
  Nat.eqb n 32 || (Nat.leb 9 n && Nat.leb n 13)
  || (Nat.leb 28 n && Nat.leb n 31) || Nat.eqb n 133 || Nat.eqb n 160.

Fixpoint lstrip (l : list ascii) : list ascii :=
  match l with
  | a :: l' => if is_space a then lstrip l' else l
  | [] => []
  end.

(** [line.strip()] *)
Definition strip (line : string) : list ascii :=
  rev (lstrip (rev (lstrip (String.list_ascii_of_string line)))).

(** [s.split(' ')]: every single space separates two entries. *)
Fixpoint split_spaces (cur : list ascii) (l : list ascii) : list string :=
  match l with
  | [] => [String.string_of_list_ascii (rev cur)]
  | a :: l' =>
      if decide (a = " "%char)
      then String.string_of_list_ascii (rev cur) :: split_spaces [] l'
      else split_spaces (a :: cur) l'
  end.

Section Orion.

(** Modelled from the spec: [parse_orion_sinks] is imported from
    [yt.frontends.chombo.io].  It is handed the path only and returns the
    field-name to column-index table parsed from that file, so each call
    reads the file; [sinks_index] stands for the table it derives from the
    lines. *)
Variable sinks_index : list string -> gmap string nat.

(** [np.float(entry)]; [None] where the text is no number. *)
Variable np_float : string -> option F.

Definition parse_orion_sinks (fs : filesystem) (fn : string)
  : M trace (gmap string nat) :=
  match fs !! fn with
  | Some bs => emit (EvParseSinks fn) (sinks_index (readlines bs))
  | None => raise IOError
  end.

Record IOHandlerOrion := { orion_ds : Dataset }.

(** The [particle_filename] property. *)
Definition particle_filename_prop (fs : filesystem) (self : IOHandlerOrion)
  : M OrionState string :=
  let fn := output_dir (orion_ds self) +:+ "/StarParticles" in
  let fn := if decide (is_Some (fs !! fn)) then fn
            else output_dir (orion_ds self) +:+ "/SinkParticles" in
  let* s := get in
  let* _ := put {| _cached_lines := _cached_lines s;
                   _particle_filename := Some fn;
                   _particle_field_index := _particle_field_index s;
                   io_log := io_log s |} in
  ret fn.

(** The [particle_field_index] property. *)
Definition particle_field_index (fs : filesystem) (self : IOHandlerOrion)
  : M OrionState (gmap string nat) :=
  let* fn := particle_filename_prop fs self in
  let* index := lift_io (parse_orion_sinks fs fn) in
  let* s := get in
  let* _ := put {| _cached_lines := _cached_lines s;
                   _particle_filename := _particle_filename s;
                   _particle_field_index := Some index;
                   io_log := io_log s |} in
  ret index.

(** The local function [read(line, field)]. *)
Definition read_entry (fs : filesystem) (self : IOHandlerOrion)
    (line : string) (field : string) : M OrionState F :=
  let entries := split_spaces [] (strip line) in
  let* index := particle_field_index fs self in
  match index !! field with
  | None => raise KeyError
  | Some col =>
      match entries !! col with
      | None => raise IndexError
      | Some entry =>
          match np_float entry with
          | None => raise ValueError
          | Some v => ret v
          end
      end
  end.

(** [for num in grid._particle_line_numbers: ...] *)
Definition read_lines (fs : filesystem) (self : IOHandlerOrion)
    (lines : list string) (grid : Grid) (field : string)
    (particles : list F) : M OrionState (list F) :=
  for_each (_particle_line_numbers grid)
    (fun num particles =>
       match lines !! num with
       | None => raise IndexError
       | Some line =>
           let* v := read_entry fs self line field in
           ret (particles ++ [v])
       end)
    particles.

(** [IOHandlerOrion._read_particles].  In the [try] block only the lookup
    of [self._cached_lines] can raise [AttributeError], so the handler
    starts from the empty list. *)
Definition Orion_read_particles (fs : filesystem) (self : IOHandlerOrion)
    (grid : Grid) (field : string) : M OrionState (list F) :=
  let particles : list F := [] in
  if Nat.eqb (grid_NumberOfParticles grid) 0 then ret particles else
  try_except_AttributeError
    (let* s := get in
     match _cached_lines s with
     | None => raise AttributeError
     | Some lines => read_lines fs self lines grid field particles
     end)
    (let* fn := particle_filename_prop fs self in
     let* f := lift_io (open_file fs fn) in
     let lines := readlines (h_data f) in
     let* _ := lift_io (emit (EvReadlines fn) tt) in
     let* s := get in
     let* _ := put {| _cached_lines := Some lines;
                      _particle_filename := _particle_filename s;
                      _particle_field_index := _particle_field_index s;
                      io_log := io_log s |} in
     read_lines fs self lines grid field particles).

(** [IOHandlerOrion._read_particle_selection] *)
Definition Orion_read_particle_selection (fs : filesystem)
    (self : IOHandlerOrion) (chunks : list Chunk) (selector : Selector)
    (fields : list FieldKey) : M OrionState particle_rv :=
  if decide (class_name selector = "GridSelector") then
    match chunks with
    | [] => raise IndexError
    | chunk0 :: _ =>
        if negb (Nat.eqb (length chunks) (length (objs chunk0))
                 && Nat.eqb (length (objs chunk0)) 1)
        then raise RuntimeError
        else
          match objs chunk0 with
          | [] => raise IndexError
          | grid :: _ =>
              for_each fields
                (fun '(ftype, fname) rv =>
                   let* data := Orion_read_particles fs self grid fname in
                   ret (<[(ftype, fname) := data]> rv))
                (∅ : particle_rv)
          end
    end
  else
    let rv := empty_arrays fields in
    for_each chunks
      (fun chunk rv =>
         for_each (objs chunk)
           (fun grid rv =>
              for_each fields
                (fun '(ftype, fname) rv =>
                   let* data := Orion_read_particles fs self grid fname in
                   prepend (ftype, fname) (Some data) rv)
                rv)
           rv)
      rv.

End Orion.

End Model.

Arguments DType F : clear implicits.
Arguments ndarray F : clear implicits.
Arguments ParticleHeader F : clear implicits.
Arguments Index F : clear implicits.
Arguments Dataset F : clear implicits.
Arguments Grid F : clear implicits.
Arguments Chunk F : clear implicits.
Arguments Selector F : clear implicits.
Arguments IOHandlerBoxlib F : clear implicits.
Arguments IOHandlerOrion F : clear implicits.
Arguments event F : clear implicits.
Arguments trace F : clear implicits.
Arguments OrionState F : clear implicits.

(** * Vocabulary of the properties *)

Section Vocabulary.
Context {F : Type} `{Float64 F}.

Local Abbreviation fluid_rv := (gmap FieldKey (list (option F))).
Local Abbreviation chunk_data := (gmap Z (gmap FieldKey (ndarray F))).

(** The argument lists of the [select_points] calls in a log, oldest first. *)
Fixpoint select_points_calls (tr : trace F)
  : list (list F * list F * list F * F) :=
  match tr with
  | [] => []
  | EvSelectPoints x y z r :: tr' => (x, y, z, r) :: select_points_calls tr'
  | _ :: tr' => select_points_calls tr'
  end.

(** A computation that only appends to the log: its result does not depend
    on the log it starts from, and its own events come after it. *)
Definition log_only {A : Type} (m : M (trace F) A) : Prop :=
  forall tr, m tr = ((m []).1, tr ++ (m []).2).

(** The number of cells of a grid that a selector keeps. *)
Definition count_selected (sel : Selector F) (g : Grid F) : nat :=
  length (List.filter (cell_selected sel g) (seq 0 (prod (ActiveDimensions g)))).

(** The same, summed over all grids of all chunks. *)
Definition total_selected (sel : Selector F) (chunks : list (Chunk F)) : nat :=
  sum_list_with (fun chunk => sum_list_with (count_selected sel) (objs chunk)) chunks.

(** The first [n] cells of an output array have been written. *)
Definition filled (size n : nat) (dest : list (option F)) : Prop :=
  length dest = size /\ Forall is_Some (take n dest).

(** All grids of a [grids_by_file] dictionary, file by file. *)
Definition group_members (d : list (string * list (Grid F))) : list (Grid F) :=
  concat (snd <$> d).

(** No list of the dictionary is empty, and each grid sits under its own
    file name. *)
Definition keyed (d : list (string * list (Grid F))) : Prop :=
  forall fn gs, (fn, gs) ∈ d ->
    gs ≠ [] /\ forall g, g ∈ gs -> filename g = Some fn.

(** The guard [len(chunks) == len(chunks[0].objs) == 1]. *)
Definition single_grid (chunks : list (Chunk F)) : Prop :=
  exists c g, chunks = [c] /\ objs c = [g].

(** Each key of [ks] holds an array of [size] cells whose first [n] cells
    are written. *)
Definition filled_for (size : nat) (ks : list FieldKey) (n : nat) (rv : fluid_rv) : Prop :=
  forall f, f ∈ ks -> exists dest, rv !! f = Some dest /\ filled size n dest.

Section ParticleReads.
Variables (fs : filesystem) (self : IOHandlerBoxlib F) (selector : Selector F).

(** The particle types read for a requested type: the members of a union
    in their declared order, or the type itself. *)
Definition visited_types (ftype : string) : list string :=
  match particle_unions (ds self) !! ftype with
  | Some subtypes => subtypes
  | None => [ftype]
  end.

(** What one [_read_particles] call returns (the log it starts from has no
    influence, see [log_only_read_particles]). *)
Definition produced (grid : Grid F) (ftype name : string)
  : result (option (list F)) :=
  (_read_particles fs self grid selector ftype name []).1.

(** The array of a successful read (empty otherwise). *)
Definition produced_array (grid : Grid F) (name ftype : string) : list F :=
  match produced grid ftype name with
  | Ok (Some a) => a
  | _ => []
  end.

(** The arrays produced for [key], in the order the loops produce them:
    chunk by chunk, grid by grid, at each turn of the field loop that
    reaches [key], one array per visited particle type. *)
Definition produced_in_order (chunks : list (Chunk F)) (fields : list FieldKey)
    (key : FieldKey) : list (list F) :=
  flat_map (fun chunk =>
    flat_map (fun grid =>
      flat_map (fun field =>
        if decide (key = field)
        then map (produced_array grid key.2) (visited_types key.1)
        else [])
      fields)
    (objs chunk))
  chunks.

(** Every read that the loops perform yields an array. *)
Definition reads_succeed (chunks : list (Chunk F)) (fields : list FieldKey) : Prop :=
  forall chunk grid ftype fname subtype,
    chunk ∈ chunks -> grid ∈ objs chunk -> (ftype, fname) ∈ fields ->
    subtype ∈ visited_types ftype ->
    exists a, produced grid subtype fname = Ok (Some a).

End ParticleReads.

Section Blocks.
Variables (fs : filesystem) (self : IOHandlerBoxlib F) (fields : list FieldKey).

Let dtype := _dtype (index (ds self)).
Let bpr := itemsize dtype.
Let order := field_order (index (ds self)).

(** The per-grid dictionary holds every requested field of the field order
    table, each with the grid's number of cells. *)
Definition block_ok (n : nat) (seen : list FieldKey)
    (d : gmap FieldKey (ndarray F)) : Prop :=
  (forall fld, fld ∈ fields -> fld ∈ seen -> is_Some (d !! fld))
  /\ (forall fld v, d !! fld = Some v -> length (flat v) = n).

(** The block read for a requested entry: [count] items found [lo] bytes
    after the cursor. *)
Definition block_at (grid : Grid F) (f : handle) (lo : Z) : ndarray F :=
  {| shape := ActiveDimensions grid;
     flat := map (decode dtype)
               (split_items bpr (prod (ActiveDimensions grid))
                  (drop (Z.to_nat (h_pos f + lo)) (h_data f))) |}.

(** The grid's blocks, one per entry of the field order table, lie inside
    the bytes [bs]. *)
Definition fits (bs : list byte) (grid : Grid F) : Prop :=
  (0 <= _offset grid)%Z
  /\ Z.to_nat (_offset grid)
     + length order * (prod (ActiveDimensions grid) * bpr) <= length bs.

(** The grid names a file that exists and holds its blocks. *)
Definition stored (grid : Grid F) : Prop :=
  exists fn bs, filename grid = Some fn /\ fs !! fn = Some bs /\ fits bs grid.

(** The chunk dictionary has the grid's blocks under the grid's id. *)
Definition grid_read (data : chunk_data) (grid : Grid F) : Prop :=
  exists d, data !! id grid = Some d
            /\ block_ok (prod (ActiveDimensions grid)) order d.

End Blocks.

End Vocabulary.

(** * More vocabulary *)

Section OrionVocabulary.
Context {F : Type} `{Float64 F}.

(** The path the [particle_filename] property settles on: the star
    particle file when it exists, the sink particle file otherwise. *)
Definition orion_particle_file (fs : filesystem) (self : IOHandlerOrion F) : string :=
  let star := output_dir (orion_ds self) +:+ "/StarParticles" in
  if decide (is_Some (fs !! star)) then star
  else output_dir (orion_ds self) +:+ "/SinkParticles".

Definition is_parse_event (e : event F) : Prop := exists fn, e = EvParseSinks fn.

(** A file of ASCII text: every byte is below 128, so that reading it in
    text mode decodes each byte to the character it stands for. *)
Definition ascii_text (bs : list byte) : bool :=
  forallb (fun b => (Byte.to_N b <? 128)%N) bs.

(** From [s] to [s'] the cached lines were kept and the log gained calls
    of [parse_orion_sinks] only: no [open], no [readlines]. *)
Definition only_parses (s s' : OrionState F) : Prop :=
  _cached_lines s' = _cached_lines s
  /\ exists evs, io_log s' = io_log s ++ evs /\ Forall is_parse_event evs.

(** The value of the particle on line [num]: column [col] of the stripped
    line, split at single spaces, as a float. *)
Definition orion_entry (np_float : string -> option F) (lines : list string)
    (col num : nat) : option F :=
  match lines !! num with
  | None => None
  | Some line =>
      match split_spaces [] (strip line) !! col with
      | None => None
      | Some entry => np_float entry
      end
  end.

End OrionVocabulary.

Section LayoutVocabulary.
Context {F : Type} `{Float64 F}.

(** Array-of-structs layout of a particle block: the records follow one
    another, and within a record its items, each item being its bytes. *)
Definition aos_bytes (records : list (list (list byte))) : list byte :=
  concat (concat records).

(** Every record has [n] items of [w] bytes. *)
Definition records_of (w n : nat) (records : list (list (list byte))) : Prop :=
  Forall (fun rec => length rec = n /\ Forall (fun item => length item = w) rec)
         records.

(** Item [j] of every record, as float64. *)
Definition column (dt : DType F) (j : nat) (records : list (list (list byte)))
  : list F :=
  map (fun rec => decode dt (nth j rec [])) records.

End LayoutVocabulary.

Section FluidVocabulary.
Context {F : Type} `{Float64 F}.

(** Position of the first occurrence of a field in the field order table. *)
Fixpoint field_position (field : FieldKey) (order : list FieldKey) : option nat :=
  match order with
  | [] => None
  | f :: order' =>
      if decide (f = field) then Some 0 else S <$> field_position field order'
  end.

(** The bytes of the file a grid names. *)
Definition grid_bytes (fs : filesystem) (grid : Grid F) : option (list byte) :=
  match filename grid with
  | Some fn => fs !! fn
  | None => None
  end.

(** Block number [k] of a grid in the bytes [bs] of its file: the [count]
    items that start [k] blocks after the grid's offset, in the grid's
    shape. *)
Definition block_of (self : IOHandlerBoxlib F) (bs : list byte) (grid : Grid F)
    (k : nat) : ndarray F :=
  let dtype := _dtype (index (ds self)) in
  let count := prod (ActiveDimensions grid) in
  {| shape := ActiveDimensions grid;
     flat := map (decode dtype)
               (split_items (itemsize dtype) count
                  (drop (Z.to_nat (_offset grid) + k * (count * itemsize dtype)) bs)) |}.

(** What the per-grid dictionary should hold under a field: its block when
    the field was requested and the table lists it, nothing otherwise. *)
Definition expected_block (self : IOHandlerBoxlib F) (fields : list FieldKey)
    (bs : list byte) (grid : Grid F) (field : FieldKey) : option (ndarray F) :=
  if decide (field ∈ fields)
  then block_of self bs grid <$> field_position field (field_order (index (ds self)))
  else None.

(** The block of a field for a grid, from the file system (an empty array
    where the grid has no file or the table does not list the field). *)
Definition grid_block (fs : filesystem) (self : IOHandlerBoxlib F)
    (grid : Grid F) (field : FieldKey) : ndarray F :=
  match grid_bytes fs grid,
        field_position field (field_order (index (ds self))) with
  | Some bs, Some k => block_of self bs grid k
  | _, _ => {| shape := []; flat := [] |}
  end.

(** The cells of a block that the selector keeps, in column-major order. *)
Definition selected_cells (sel : Selector F) (grid : Grid F) (v : ndarray F)
  : list F :=
  masked (cell_mask sel grid (length (flat v))) (flat v).

(** The selected cells of a field over all grids, chunk by chunk and grid
    by grid. *)
Definition selected_values (fs : filesystem) (self : IOHandlerBoxlib F)
    (sel : Selector F) (chunks : list (Chunk F)) (field : FieldKey) : list F :=
  concat (map (fun grid => selected_cells sel grid (grid_block fs self grid field))
              (flat_map objs chunks)).

(** An output array of [size] cells: [vals] written at its start, the rest
    still uninitialised. *)
Definition holds (size : nat) (vals : list F) (dest : list (option F)) : Prop :=
  dest = (Some <$> vals) ++ replicate (size - length vals) None.

(** Each key of [ks] holds the values [V] gives it, [ind] of them. *)
Definition holds_for (size : nat) (ks : list FieldKey)
    (V : FieldKey -> list F) (ind : nat) (rv : gmap FieldKey (list (option F)))
  : Prop :=
  forall f, f ∈ ks ->
    exists dest, rv !! f = Some dest /\ holds size (V f) dest /\ length (V f) = ind.

(** A grid whose blocks cannot all be read: its file is missing, or ends
    before the block of a requested field that the table lists. *)
Definition unreadable (fs : filesystem) (self : IOHandlerBoxlib F)
    (fields : list FieldKey) (grid : Grid F) : Prop :=
  exists fn, filename grid = Some fn /\
    match fs !! fn with
    | None => True
    | Some bs =>
        let size := prod (ActiveDimensions grid)
                    * itemsize (_dtype (index (ds self))) in
        (0 <= _offset grid)%Z /\ 0 < size
        /\ exists field k,
             field ∈ fields
             /\ field_position field (field_order (index (ds self))) = Some k
             /\ length bs < Z.to_nat (_offset grid) + (k + 1) * size
    end.

(** The files opened along a log, in order. *)
Definition opened (tr : trace F) : list string :=
  omap (fun e => match e with EvOpen fn => Some fn | _ => None end) tr.

(** The reads along a log: file, position and number of bytes. *)
Definition reads (tr : trace F) : list (string * Z * nat) :=
  omap (fun e => match e with
                 | EvFromfile fn pos n => Some (fn, pos, n)
                 | _ => None
                 end) tr.

(** The distances of the seeks relative to the cursor along a log. *)
Definition relative_seeks (tr : trace F) : list Z :=
  omap (fun e => match e with
                 | EvSeek _ SEEK_CUR off => Some off
                 | _ => None
                 end) tr.

(** One read of [size] bytes per requested entry of [order], the entries
    lying one after the other from [pos] on. *)
Fixpoint block_reads (fields : list FieldKey) (fn : string) (size : nat)
    (pos : Z) (order : list FieldKey) : list (string * Z * nat) :=
  match order with
  | [] => []
  | f :: order' =>
      (if decide (f ∈ fields) then [(fn, pos, size)] else [])
      ++ block_reads fields fn size (pos + Z.of_nat size)%Z order'
  end.

(** The bytes the blocks of a grid take: one block per entry of the field
    order table. *)
Definition grid_extent (self : IOHandlerBoxlib F) (grid : Grid F) : nat :=
  length (field_order (index (ds self)))
  * (prod (ActiveDimensions grid) * itemsize (_dtype (index (ds self)))).

(** The reads a grid calls for: the blocks of its requested fields, in its
    own file (none for a grid without a path). *)
Definition grid_reads (self : IOHandlerBoxlib F) (fields : list FieldKey)
    (grid : Grid F) : list (string * Z * nat) :=
  match filename grid with
  | Some fn =>
      block_reads fields fn
        (prod (ActiveDimensions grid) * itemsize (_dtype (index (ds self))))
        (_offset grid) (field_order (index (ds self)))
  | None => []
  end.

(** Offsets never decrease along the list. *)
Fixpoint ascending (l : list (Grid F)) : Prop :=
  match l with
  | [] => True
  | g :: l' =>
      (forall g', g' ∈ l' -> (_offset g <= _offset g')%Z) /\ ascending l'
  end.

(** Each grid of the list starts at or after [pos], and after the blocks
    of the grid before it. *)
Fixpoint laid_out (self : IOHandlerBoxlib F) (pos : Z) (l : list (Grid F))
  : Prop :=
  match l with
  | [] => True
  | g :: l' =>
      (pos <= _offset g)%Z
      /\ laid_out self (_offset g + Z.of_nat (grid_extent self g))%Z l'
  end.

End FluidVocabulary.

(** ** Concrete data for running the model

    One-byte items whose value is the byte, exact rationals for float64. *)

Definition le_value (bs : list byte) : Z :=
  foldr (fun b acc => (Z.of_N (Byte.to_N b) + 256 * acc)%Z) 0%Z bs.

Definition u8 : DType Q :=
  {| itemsize := 1; decode := fun bs => inject_Z (le_value bs) |}.

Definition bytes_of (l : list nat) : list byte :=
  map (fun n => default x00 (Byte.of_N (N.of_nat n))) l.

Fixpoint digits_value (acc : nat) (l : list ascii) : option nat :=
  match l with
  | [] => Some acc
  | a :: l' =>
      let n := nat_of_ascii a in
      if Nat.leb 48 n && Nat.leb n 57
      then digits_value (10 * acc + (n - 48)) l'
      else None
  end.

(** A stand-in for [np.float] on unsigned decimal numerals. *)
Definition q_of_text (s : string) : option Q :=
  match String.list_ascii_of_string s with
  | [] => None
  | l => (fun n => inject_Z (Z.of_nat n)) <$> digits_value 0 l
  end.

Definition io_header : ParticleHeader Q :=
  {| known_int_fields := [("io", "particle_id")];
     known_real_fields := [("io", "particle_position_x");
                           ("io", "particle_position_y");
                           ("io", "particle_position_z");
                           ("io", "particle_mass")];
     particle_int_dtype_itemsize := 1;
     int_type := u8;
     real_type := u8;
     num_int := 1;
     num_real := 4 |}.

Definition demo_index : Index Q :=
  {| _dtype := u8;
     field_order := [("boxlib", "density"); ("boxlib", "temperature")];
     particle_headers := {[ "io" := io_header ]} |}.

Definition demo_ds (dim : nat) : Dataset Q :=
  {| index := demo_index;
     particle_unions := {[ "all" := ["io"] ]};
     dimensionality := dim;
     output_dir := "plt00000" |}.

Definition demo_grid (gid : Z) (fn : option string) (off : Z) (dims : list nat)
    (dim : nat) (pfile : string) (npart : nat) (lnums : list nat) : Grid Q :=
  {| id := gid;
     filename := fn;
     _offset := off;
     ActiveDimensions := dims;
     LeftEdge := (0, 0, 1)%Q;
     RightEdge := (1, 1, 2)%Q;
     grid_ds := demo_ds dim;
     _pdata := {[ "io" := {| NumberOfParticles := npart;
                             particle_filename := pfile;
                             offset := 0 |} ]};
     grid_NumberOfParticles := length lnums;
     _particle_line_numbers := lnums |}.

(** A region selector that keeps every cell and every point. *)
Definition keep_all (name : string) : Selector Q :=
  {| class_name := name;
     cell_selected := fun _ _ => true;
     select_points := fun x _ _ _ => Some (map (fun _ => true) x) |}.

(** A selector that keeps nothing. *)
Definition keep_none (name : string) : Selector Q :=
  {| class_name := name;
     cell_selected := fun _ _ => false;
     select_points := fun _ _ _ _ => None |}.

Definition boxlib_handler : IOHandlerBoxlib Q := {| ds := demo_ds 3 |}.
Definition orion_handler : IOHandlerOrion Q := {| orion_ds := demo_ds 3 |}.

Definition text_bytes (s : string) : list byte :=
  map byte_of_ascii (String.list_ascii_of_string s).

(** Files: a fluid file with two 2x1x1 grids (density block, then
    temperature block, each), two particle files (one particle each:
    id, x, y, z, mass) and a sink-particle text file. *)
Definition demo_fs : filesystem :=
  {[ "Cell_D_0000" := bytes_of [11; 12; 21; 22; 13; 14; 23; 24];
     "DATA_0001" := bytes_of [9; 0; 0; 0; 1];
     "DATA_0002" := bytes_of [8; 0; 0; 0; 2];
     "plt00000/StarParticles" :=
        text_bytes ("2" +:+ String newline ("5 7" +:+ String newline "6 8")) ]}.

Definition demo_sinks_index (lines : list string) : gmap string nat :=
  {[ "particle_mass" := 0; "particle_position_x" := 1 ]}.

Definition fresh_orion : OrionState Q :=
  {| _cached_lines := None;
     _particle_filename := None;
     _particle_field_index := None;
     io_log := [] |}.

Definition two_grid_chunk : Chunk Q :=
  {| objs := [demo_grid 1 (Some "Cell_D_0000") 0 [2; 1; 1] 3 "DATA_0001" 1 [1];
              demo_grid 2 (Some "Cell_D_0000") 4 [2; 1; 1] 3 "DATA_0002" 1 [2]] |}.

Definition one_grid_chunk : Chunk Q :=
  {| objs := [demo_grid 1 (Some "Cell_D_0000") 0 [2; 1; 1] 3 "DATA_0001" 1 [1]] |}.

(** A 4x4x4 grid at the start of a file of 128 one-byte items: items 0..63
    are the density block, items 64..127 the temperature block. *)
Definition grid444 : Grid Q :=
  demo_grid 1 (Some "Cell_D_0444") 0 [4; 4; 4] 3 "DATA_0001" 1 [1].

Definition fs444 : filesystem :=
  {[ "Cell_D_0444" := bytes_of (seq 0 64) ++ bytes_of (seq 64 64) ]}.

Definition grid2d : Grid Q :=
  demo_grid 1 (Some "Cell_D_0000") 0 [2; 1; 1] 2 "DATA_0001" 1 [1].

(** ** More concrete data *)

Definition first_grid : Grid Q :=
  demo_grid 1 (Some "Cell_D_0000") 0 [2; 1; 1] 3 "DATA_0001" 1 [1].

Definition second_grid : Grid Q :=
  demo_grid 2 (Some "Cell_D_0000") 4 [2; 1; 1] 3 "DATA_0002" 1 [2].

(** The two grids of [two_grid_chunk], listed the other way round. *)
Definition swapped_chunk : Chunk Q := {| objs := [second_grid; first_grid] |}.

(** A grid without particles. *)
Definition no_particle_chunk : Chunk Q :=
  {| objs := [demo_grid 1 (Some "Cell_D_0000") 0 [2; 1; 1] 3 "DATA_0001" 0 []] |}.

(** A fluid file that ends inside the temperature block of the first
    grid. *)
Definition short_fs : filesystem :=
  {[ "Cell_D_0000" := bytes_of [11; 12; 21] ]}.

(** The sink-particle file of [demo_fs], as bytes and as lines. *)
Definition star_bytes : list byte :=
  text_bytes ("2" +:+ String newline ("5 7" +:+ String newline "6 8")).

Definition star_lines : list string := readlines star_bytes.

(** A grid of the text-particle reader: one particle, on line 1. *)
Definition orion_grid : Grid Q :=
  demo_grid 1 None 0 [2; 1; 1] 3 "DATA_0001" 1 [1].

(** A reader that already holds the lines of the file. *)
Definition cached_orion : OrionState Q :=
  {| _cached_lines := Some star_lines;
     _particle_filename := None;
     _particle_field_index := None;
     io_log := [] |}.

(** The one particle of "DATA_0001": its integer record and its real
    record, item by item. *)
Definition io_ints : list (list (list byte)) := [[bytes_of [9]]].

Definition io_reals : list (list (list byte)) :=
  [[bytes_of [0]; bytes_of [0]; bytes_of [0]; bytes_of [1]]].

Definition io_pdata : ParticleSet :=
  {| NumberOfParticles := 1; particle_filename := "DATA_0001"; offset := 0 |}.

(** Two particles in a two-dimensional dataset: ids 8 and 9, then the real
    records (x, y, z, mass) = (1, 2, 0, 5) and (3, 4, 0, 6). *)
Definition pair_fs : filesystem :=
  {[ "DATA_0003" := bytes_of [8; 9; 1; 2; 0; 5; 3; 4; 0; 6] ]}.

Definition pair_grid : Grid Q :=
  demo_grid 1 (Some "Cell_D_0000") 0 [2; 1; 1] 2 "DATA_0003" 2 [].

Definition pair_pdata : ParticleSet :=
  {| NumberOfParticles := 2; particle_filename := "DATA_0003"; offset := 0 |}.

Definition pair_reals : list (list (list byte)) :=
  [[bytes_of [1]; bytes_of [2]; bytes_of [0]; bytes_of [5]];
   [bytes_of [3]; bytes_of [4]; bytes_of [0]; bytes_of [6]]].

(** * Properties *)

Section Properties.
Context {F : Type} `{Float64 F}.

Local Abbreviation particle_rv := (gmap FieldKey (list F)).
Local Abbreviation fluid_rv := (gmap FieldKey (list (option F))).
Local Abbreviation chunk_data := (gmap Z (gmap FieldKey (ndarray F))).

(** ** The monad *)

Lemma bind_ok {S A B : Type} (m : M S A) (k : A -> M S B) s a s' :
  m s = (Ok a, s') -> bind m k s = k a s'.
Proof. intros E. unfold bind. now rewrite E. Qed.

Lemma bind_assoc {S A B C : Type} (m : M S A) (k : A -> M S B) (k' : B -> M S C) s :
  bind (bind m k) k' s = bind m (fun a => bind (k a) k') s.
Proof. unfold bind. destruct (m s) as [[a|e] s']; reflexivity. Qed.

Lemma for_each_cons {S A B : Type} (a : A) (l : list A) (body : A -> B -> M S B) b :
  for_each (a :: l) body b = bind (body a b) (for_each l body).
Proof. reflexivity. Qed.

(** ** Requests outside the fluid namespace *)

Lemma existsb_not_boxlib (fields : list FieldKey) ftype fname :
  (ftype, fname) ∈ fields -> ftype ≠ "boxlib" ->
  existsb (fun '(ftype, fname) => negb (String.eqb ftype "boxlib")) fields = true.
Proof.
  intros Hin Hne. apply existsb_exists. exists (ftype, fname). split.
  - now apply list_elem_of_In.
  - apply negb_true_iff. now apply String.eqb_neq.
Qed.

(** C8: a request that names a field outside the "boxlib" namespace raises
    [NotImplementedError] at once: the log is left as it was (no file is
    opened, nothing is read) and no mapping is returned. *)
Theorem read_fluid_selection_rejects_foreign_namespace
    (fs : filesystem) (self : IOHandlerBoxlib F) (chunks : list (Chunk F))
    (selector : Selector F) (fields : list FieldKey) (size : nat) (tr : trace F)
    (ftype fname : string) :
  (ftype, fname) ∈ fields -> ftype ≠ "boxlib" ->
  _read_fluid_selection fs self chunks selector fields size tr
  = (Raise NotImplementedError, tr).
Proof.
  intros Hin Hne. unfold _read_fluid_selection.
  now rewrite (existsb_not_boxlib _ _ _ Hin Hne).
Qed.

(** ** Computations that only append to the log *)

Lemma log_only_ret {A : Type} (a : A) : log_only (F:=F) (ret a).
Proof. intros tr. unfold ret. simpl. now rewrite app_nil_r. Qed.

Lemma log_only_raise {A : Type} (e : exn) : log_only (F:=F) (@raise _ A e).
Proof. intros tr. unfold raise. simpl. now rewrite app_nil_r. Qed.

Lemma log_only_emit {A : Type} (e : event F) (a : A) : log_only (F:=F) (emit e a).
Proof. intros tr. reflexivity. Qed.

Lemma log_only_bind {A B : Type} (m : M (trace F) A) (k : A -> M (trace F) B) :
  log_only m -> (forall a, log_only (k a)) -> log_only (F:=F) (bind m k).
Proof.
  intros Hm Hk tr. unfold bind. rewrite (Hm tr).
  destruct (m []) as [[a|e] t0]; simpl.
  - rewrite (Hk a (tr ++ t0)), (Hk a t0). simpl. now rewrite app_assoc.
  - reflexivity.
Qed.

Lemma log_only_for_each {A B : Type} (l : list A)
    (body : A -> B -> M (trace F) B) (b : B) :
  (forall a b, log_only (body a b)) -> log_only (F:=F) (for_each l body b).
Proof.
  intros Hb. revert b. induction l as [|a l IH]; intros b; simpl.
  - apply log_only_ret.
  - apply log_only_bind; auto.
Qed.

Ltac log_only_step :=
  match goal with
  | |- log_only (bind _ _) => apply log_only_bind; [|intros ?]
  | |- log_only (ret _) => apply log_only_ret
  | |- log_only (raise _) => apply log_only_raise
  | |- log_only (emit _ _) => apply log_only_emit
  | |- log_only (match ?x with _ => _ end) => destruct x
  end.

Lemma log_only_open_file fs fn : log_only (F:=F) (open_file (F:=F) fs fn).
Proof. unfold open_file. repeat log_only_step. Qed.

Lemma log_only_seek f off w : log_only (F:=F) (seek (F:=F) f off w).
Proof. unfold seek. repeat log_only_step. Qed.

Lemma log_only_np_fromfile f (dt : DType F) count :
  log_only (F:=F) (np_fromfile f dt count).
Proof. unfold np_fromfile. apply log_only_emit. Qed.

Lemma log_only_reshape_F (v : list F) dims : log_only (F:=F) (reshape_F v dims).
Proof. unfold reshape_F. repeat log_only_step. Qed.

Lemma log_only_strided (l : list F) start step :
  log_only (F:=F) (strided l start step).
Proof. unfold strided. repeat log_only_step. Qed.

Lemma log_only_array_index (data : list F) mask :
  log_only (F:=F) (array_index data mask).
Proof. unfold array_index. repeat log_only_step. Qed.

Lemma log_only_read_particles fs (self : IOHandlerBoxlib F) grid selector
    ftype name :
  log_only (F:=F) (_read_particles fs self grid selector ftype name).
Proof.
  unfold _read_particles, call_select_points.
  repeat (log_only_step || apply log_only_open_file || apply log_only_seek
          || apply log_only_np_fromfile || apply log_only_strided
          || apply log_only_array_index).
Qed.

(** ** Particle selection: arrays are prepended *)

Section ParticleSelection.
Variables (fs : filesystem) (self : IOHandlerBoxlib F) (selector : Selector F).

Lemma prepends_for_each {A : Type} (fields : list FieldKey) (l : list A)
    (body : A -> particle_rv -> M (trace F) particle_rv)
    (new : A -> FieldKey -> list (list F)) (rv : particle_rv) (tr : trace F) :
  (forall a rv tr, a ∈ l -> (forall f, f ∈ fields -> is_Some (rv !! f)) ->
     exists rv' tr',
       body a rv tr = (Ok rv', tr')
       /\ forall k, rv' !! k
            = (fun acc => concat (reverse (new a k)) ++ acc) <$> rv !! k) ->
  (forall f, f ∈ fields -> is_Some (rv !! f)) ->
  exists rv' tr',
    for_each l body rv tr = (Ok rv', tr')
    /\ forall k, rv' !! k
         = (fun acc => concat (reverse (flat_map (fun a => new a k) l)) ++ acc)
             <$> rv !! k.
Proof.
  revert rv tr. induction l as [|a l IH]; intros rv tr Hbody Hdom.
  - exists rv, tr. split; [reflexivity|]. intros k. simpl.
    now destruct (rv !! k).
  - destruct (Hbody a rv tr) as (rv1 & tr1 & E1 & L1); [left|exact Hdom|].
    destruct (IH rv1 tr1) as (rv2 & tr2 & E2 & L2).
    + intros a' rv' tr' Ha'. apply Hbody. now right.
    + intros f Hf. rewrite L1. destruct (Hdom f Hf) as [acc ->]. simpl. eauto.
    + exists rv2, tr2. split.
      * simpl. now rewrite (bind_ok _ _ _ _ _ E1).
      * intros k. rewrite L2, L1. destruct (rv !! k) as [acc|]; simpl; [|done].
        f_equal. rewrite reverse_app, concat_app. now rewrite app_assoc.
Qed.

Lemma read_prepend_step (fields : list FieldKey) (grid : Grid F)
    (key : FieldKey) (subtype : string) (rv : particle_rv) (tr : trace F) :
  key ∈ fields ->
  (exists a, produced fs self selector grid subtype key.2 = Ok (Some a)) ->
  (forall f, f ∈ fields -> is_Some (rv !! f)) ->
  exists rv' tr',
    (let* data := _read_particles fs self grid selector subtype key.2 in
     prepend key data rv) tr = (Ok rv', tr')
    /\ forall k, rv' !! k
         = (fun acc => concat (reverse
                         (if decide (k = key)
                          then [produced_array fs self selector grid key.2 subtype] else []))
                       ++ acc) <$> rv !! k.
Proof.
  intros Hkey [a Ha] Hdom.
  pose proof (log_only_read_particles fs self grid selector subtype key.2 tr) as E.
  fold (produced fs self selector grid subtype key.2) in E. rewrite Ha in E.
  destruct (Hdom key Hkey) as [acc Hacc].
  eexists _, _. split.
  - rewrite (bind_ok _ _ _ _ _ E). unfold prepend. rewrite Hacc. reflexivity.
  - intros k. unfold produced_array. rewrite Ha.
    destruct (decide (k = key)) as [->|Hne].
    + rewrite lookup_insert_eq, Hacc. simpl. now rewrite app_nil_r.
    + rewrite lookup_insert_ne by done. now destruct (rv !! k).
Qed.

Lemma flat_map_singleton {A B : Type} (f : A -> B) (l : list A) :
  flat_map (fun a => [f a]) l = map f l.
Proof. induction l as [|a l IH]; simpl; [reflexivity|now rewrite IH]. Qed.

Lemma flat_map_nil {A B : Type} (l : list A) :
  flat_map (fun _ => @nil B) l = [].
Proof. induction l as [|a l IH]; simpl; [reflexivity|exact IH]. Qed.

Lemma read_particle_field_prepends (chunks : list (Chunk F))
    (fields : list FieldKey) (chunk : Chunk F) (grid : Grid F)
    (field : FieldKey) (rv : particle_rv) (tr : trace F) :
  reads_succeed fs self selector chunks fields ->
  chunk ∈ chunks -> grid ∈ objs chunk -> field ∈ fields ->
  (forall f, f ∈ fields -> is_Some (rv !! f)) ->
  exists rv' tr',
    read_particle_field fs self selector grid field rv tr = (Ok rv', tr')
    /\ forall k, rv' !! k
         = (fun acc => concat (reverse
                         (if decide (k = field)
                          then map (produced_array fs self selector grid k.2) (visited_types self k.1)
                          else []))
                       ++ acc) <$> rv !! k.
Proof.
  intros Hok Hc Hg Hf Hdom. destruct field as [ftype fname].
  unfold read_particle_field.
  destruct (particle_unions (ds self) !! ftype) as [subtypes|] eqn:Eu.
  - destruct (prepends_for_each fields subtypes
                (fun subtype rv =>
                   let* data := _read_particles fs self grid selector subtype fname in
                   prepend (ftype, fname) data rv)
                (fun subtype k =>
                   if decide (k = (ftype, fname))
                   then [produced_array fs self selector grid fname subtype] else [])
                rv tr) as (rv' & tr' & E & L).
    + intros st rv0 tr0 Hst Hdom0.
      apply (read_prepend_step fields grid (ftype, fname) st rv0 tr0 Hf);
        [|exact Hdom0].
      apply (Hok chunk grid ftype fname st Hc Hg Hf).
      unfold visited_types. now rewrite Eu.
    + exact Hdom.
    + exists rv', tr'. split; [exact E|]. intros k. rewrite L.
      destruct (decide (k = (ftype, fname))) as [->|Hne].
      * simpl. unfold visited_types. rewrite Eu.
        now rewrite flat_map_singleton.
      * now rewrite flat_map_nil.
  - destruct (read_prepend_step fields grid (ftype, fname) ftype rv tr Hf)
      as (rv' & tr' & E & L).
    + apply (Hok chunk grid ftype fname ftype Hc Hg Hf).
      unfold visited_types. rewrite Eu. by left.
    + exact Hdom.
    + exists rv', tr'. split; [exact E|]. intros k. rewrite L.
      destruct (decide (k = (ftype, fname))) as [->|Hne]; [|done].
      simpl. unfold visited_types. now rewrite Eu.
Qed.

Lemma empty_arrays_lookup (fields : list FieldKey) (k : FieldKey) :
  empty_arrays (F:=F) fields !! k = if decide (k ∈ fields) then Some [] else None.
Proof.
  unfold empty_arrays.
  assert (G : forall (rv : gmap FieldKey (list F)),
             fold_left (fun rv f => <[f := []]> rv) fields rv !! k
             = if decide (k ∈ fields) then Some [] else rv !! k).
  { induction fields as [|f fields IH]; intros rv; simpl.
    - destruct (decide (k ∈ [])) as [Hin|]; [by apply elem_of_nil in Hin|done].
    - rewrite IH. destruct (decide (k ∈ fields)) as [Hin|Hn].
      + rewrite decide_True; [done|by right].
      + destruct (decide (k = f)) as [->|Hne].
        * rewrite decide_True by (by left). apply lookup_insert_eq.
        * rewrite decide_False.
          -- now rewrite lookup_insert_ne.
          -- intros Hin. apply elem_of_cons in Hin as [?|?]; done. }
  rewrite G. now destruct (decide (k ∈ fields)).
Qed.

(** C3: when every read yields an array, [_read_particle_selection]
    returns, and the array it holds for a union field is the concatenation
    of the produced arrays in the reverse of the order of their production.
    They are produced chunk by chunk and grid by grid and, within a grid,
    member type by member type in the union's declared order. *)
Theorem read_particle_selection_prepends
    (chunks : list (Chunk F)) (fields : list FieldKey) (tr : trace F)
    (union fname : string) (subtypes : list string) :
  particle_unions (ds self) !! union = Some subtypes ->
  (union, fname) ∈ fields ->
  reads_succeed fs self selector chunks fields ->
  exists rv tr',
    _read_particle_selection fs self chunks selector fields tr = (Ok rv, tr')
    /\ visited_types self union = subtypes
    /\ rv !! (union, fname)
       = Some (concat (reverse (produced_in_order fs self selector chunks fields (union, fname)))).
Proof.
  intros Hu Hin Hok. unfold _read_particle_selection.
  destruct (prepends_for_each fields chunks
              (fun chunk rv =>
                 for_each (objs chunk)
                   (fun grid rv =>
                      for_each fields
                        (read_particle_field fs self selector grid) rv) rv)
              (fun chunk k =>
                 flat_map (fun grid =>
                   flat_map (fun field =>
                     if decide (k = field)
                     then map (produced_array fs self selector grid k.2) (visited_types self k.1)
                     else []) fields) (objs chunk))
              (empty_arrays fields) tr) as (rv & tr' & E & L).
  - intros chunk rv0 tr0 Hc Hdom0.
    apply (prepends_for_each fields (objs chunk)
             (fun grid rv => for_each fields
                               (read_particle_field fs self selector grid) rv)
             (fun grid k =>
                flat_map (fun field =>
                  if decide (k = field)
                  then map (produced_array fs self selector grid k.2) (visited_types self k.1)
                  else []) fields)); [|exact Hdom0].
    intros grid rv1 tr1 Hg Hdom1.
    apply (prepends_for_each fields fields
             (read_particle_field fs self selector grid)
             (fun field k =>
                if decide (k = field)
                then map (produced_array fs self selector grid k.2) (visited_types self k.1)
                else [])); [|exact Hdom1].
    intros field rv2 tr2 Hf Hdom2.
    now apply (read_particle_field_prepends chunks fields chunk).
  - intros f Hf. rewrite empty_arrays_lookup. rewrite decide_True by done. eauto.
  - exists rv, tr'. split; [exact E|]. split.
    + unfold visited_types. now rewrite Hu.
    + rewrite L, empty_arrays_lookup. rewrite decide_True by done. simpl.
      now rewrite app_nil_r.
Qed.

End ParticleSelection.

(** ** The z column of two-dimensional datasets *)

Lemma select_points_calls_app (t1 t2 : trace F) :
  select_points_calls (t1 ++ t2) = select_points_calls t1 ++ select_points_calls t2.
Proof.
  induction t1 as [|e t1 IH]; simpl; [reflexivity|].
  destruct e; simpl; now rewrite ?IH.
Qed.

Lemma imul_ones_like `{!Float64Laws F} (y : list F) (c : F) :
  imul (ones_like y) c = replicate (length y) c.
Proof.
  unfold imul, ones_like. induction y as [|a y IH]; simpl; [reflexivity|].
  now rewrite fmul_one_l, IH.
Qed.

Lemma index_of_elem (name : string) (names : list string) :
  name ∈ names -> is_Some (index_of name names).
Proof.
  induction names as [|n names IH]; intros Hin; [by apply elem_of_nil in Hin|].
  simpl. destruct (decide (n = name)); [eauto|].
  apply elem_of_cons in Hin as [->|Hin]; [done|].
  destruct (IH Hin) as [i ->]. simpl. eauto.
Qed.

Lemma index_of_None (name : string) (names : list string) :
  index_of name names = None <-> name ∉ names.
Proof.
  split.
  - intros E Hin. apply index_of_elem in Hin as [i Hi]. congruence.
  - induction names as [|n names IH]; intros Hn; [reflexivity|]. simpl.
    apply not_elem_of_cons in Hn as [Hne Hn].
    destruct (decide (n = name)); [congruence|]. now rewrite IH.
Qed.

(** ** Reading the blocks of a chunk *)

Lemma length_split_items (w n : nat) (bs : list byte) :
  length (split_items w n bs) = n.
Proof. revert bs. induction n as [|n IH]; intros bs; simpl; [reflexivity|now rewrite IH]. Qed.

(** A read that the file can serve in full. *)
Lemma np_fromfile_full (f : handle) (dt : DType F) (count : nat) (tr : trace F) :
  0 < itemsize dt -> (0 <= h_pos f)%Z ->
  Z.to_nat (h_pos f) + count * itemsize dt <= length (h_data f) ->
  np_fromfile f dt count tr
  = (Ok ({| h_name := h_name f; h_data := h_data f;
            h_pos := (h_pos f + Z.of_nat (count * itemsize dt))%Z |},
         map (decode dt)
             (split_items (itemsize dt) count (drop (Z.to_nat (h_pos f)) (h_data f)))),
     tr ++ [EvFromfile (h_name f) (h_pos f) (count * itemsize dt)]).
Proof.
  intros Hw Hpos Hlen. unfold np_fromfile, emit.
  assert (E : count `min` (length (drop (Z.to_nat (h_pos f)) (h_data f))
                          `div` itemsize dt) = count).
  { apply Nat.min_l. apply Nat.div_le_lower_bound; [lia|].
    rewrite length_drop. lia. }
  now rewrite E.
Qed.

Lemma alter_insert_field (data : chunk_data) (gid : Z)
    (d : gmap FieldKey (ndarray F)) (field : FieldKey) (v : ndarray F) :
  alter (insert field v) gid (<[gid := d]> data) = <[gid := <[field := v]> d]> data.
Proof.
  apply map_eq. intros k. destruct (decide (k = gid)) as [->|Hne].
  - now rewrite lookup_alter_eq, !lookup_insert_eq.
  - now rewrite lookup_alter_ne, !lookup_insert_ne by done.
Qed.

Section ChunkData.
Variables (fs : filesystem) (self : IOHandlerBoxlib F) (fields : list FieldKey).

Let dtype := _dtype (index (ds self)).
Let bpr := itemsize dtype.
Let order := field_order (index (ds self)).

(** An entry of the field order table that was not requested only moves
    the local offset, by the size of one block. *)
Lemma read_field_skipped (grid : Grid F) (count size : nat) (field : FieldKey)
    (f : handle) (data : chunk_data) (lo : Z) (tr : trace F) :
  field ∉ fields ->
  read_field fields dtype grid count size field (f, data, lo) tr
  = (Ok (f, data, (lo + Z.of_nat size)%Z), tr).
Proof.
  intros Hn. unfold read_field. now rewrite decide_False.
Qed.

(** A requested entry seeks by the local offset, relative to the cursor,
    reads one block and leaves a local offset of zero. *)
Lemma read_field_requested (grid : Grid F) (size : nat) (field : FieldKey)
    (f : handle) (data : chunk_data) (lo : Z) (tr : trace F) :
  field ∈ fields -> 0 < bpr -> (0 <= h_pos f + lo)%Z ->
  Z.to_nat (h_pos f + lo) + prod (ActiveDimensions grid) * bpr
    <= length (h_data f) ->
  read_field fields dtype grid (prod (ActiveDimensions grid)) size field
             (f, data, lo) tr
  = (Ok ({| h_name := h_name f; h_data := h_data f;
            h_pos := (h_pos f + lo
                      + Z.of_nat (prod (ActiveDimensions grid) * bpr))%Z |},
         alter (insert field (block_at self grid f lo)) (id grid) data, 0%Z),
     tr ++ [EvSeek (h_name f) SEEK_CUR lo;
            EvFromfile (h_name f) (h_pos f + lo)%Z
                       (prod (ActiveDimensions grid) * bpr)]).
Proof.
  intros Hin Hw Hpos Hlen. unfold read_field. rewrite decide_True by done.
  set (p := (h_pos f + lo)%Z) in *.
  assert (Es : seek f lo SEEK_CUR tr
               = (Ok {| h_name := h_name f; h_data := h_data f; h_pos := p |},
                  tr ++ [EvSeek (h_name f) SEEK_CUR lo])).
  { unfold seek. fold p.
    destruct (p <? 0)%Z eqn:E; [apply Z.ltb_lt in E; lia|reflexivity]. }
  rewrite (bind_ok _ _ _ _ _ Es).
  pose proof (np_fromfile_full
                {| h_name := h_name f; h_data := h_data f; h_pos := p |}
                dtype (prod (ActiveDimensions grid))
                (tr ++ [EvSeek (h_name f) SEEK_CUR lo]) Hw) as Er.
  fold bpr in Er. simpl in Er. specialize (Er Hpos ltac:(lia)).
  rewrite (bind_ok _ _ _ _ _ Er).
  unfold reshape_F.
  rewrite decide_True by (now rewrite length_map, length_split_items).
  unfold bind, ret. unfold block_at. fold p. now rewrite <- app_assoc.
Qed.

Lemma read_fields_ok (grid : Grid F) (todo seen : list FieldKey)
    (f : handle) (data : chunk_data) (d : gmap FieldKey (ndarray F))
    (lo : Z) (tr : trace F) :
  0 < bpr ->
  block_ok fields (prod (ActiveDimensions grid)) seen d ->
  (0 <= h_pos f + lo)%Z ->
  Z.to_nat (h_pos f + lo) + length todo * (prod (ActiveDimensions grid) * bpr)
    <= length (h_data f) ->
  exists f' d' lo' tr',
    for_each todo
      (read_field fields dtype grid (prod (ActiveDimensions grid))
                  (prod (ActiveDimensions grid) * bpr))
      (f, <[id grid := d]> data, lo) tr
    = (Ok (f', <[id grid := d']> data, lo'), tr')
    /\ h_data f' = h_data f /\ h_name f' = h_name f
    /\ block_ok fields (prod (ActiveDimensions grid)) (seen ++ todo) d'.
Proof.
  intros Hw. revert seen f d lo tr.
  induction todo as [|field todo IH]; intros seen f d lo tr Hd Hpos Hlen.
  - exists f, d, lo, tr. rewrite app_nil_r. simpl. done.
  - simpl in Hlen. rewrite for_each_cons.
    destruct (decide (field ∈ fields)) as [Hin|Hnin].
    + pose proof (read_field_requested grid
                    (prod (ActiveDimensions grid) * bpr) field f
                    (<[id grid := d]> data) lo tr Hin Hw Hpos ltac:(lia)) as Es.
      rewrite alter_insert_field in Es.
      rewrite (bind_ok _ _ _ _ _ Es).
      match type of Es with _ = (Ok (?f2, _, _), ?tr2) =>
        destruct (IH (seen ++ [field]) f2 (<[field := block_at self grid f lo]> d)
                    0%Z tr2)
          as (f' & d' & lo' & tr' & E & Hdata & Hname & Hok) end.
      * destruct Hd as [Hd1 Hd2]. split.
        -- intros fld Hf Hs. apply elem_of_app in Hs as [Hs|Hs].
           ++ destruct (decide (fld = field)) as [->|Hne];
                [rewrite lookup_insert_eq; eauto|].
              rewrite lookup_insert_ne by done. auto.
           ++ apply list_elem_of_singleton in Hs as ->.
              rewrite lookup_insert_eq; eauto.
        -- intros fld v0. destruct (decide (fld = field)) as [->|Hne].
           ++ rewrite lookup_insert_eq. intros [= <-]. simpl.
              now rewrite length_map, length_split_items.
           ++ rewrite lookup_insert_ne by done. apply Hd2.
      * simpl. lia.
      * simpl. lia.
      * exists f', d', lo', tr'.
        split; [exact E|split; [exact Hdata|split; [exact Hname|]]].
        now rewrite <- app_assoc in Hok.
    + rewrite (bind_ok _ _ _ _ _
                 (read_field_skipped grid _ _ field f _ lo tr Hnin)).
      destruct (IH (seen ++ [field]) f d
                  (lo + Z.of_nat (prod (ActiveDimensions grid) * bpr))%Z tr)
        as (f' & d' & lo' & tr' & E & Hdata & Hname & Hok).
      * destruct Hd as [Hd1 Hd2]. split; [|exact Hd2].
        intros fld Hf Hs. apply elem_of_app in Hs as [Hs|Hs]; [auto|].
        apply list_elem_of_singleton in Hs as ->. contradiction.
      * lia.
      * lia.
      * exists f', d', lo', tr'.
        split; [exact E|split; [exact Hdata|split; [exact Hname|]]].
        now rewrite <- app_assoc in Hok.
Qed.

Lemma read_grid_ok (grid : Grid F) (f : handle) (data : chunk_data) (tr : trace F) :
  0 < bpr -> fits self (h_data f) grid ->
  exists f' d' tr',
    read_grid self fields grid (f, data) tr = (Ok (f', <[id grid := d']> data), tr')
    /\ h_data f' = h_data f /\ h_name f' = h_name f
    /\ block_ok fields (prod (ActiveDimensions grid)) order d'.
Proof.
  intros Hw [Hoff Hlen]. unfold read_grid, _get_offset, tell.
  fold dtype. fold bpr. fold order.
  destruct (read_fields_ok grid order [] f data ∅
              (_offset grid - h_pos f)%Z tr Hw)
    as (f' & d' & lo' & tr' & E & Hdata & Hname & Hok).
  - split; [intros fld _ Hs; by apply elem_of_nil in Hs|].
    intros fld v. now rewrite lookup_empty.
  - lia.
  - replace (h_pos f + (_offset grid - h_pos f))%Z with (_offset grid) by lia.
    exact Hlen.
  - exists f', d', tr'. split; [|done].
    now rewrite (bind_ok _ _ _ _ _ E).
Qed.

Lemma read_grids_ok (gs : list (Grid F)) (f : handle) (data : chunk_data)
    (tr : trace F) :
  0 < bpr -> NoDup (id <$> gs) -> (forall g, g ∈ gs -> fits self (h_data f) g) ->
  exists f' data' tr',
    for_each gs (read_grid self fields) (f, data) tr = (Ok (f', data'), tr')
    /\ (forall g, g ∈ gs -> grid_read self fields data' g)
    /\ (forall k, k ∉ id <$> gs -> data' !! k = data !! k).
Proof.
  intros Hw. revert f data tr.
  induction gs as [|g gs IH]; intros f data tr Hnd Hfit.
  - exists f, data, tr. split; [reflexivity|]. split; [|done].
    intros g Hg. by apply elem_of_nil in Hg.
  - rewrite fmap_cons in Hnd. apply NoDup_cons in Hnd as [Hg Hnd].
    destruct (read_grid_ok g f data tr Hw) as (f1 & d1 & tr1 & E1 & Hd1 & _ & Hok1);
      [apply Hfit; by left|].
    destruct (IH f1 (<[id g := d1]> data) tr1 Hnd) as (f2 & data2 & tr2 & E2 & Hr & Hk).
    { intros g' Hg'. rewrite Hd1. apply Hfit. by right. }
    exists f2, data2, tr2. split; [|split].
    + rewrite for_each_cons. now rewrite (bind_ok _ _ _ _ _ E1).
    + intros g' Hg'. apply elem_of_cons in Hg' as [->|Hg']; [|auto].
      exists d1. split; [|exact Hok1].
      rewrite (Hk _ Hg). apply lookup_insert_eq.
    + intros k Hk'. rewrite fmap_cons in Hk'.
      apply not_elem_of_cons in Hk' as [Hne Hk'].
      rewrite (Hk _ Hk'). now apply lookup_insert_ne.
Qed.

Lemma insert_by_offset_perm (g : Grid F) (l : list (Grid F)) :
  insert_by_offset g l ≡ₚ g :: l.
Proof.
  induction l as [|h t IH]; simpl; [reflexivity|].
  destruct (_offset g <=? _offset h)%Z; [reflexivity|].
  rewrite IH. apply perm_swap.
Qed.

Lemma sort_by_offset_perm (l : list (Grid F)) : sort_by_offset l ≡ₚ l.
Proof.
  induction l as [|g l IH]; simpl; [reflexivity|].
  rewrite insert_by_offset_perm. now rewrite IH.
Qed.

(** *** Grouping by file *)

Lemma dd_append_perm (fn : string) (g : Grid F) d :
  group_members (dd_append fn g d) ≡ₚ group_members d ++ [g].
Proof.
  unfold group_members. induction d as [|[k gs] d IH]; simpl; [reflexivity|].
  destruct (decide (k = fn)); simpl.
  - rewrite <- !app_assoc. apply Permutation_app_head. apply Permutation_app_comm.
  - rewrite IH. now rewrite app_assoc.
Qed.

Lemma dd_append_keyed (fn : string) (g : Grid F) d :
  filename g = Some fn -> keyed d -> keyed (dd_append fn g d).
Proof.
  intros Hfn. induction d as [|[k gs] d IH]; intros Hk fn' gs' Hin; simpl in Hin.
  - apply list_elem_of_singleton in Hin as [= -> ->]. split; [done|].
    intros g' Hg'. apply list_elem_of_singleton in Hg' as ->. exact Hfn.
  - destruct (decide (k = fn)) as [->|Hne].
    + apply elem_of_cons in Hin as [[= -> ->]|Hin].
      * split; [by destruct gs|]. intros g' Hg'.
        apply elem_of_app in Hg' as [Hg'|Hg'].
        -- apply (Hk fn gs); [by left|exact Hg'].
        -- apply list_elem_of_singleton in Hg' as ->. exact Hfn.
      * apply Hk. by right.
    + apply elem_of_cons in Hin as [[= -> ->]|Hin].
      * apply Hk. by left.
      * apply IH; [|exact Hin]. intros fn0 gs0 H0. apply Hk. by right.
Qed.

Lemma group_by_file_spec (gs : list (Grid F)) :
  (forall g, g ∈ gs -> is_Some (filename g)) ->
  group_members (group_by_file gs) ≡ₚ gs /\ keyed (group_by_file gs).
Proof.
  intros Hall. unfold group_by_file.
  assert (G : forall d, keyed d ->
            let d' := fold_left (fun d g => match filename g with
                                            | None => d
                                            | Some fn => dd_append fn g d
                                            end) gs d in
            group_members d' ≡ₚ group_members d ++ gs /\ keyed d').
  { induction gs as [|g gs IH]; intros d Hd; simpl.
    - now rewrite app_nil_r.
    - destruct (Hall g) as [fn Hfn]; [by left|]. rewrite Hfn.
      destruct (IH (fun g' Hg' => Hall g' (list_elem_of_further _ _ _ Hg'))
                  (dd_append fn g d) (dd_append_keyed fn g d Hfn Hd)) as [P K].
      split; [|exact K]. rewrite P, dd_append_perm. now rewrite <- app_assoc. }
  destruct (G [] (fun fn gs0 Hin => False_ind _ (proj1 (elem_of_nil _) Hin)))
    as [P K].
  split; [exact P|exact K].
Qed.

(** *** All files of a chunk *)

Lemma read_files_ok (groups : list (string * list (Grid F)))
    (data : chunk_data) (tr : trace F) :
  0 < bpr -> NoDup (id <$> group_members groups) -> keyed groups ->
  (forall g, g ∈ group_members groups -> stored fs self g) ->
  exists data' tr',
    for_each groups
      (fun '(filename, grids) data =>
         let grids := sort_by_offset grids in
         let* f := open_file fs filename in
         let* (_, data) := for_each grids (read_grid self fields) (f, data) in
         ret data)
      data tr
    = (Ok data', tr')
    /\ (forall g, g ∈ group_members groups -> grid_read self fields data' g)
    /\ (forall k, k ∉ id <$> group_members groups -> data' !! k = data !! k).
Proof.
  intros Hw. revert data tr.
  induction groups as [|[fn gs] groups IH]; intros data tr Hnd Hkey Hst.
  - exists data, tr. split; [reflexivity|]. split; [|done].
    intros g Hg. by apply elem_of_nil in Hg.
  - unfold group_members in *. simpl in Hnd, Hst.
    rewrite fmap_app in Hnd. apply NoDup_app in Hnd as (Hnd1 & Hdisj & Hnd2).
    destruct (Hkey fn gs) as [Hne Hfn]; [by left|].
    assert (exists bs, fs !! fn = Some bs /\ forall g, g ∈ gs -> fits self bs g)
      as (bs & Hbs & Hfit).
    { destruct gs as [|g0 gs0]; [done|].
      destruct (Hst g0) as (fn0 & bs & Hf0 & Hbs & _);
        [apply elem_of_app; left; by left|].
      rewrite (Hfn g0) in Hf0 by (by left). injection Hf0 as <-.
      exists bs. split; [exact Hbs|]. intros g Hg.
      destruct (Hst g) as (fn1 & bs1 & Hf1 & Hbs1 & Hfit1);
        [apply elem_of_app; by left|].
      rewrite (Hfn g Hg) in Hf1. injection Hf1 as <-. congruence. }
    destruct (read_grids_ok (sort_by_offset gs)
                {| h_name := fn; h_data := bs; h_pos := 0 |} data
                (tr ++ [EvOpen fn]) Hw)
      as (f1 & data1 & tr1 & E1 & Hr1 & Hk1).
    { now rewrite sort_by_offset_perm. }
    { intros g Hg. rewrite sort_by_offset_perm in Hg. simpl. auto. }
    destruct (IH data1 tr1 Hnd2) as (data2 & tr2 & E2 & Hr2 & Hk2).
    { intros fn' gs' Hin. apply Hkey. by right. }
    { intros g Hg. apply Hst. apply elem_of_app. by right. }
    exists data2, tr2. split; [|split].
    + rewrite for_each_cons.
      assert (Eo : open_file (F:=F) fs fn tr
                   = (Ok {| h_name := fn; h_data := bs; h_pos := 0 |},
                      tr ++ [EvOpen fn])).
      { unfold open_file. now rewrite Hbs. }
      erewrite bind_ok; [exact E2|].
      rewrite (bind_ok _ _ _ _ _ Eo). now rewrite (bind_ok _ _ _ _ _ E1).
    + intros g Hg. simpl in Hg. apply elem_of_app in Hg as [Hg|Hg]; [|auto].
      destruct (Hr1 g) as (d & Hd & Hok); [now rewrite sort_by_offset_perm|].
      exists d. split; [|exact Hok]. rewrite Hk2; [exact Hd|].
      intros Hin. apply (Hdisj (id g)); [|exact Hin].
      apply list_elem_of_fmap. now exists g.
    + intros k Hk. simpl in Hk. rewrite fmap_app in Hk.
      apply not_elem_of_app in Hk as [Hka Hkb].
      rewrite (Hk2 _ Hkb). apply Hk1. now rewrite sort_by_offset_perm.
Qed.

(** Every grid of the chunk is read when all of them are stored. *)
Lemma read_chunk_data_ok (chunk : Chunk F) (tr : trace F) :
  0 < bpr -> NoDup (id <$> objs chunk) ->
  (forall g, g ∈ objs chunk -> stored fs self g) ->
  exists data tr',
    _read_chunk_data fs self chunk fields tr = (Ok data, tr')
    /\ forall g, g ∈ objs chunk -> grid_read self fields data g.
Proof.
  intros Hw Hnd Hst. unfold _read_chunk_data.
  destruct (Nat.eqb (length (objs chunk)) 0) eqn:E0.
  - apply Nat.eqb_eq in E0. destruct (objs chunk); [|discriminate].
    exists ∅, tr. split; [reflexivity|]. intros g Hg. by apply elem_of_nil in Hg.
  - destruct (group_by_file_spec (objs chunk)) as [P K].
    { intros g Hg. destruct (Hst g Hg) as (fn & bs & -> & _). eauto. }
    destruct (read_files_ok (group_by_file (objs chunk)) ∅ tr Hw)
      as (data & tr' & E & Hr & _).
    + now rewrite P.
    + exact K.
    + intros g Hg. rewrite P in Hg. auto.
    + exists data, tr'. split; [exact E|].
      intros g Hg. apply Hr. now rewrite P.
Qed.

End ChunkData.

(** C2: a grid with active dimensions (4,4,4) at the start of a file that
    holds a density block followed by a temperature block, field order
    density then temperature, only temperature requested.  The reader opens
    the file, seeks [64 * item_width] bytes forward from the cursor, reads
    the next [64 * item_width] bytes and returns the 64 temperature items in
    the grid's shape.  In general an entry of the field order table that is
    not requested adds [count * item_width] to the local offset without
    touching the file, and a requested entry seeks by the local offset,
    reads [count] items and resets the local offset to zero. *)
Theorem read_chunk_data_skips_unrequested_fields
    (fs : filesystem) (self : IOHandlerBoxlib F) :
  (forall (grid : Grid F) (fn : string) (density temperature : list byte)
          (tr : trace F),
     let w := itemsize (_dtype (index (ds self))) in
     field_order (index (ds self))
       = [("boxlib", "density"); ("boxlib", "temperature")] ->
     ActiveDimensions grid = [4; 4; 4] ->
     filename grid = Some fn -> _offset grid = 0%Z ->
     fs !! fn = Some (density ++ temperature) ->
     0 < w -> length density = 64 * w -> length temperature = 64 * w ->
     _read_chunk_data fs self {| objs := [grid] |} [("boxlib", "temperature")] tr
     = (Ok {[ id grid :=
                {[ ("boxlib", "temperature") :=
                     {| shape := [4; 4; 4];
                        flat := map (decode (_dtype (index (ds self))))
                                    (split_items w 64 temperature) |} ]} ]},
        tr ++ [EvOpen fn;
               EvSeek fn SEEK_CUR (Z.of_nat (64 * w));
               EvFromfile fn (Z.of_nat (64 * w)) (64 * w)]))
  /\ (forall (fields : list FieldKey) (grid : Grid F) (count : nat)
             (field : FieldKey) (f : handle)
             (data : gmap Z (gmap FieldKey (ndarray F))) (lo : Z) (tr : trace F),
        let dtype := _dtype (index (ds self)) in
        field ∉ fields ->
        read_field fields dtype grid count (count * itemsize dtype) field
                   (f, data, lo) tr
        = (Ok (f, data, (lo + Z.of_nat (count * itemsize dtype))%Z), tr))
  /\ (forall (fields : list FieldKey) (grid : Grid F) (size : nat)
             (field : FieldKey) (f : handle)
             (data : gmap Z (gmap FieldKey (ndarray F))) (lo : Z) (tr : trace F),
        let dtype := _dtype (index (ds self)) in
        let count := prod (ActiveDimensions grid) in
        field ∈ fields -> 0 < itemsize dtype -> (0 <= h_pos f + lo)%Z ->
        Z.to_nat (h_pos f + lo) + count * itemsize dtype <= length (h_data f) ->
        exists f' data',
          read_field fields dtype grid count size field (f, data, lo) tr
          = (Ok (f', data', 0%Z),
             tr ++ [EvSeek (h_name f) SEEK_CUR lo;
                    EvFromfile (h_name f) (h_pos f + lo)%Z
                               (count * itemsize dtype)])).
Proof.
  split; [|split].
  - intros grid fn density temperature tr w Hord Hdims Hfn Hoff Hfs Hw Hd Ht.
    unfold _read_chunk_data. cbn [objs length Nat.eqb]. unfold group_by_file.
    cbn [fold_left]. rewrite Hfn.
    cbn [dd_append sort_by_offset foldr insert_by_offset].
    assert (Eo : open_file (F:=F) fs fn tr
                 = (Ok {| h_name := fn; h_data := density ++ temperature;
                          h_pos := 0 |}, tr ++ [EvOpen fn])).
    { unfold open_file. now rewrite Hfs. }
    rewrite for_each_cons, ?bind_assoc, (bind_ok _ _ _ _ _ Eo).
    cbn [sort_by_offset foldr insert_by_offset].
    rewrite ?bind_assoc, for_each_cons, ?bind_assoc.
    unfold read_grid at 1, _get_offset, tell.
    rewrite Hord, Hoff, Hdims. fold w. cbn [h_pos].
    rewrite !for_each_cons, ?bind_assoc.
    rewrite (bind_ok _ _ _ _ _
               (read_field_skipped self [("boxlib", "temperature")] grid _ _
                  ("boxlib", "density") _ _ _ _
                  ltac:(intros Hin; apply list_elem_of_singleton in Hin;
                        discriminate Hin))).
    change (prod [4; 4; 4]) with 64.
    pose proof (read_field_requested self [("boxlib", "temperature")] grid
                  (64 * w) ("boxlib", "temperature")
                  {| h_name := fn; h_data := density ++ temperature; h_pos := 0 |}
                  (<[id grid := ∅]> ∅)
                  (0 - 0 + Z.of_nat (64 * w))%Z
                  (tr ++ [EvOpen fn])) as Er.
    rewrite Hdims in Er. fold w in Er. cbn [h_pos h_data h_name] in Er.
    change (prod [4; 4; 4]) with 64 in Er.
    rewrite ?bind_assoc, for_each_cons, ?bind_assoc.
    rewrite (bind_ok _ _ _ _ _
               (Er ltac:(by apply list_elem_of_singleton) Hw ltac:(lia)
                   ltac:(rewrite length_app; lia))).
    cbn [for_each]. unfold bind, ret.
    rewrite alter_insert_field, insert_empty, insert_empty. unfold block_at.
    rewrite Hdims. change (prod [4; 4; 4]) with 64. fold w. cbn [h_pos h_data].
    replace (Z.to_nat (0 + (0 - 0 + Z.of_nat (64 * w)))) with (length density)
      by lia.
    rewrite drop_app_length.
    replace (0 - 0 + Z.of_nat (64 * w))%Z with (Z.of_nat (64 * w)) by lia.
    replace (0 + Z.of_nat (64 * w))%Z with (Z.of_nat (64 * w)) by lia.
    rewrite <- app_assoc. reflexivity.
  - intros fields grid count field f data lo tr dtype Hn.
    now apply (read_field_skipped self).
  - intros fields grid size field f data lo tr dtype count Hin Hw Hpos Hlen.
    eexists _, _. now apply (read_field_requested self).
Qed.

(** ** Filling the output arrays *)

Lemma length_masked {A : Type} (p : nat -> bool) (l : list A) (s : nat) :
  length (masked (map p (seq s (length l))) l)
  = length (List.filter p (seq s (length l))).
Proof.
  revert s. induction l as [|x l IH]; intros s; simpl; [reflexivity|].
  destruct (p s); simpl; now rewrite IH.
Qed.

Lemma Forall_is_Some_map_Some {A : Type} (vals : list A) :
  Forall is_Some (map Some vals).
Proof. induction vals; simpl; constructor; eauto. Qed.

Lemma filled_write_at (size ind : nat) (dest : list (option F)) (vals : list F) :
  filled size ind dest -> ind + length vals <= size ->
  filled size (ind + length vals) (write_at dest ind vals).
Proof.
  intros [Hlen Hpre] Hle. unfold write_at. split.
  - rewrite !length_app, length_take, length_map, length_drop. lia.
  - rewrite take_app_add' by (rewrite length_take; lia).
    rewrite take_app_length' by (now rewrite length_map).
    apply Forall_app. split; [exact Hpre|apply Forall_is_Some_map_Some].
Qed.

Lemma grid_select_ok (g : Grid F) (sel : Selector F) (source : ndarray F)
    (dest : list (option F)) (size ind : nat) (tr : trace F) :
  length (flat source) = prod (ActiveDimensions g) ->
  filled size ind dest -> ind + count_selected sel g <= size ->
  exists dest',
    grid_select g sel source dest ind tr = (Ok (dest', count_selected sel g), tr)
    /\ filled size (ind + count_selected sel g) dest'.
Proof.
  intros Hsrc Hf Hle. unfold grid_select, cell_mask.
  assert (Hc : length (masked (map (cell_selected sel g)
                                   (seq 0 (length (flat source)))) (flat source))
               = count_selected sel g).
  { rewrite length_masked. unfold count_selected. now rewrite Hsrc. }
  rewrite Hc.
  destruct (Nat.eqb (count_selected sel g) 0) eqn:E0.
  - apply Nat.eqb_eq in E0. rewrite E0. exists dest. split; [reflexivity|].
    now rewrite Nat.add_0_r.
  - destruct Hf as [Hlen Hpre].
    rewrite decide_True by lia.
    eexists. split; [reflexivity|]. rewrite <- Hc.
    apply filled_write_at; [done|]. now rewrite Hc.
Qed.

Section Selection.
Variables (fs : filesystem) (self : IOHandlerBoxlib F) (selector : Selector F)
          (fields : list FieldKey) (size : nat).

Let order := field_order (index (ds self)).

Lemma select_fields_ok (g : Grid F) (ind : nat) (todo : list FieldKey)
    (rv : fluid_rv) (nd : option nat) (data : chunk_data)
    (d : gmap FieldKey (ndarray F)) (tr : trace F) :
  NoDup todo ->
  data !! id g = Some d ->
  (forall f, f ∈ todo ->
     exists v, d !! f = Some v /\ length (flat v) = prod (ActiveDimensions g)) ->
  filled_for size todo ind rv ->
  ind + count_selected selector g <= size ->
  exists rv' data',
    for_each todo (select_field g selector ind) (rv, nd, data) tr
    = (Ok (rv', match todo with [] => nd | _ => Some (count_selected selector g) end,
           data'), tr)
    /\ filled_for size todo (ind + count_selected selector g) rv'
    /\ (forall k, k ∉ todo -> rv' !! k = rv !! k)
    /\ is_Some (data' !! id g)
    /\ (forall k, k ≠ id g -> data' !! k = data !! k).
Proof.
  revert rv nd data d.
  induction todo as [|f todo IH]; intros rv nd data d Hnd Hd Hblk Hrv Hle.
  - exists rv, data. split; [reflexivity|]. split; [|split; [done|split; [eauto|done]]].
    intros f Hf. by apply elem_of_nil in Hf.
  - apply NoDup_cons in Hnd as [Hf Hnd].
    destruct (Hblk f) as (v & Hv & Hlen); [by left|].
    destruct (Hrv f) as (dest & Hdest & Hfill); [by left|].
    destruct (grid_select_ok g selector v dest size ind tr Hlen Hfill Hle)
      as (dest' & Es & Hfill').
    destruct (IH (<[f := dest']> rv) (Some (count_selected selector g))
                (<[id g := delete f d]> data) (delete f d) Hnd)
      as (rv' & data' & E & Hfilled & Hother & Hsome & Hkeep).
    + apply lookup_insert_eq.
    + intros f' Hf'. destruct (Hblk f') as (v' & Hv' & Hlen'); [by right|].
      exists v'. split; [|exact Hlen'].
      rewrite lookup_delete_ne; [exact Hv'|]. intros ->. contradiction.
    + intros f' Hf'. destruct (Hrv f') as (dest0 & Hd0 & Hf0); [by right|].
      exists dest0. split; [|exact Hf0].
      rewrite lookup_insert_ne; [exact Hd0|]. intros ->. contradiction.
    + exact Hle.
    + exists rv', data'. split; [|split; [|split; [|split]]].
      * rewrite for_each_cons.
        assert (E1 : select_field g selector ind f (rv, nd, data) tr
                     = (Ok (<[f := dest']> rv, Some (count_selected selector g),
                            <[id g := delete f d]> data), tr)).
        { unfold select_field, pop_field. rewrite Hd, Hv.
          unfold bind at 1, ret at 1. rewrite Hdest.
          now rewrite (bind_ok _ _ _ _ _ Es). }
        rewrite (bind_ok _ _ _ _ _ E1). rewrite E. now destruct todo.
      * intros f' Hf'. apply elem_of_cons in Hf' as [->|Hf']; [|auto].
        exists dest'. split; [|exact Hfill'].
        rewrite (Hother _ Hf). apply lookup_insert_eq.
      * intros k Hk. apply not_elem_of_cons in Hk as [Hne Hk].
        rewrite (Hother _ Hk). now apply lookup_insert_ne.
      * exact Hsome.
      * intros k Hk. rewrite (Hkeep _ Hk). now apply lookup_insert_ne.
Qed.

Lemma select_grid_ok (g : Grid F) (rv : fluid_rv) (ind : nat)
    (nd : option nat) (data : chunk_data) (tr : trace F) :
  fields ≠ [] -> NoDup fields -> (forall f, f ∈ fields -> f ∈ order) ->
  grid_read self fields data g ->
  filled_for size fields ind rv ->
  ind + count_selected selector g <= size ->
  exists rv' data',
    select_grid selector fields g (rv, ind, nd, data) tr
    = (Ok (rv', ind + count_selected selector g,
           Some (count_selected selector g), data'), tr)
    /\ filled_for size fields (ind + count_selected selector g) rv'
    /\ (forall k, k ∉ fields -> rv' !! k = rv !! k)
    /\ (forall k, k ≠ id g -> data' !! k = data !! k).
Proof.
  intros Hne Hnd Hsub (d & Hd & Hhas & Hcells) Hrv Hle.
  destruct (select_fields_ok g ind fields rv nd data d tr Hnd Hd)
    as (rv' & data' & E & Hfilled & Hother & [d' Hd'] & Hkeep);
    [|exact Hrv|exact Hle|].
  { intros f Hf. destruct (Hhas f Hf (Hsub f Hf)) as [v Hv].
    exists v. split; [exact Hv|]. exact (Hcells f v Hv). }
  exists rv', (delete (id g) data'). split; [|split; [exact Hfilled|split; [exact Hother|]]].
  - unfold select_grid. rewrite (bind_ok _ _ _ _ _ E).
    destruct fields as [|f0 fl]; [done|].
    unfold pop_grid. now rewrite Hd'.
  - intros k Hk. rewrite lookup_delete_ne by done. now apply Hkeep.
Qed.

Lemma select_grids_ok (gs : list (Grid F)) (rv : fluid_rv) (ind : nat)
    (nd : option nat) (data : chunk_data) (tr : trace F) :
  fields ≠ [] -> NoDup fields -> (forall f, f ∈ fields -> f ∈ order) ->
  NoDup (id <$> gs) ->
  (forall g, g ∈ gs -> grid_read self fields data g) ->
  filled_for size fields ind rv ->
  ind + sum_list_with (count_selected selector) gs <= size ->
  exists rv' nd' data',
    for_each gs (select_grid selector fields) (rv, ind, nd, data) tr
    = (Ok (rv', ind + sum_list_with (count_selected selector) gs, nd', data'), tr)
    /\ filled_for size fields (ind + sum_list_with (count_selected selector) gs) rv'
    /\ (forall k, k ∉ fields -> rv' !! k = rv !! k).
Proof.
  intros Hne Hnd Hsub. revert rv ind nd data.
  induction gs as [|g gs IH]; intros rv ind nd data Hids Hread Hrv Hle.
  - exists rv, nd, data. simpl. rewrite Nat.add_0_r. done.
  - rewrite fmap_cons in Hids. apply NoDup_cons in Hids as [Hg Hids].
    simpl in Hle.
    destruct (select_grid_ok g rv ind nd data tr Hne Hnd Hsub)
      as (rv1 & data1 & E1 & Hf1 & Ho1 & Hk1);
      [apply Hread; by left|exact Hrv|lia|].
    destruct (IH rv1 (ind + count_selected selector g)
                (Some (count_selected selector g)) data1 Hids)
      as (rv2 & nd2 & data2 & E2 & Hf2 & Ho2).
    + intros g' Hg'. destruct (Hread g') as (d & Hd & Hok); [by right|].
      exists d. split; [|exact Hok]. rewrite Hk1; [exact Hd|].
      intros Heq. apply Hg. apply list_elem_of_fmap. exists g'. done.
    + exact Hf1.
    + lia.
    + exists rv2, nd2, data2. simpl sum_list_with. rewrite Nat.add_assoc.
      split; [|split; [exact Hf2|]].
      * rewrite for_each_cons. now rewrite (bind_ok _ _ _ _ _ E1).
      * intros k Hk. rewrite (Ho2 _ Hk). now apply Ho1.
Qed.

Lemma select_chunks_ok (chunks : list (Chunk F)) (rv : fluid_rv) (ind : nat)
    (nd : option nat) (tr : trace F) :
  fields ≠ [] -> NoDup fields -> (forall f, f ∈ fields -> f ∈ order) ->
  0 < itemsize (_dtype (index (ds self))) ->
  (forall c, c ∈ chunks -> NoDup (id <$> objs c)) ->
  (forall c g, c ∈ chunks -> g ∈ objs c -> stored fs self g) ->
  filled_for size fields ind rv ->
  ind + total_selected selector chunks <= size ->
  exists rv' nd' tr',
    for_each chunks (select_chunk fs self selector fields) (rv, ind, nd) tr
    = (Ok (rv', ind + total_selected selector chunks, nd'), tr')
    /\ filled_for size fields (ind + total_selected selector chunks) rv'
    /\ (forall k, k ∉ fields -> rv' !! k = rv !! k).
Proof.
  intros Hne Hnd Hsub Hw. revert rv ind nd tr.
  induction chunks as [|c chunks IH]; intros rv ind nd tr Hids Hst Hrv Hle.
  - exists rv, nd, tr. unfold total_selected. simpl. rewrite Nat.add_0_r. done.
  - unfold total_selected in Hle |- *. simpl in Hle. simpl sum_list_with.
    fold (total_selected selector chunks) in Hle |- *.
    destruct (read_chunk_data_ok fs self fields c tr Hw)
      as (data & tr1 & Ed & Hread);
      [apply Hids; by left|intros g Hg; apply (Hst c); [by left|exact Hg]|].
    destruct (select_grids_ok (objs c) rv ind nd data tr1 Hne Hnd Hsub)
      as (rv1 & nd1 & data1 & E1 & Hf1 & Ho1);
      [apply Hids; by left|exact Hread|exact Hrv|lia|].
    destruct (IH rv1 (ind + sum_list_with (count_selected selector) (objs c))
                nd1 tr1)
      as (rv2 & nd2 & tr2 & E2 & Hf2 & Ho2).
    + intros c' Hc'. apply Hids. by right.
    + intros c' g Hc'. apply Hst. by right.
    + exact Hf1.
    + lia.
    + exists rv2, nd2, tr2. rewrite Nat.add_assoc.
      split; [|split; [exact Hf2|]].
      * rewrite for_each_cons.
        assert (Ec : select_chunk fs self selector fields c (rv, ind, nd) tr
                     = (Ok (rv1, ind + sum_list_with (count_selected selector) (objs c),
                            nd1), tr1)).
        { unfold select_chunk. rewrite (bind_ok _ _ _ _ _ Ed).
          now rewrite (bind_ok _ _ _ _ _ E1). }
        now rewrite (bind_ok _ _ _ _ _ Ec).
      * intros k Hk. rewrite (Ho2 _ Hk). now apply Ho1.
Qed.

Lemma np_empty_arrays_lookup (k : FieldKey) :
  fold_left (fun (rv : fluid_rv) field => <[field := np_empty size]> rv) fields ∅ !! k
  = if decide (k ∈ fields) then Some (np_empty size) else None.
Proof.
  assert (G : forall (rv : fluid_rv),
             fold_left (fun (rv : fluid_rv) field => <[field := np_empty size]> rv)
                       fields rv !! k
             = if decide (k ∈ fields) then Some (np_empty size) else rv !! k).
  { induction fields as [|f fl IH]; intros rv; simpl.
    - destruct (decide (k ∈ [])) as [Hin|]; [by apply elem_of_nil in Hin|done].
    - rewrite IH. destruct (decide (k ∈ fl)) as [Hin|Hn].
      + rewrite decide_True; [done|by right].
      + destruct (decide (k = f)) as [->|Hne].
        * rewrite decide_True by (by left). apply lookup_insert_eq.
        * rewrite decide_False.
          -- now rewrite lookup_insert_ne.
          -- intros Hin. apply elem_of_cons in Hin as [?|?]; done. }
  rewrite G. now destruct (decide (k ∈ fields)).
Qed.

Lemma all_boxlib_existsb :
  (forall f, f ∈ fields -> f.1 = "boxlib") ->
  existsb (fun '(ftype, fname) => negb (String.eqb ftype "boxlib")) fields = false.
Proof.
  intros Hall. apply not_true_is_false. intros E.
  apply existsb_exists in E as ([ftype fname] & Hin & E).
  apply list_elem_of_In in Hin. specialize (Hall _ Hin). simpl in Hall. subst ftype.
  discriminate E.
Qed.

Lemma all_written (dest : list (option F)) :
  Forall is_Some dest -> exists vals, dest = Some <$> vals.
Proof.
  induction 1 as [|x l [v ->] _ [vals ->]].
  - now exists [].
  - now exists (v :: vals).
Qed.

(** C1 (amended): when the requested fluid fields are distinct and occur in
    the field order table, every grid of every chunk names an existing file
    that holds its blocks, grid ids are distinct within a chunk and [size]
    is the number of selected cells summed over all grids, then
    [_read_fluid_selection] returns a mapping whose keys are exactly the
    requested fields; each array has [size] cells and every one of them has
    been written. *)
Theorem read_fluid_selection_fills_exactly
    (chunks : list (Chunk F)) (tr : trace F) :
  fields ≠ [] -> NoDup fields ->
  (forall f, f ∈ fields -> f.1 = "boxlib") ->
  (forall f, f ∈ fields -> f ∈ field_order (index (ds self))) ->
  0 < itemsize (_dtype (index (ds self))) ->
  (forall c, c ∈ chunks -> NoDup (id <$> objs c)) ->
  (forall c g, c ∈ chunks -> g ∈ objs c -> stored fs self g) ->
  size = total_selected selector chunks ->
  exists rv tr',
    _read_fluid_selection fs self chunks selector fields size tr = (Ok rv, tr')
    /\ (forall k, is_Some (rv !! k) <-> k ∈ fields)
    /\ forall f, f ∈ fields ->
         exists vals, rv !! f = Some (Some <$> vals) /\ length vals = size.
Proof.
  intros Hne Hnd Hbox Hsub Hw Hids Hst Hsize.
  unfold _read_fluid_selection. rewrite (all_boxlib_existsb Hbox).
  set (rv0 := fold_left _ fields ∅).
  destruct (select_chunks_ok chunks rv0 0 None tr Hne Hnd Hsub Hw Hids Hst)
    as (rv & nd & tr' & E & Hfill & Hother).
  - intros f Hf. exists (np_empty size). split.
    + unfold rv0. rewrite np_empty_arrays_lookup. now rewrite decide_True.
    + split; [apply length_replicate|]. rewrite take_0. constructor.
  - lia.
  - exists rv, tr'. split; [now rewrite (bind_ok _ _ _ _ _ E)|]. split.
    + intros k. split.
      * intros Hk. destruct (decide (k ∈ fields)) as [|Hn]; [done|].
        rewrite (Hother _ Hn) in Hk. unfold rv0 in Hk.
        rewrite np_empty_arrays_lookup, decide_False in Hk by done.
        by destruct Hk.
      * intros Hk. destruct (Hfill k Hk) as (dest & -> & _). eauto.
    + intros f Hf. destruct (Hfill f Hf) as (dest & Hd & Hlen & Hall).
      simpl in Hall. rewrite <- Hsize in Hall.
      rewrite take_ge in Hall by lia.
      destruct (all_written dest Hall) as [vals ->].
      exists vals. split; [exact Hd|]. now rewrite length_fmap in Hlen.
Qed.

End Selection.

(** ** Grids without a file path *)

Lemma group_by_file_no_path (gs : list (Grid F)) :
  (forall g, g ∈ gs -> filename g = None) -> group_by_file gs = [].
Proof.
  intros Hall. unfold group_by_file.
  generalize (@nil (string * list (Grid F))).
  induction gs as [|g gs IH]; intros d; simpl; [reflexivity|].
  rewrite (Hall g) by (by left). apply IH.
  intros g' Hg'. apply Hall. by right.
Qed.

(** [_read_chunk_data] passes over such grids: nothing is opened and the
    dictionary it returns has no entry for them. *)
Lemma read_chunk_data_no_path (fs : filesystem) (self : IOHandlerBoxlib F)
    (chunk : Chunk F) (fields : list FieldKey) (tr : trace F) :
  (forall g, g ∈ objs chunk -> filename g = None) ->
  _read_chunk_data fs self chunk fields tr = (Ok ∅, tr).
Proof.
  intros Hall. unfold _read_chunk_data.
  destruct (Nat.eqb (length (objs chunk)) 0); [reflexivity|].
  now rewrite (group_by_file_no_path _ Hall).
Qed.

(** [_read_fluid_selection] has no such guard: on a first chunk made of
    grids without a path the lookup [data[g.id]] raises [KeyError]. *)
Lemma read_fluid_selection_no_path (fs : filesystem) (self : IOHandlerBoxlib F)
    (chunk : Chunk F) (chunks : list (Chunk F)) (selector : Selector F)
    (fields : list FieldKey) (size : nat) (tr : trace F) :
  objs chunk ≠ [] -> fields ≠ [] ->
  (forall g, g ∈ objs chunk -> filename g = None) ->
  (forall f, f ∈ fields -> f.1 = "boxlib") ->
  _read_fluid_selection fs self (chunk :: chunks) selector fields size tr
  = (Raise KeyError, tr).
Proof.
  intros Hobjs Hfields Hall Hbox. unfold _read_fluid_selection.
  rewrite (all_boxlib_existsb fields Hbox).
  rewrite for_each_cons, ?bind_assoc. unfold select_chunk at 1.
  rewrite ?bind_assoc.
  rewrite (bind_ok _ _ _ _ _ (read_chunk_data_no_path fs self chunk fields tr Hall)).
  destruct (objs chunk) as [|g gs]; [done|].
  destruct fields as [|f fl]; [done|].
  rewrite for_each_cons, ?bind_assoc. unfold select_grid at 1.
  rewrite ?bind_assoc, for_each_cons, ?bind_assoc.
  unfold select_field at 1, pop_field. rewrite lookup_empty. reflexivity.
Qed.

(** Whatever the inputs, no call of the point predicate made by
    [_read_particles] in a two-dimensional dataset sees another z column. *)
Lemma read_particles_z_column `{!Float64Laws F}
    (fs : filesystem) (self : IOHandlerBoxlib F) (grid : Grid F)
    (selector : Selector F) (ftype name : string) :
  dimensionality (grid_ds grid) = 2 ->
  Forall (fun c : list F * list F * list F * F =>
            c.1.2 = replicate (length c.1.1.2)
                      (fmul f_half (fadd (LeftEdge grid).2 (RightEdge grid).2))
            /\ c.2 = f_zero)
         (select_points_calls
            (_read_particles fs self grid selector ftype name []).2).
Proof.
  intros Hdim.
  unfold _read_particles, open_file, call_select_points, seek,
    np_fromfile, strided, array_index, bind, emit, ret, raise.
  destruct (decide (dimensionality (grid_ds grid) = 2)) as [_|Hn]; [|contradiction].
  repeat case_match; simplify_eq; simpl;
    repeat constructor; simpl; auto using imul_ones_like.
Qed.

(** ** Unknown particle field names *)

(** With particles on the grid and a name that the header lists neither as
    an integer field nor as a real field, [_read_particles] runs off its
    end: it returns [None], raises nothing and touches no file. *)
Lemma read_particles_unknown_name
    (fs : filesystem) (self : IOHandlerBoxlib F) (grid : Grid F)
    (selector : Selector F) (ftype name : string) (tr : trace F)
    (pdata : ParticleSet) (pheader : ParticleHeader F) :
  _pdata grid !! ftype = Some pdata ->
  0 < NumberOfParticles pdata ->
  particle_headers (index (ds self)) !! ftype = Some pheader ->
  name ∉ map snd (known_int_fields pheader) ->
  name ∉ map snd (known_real_fields pheader) ->
  _read_particles fs self grid selector ftype name tr = (Ok None, tr).
Proof.
  intros Hpd Hn Hph Hi Hr. unfold _read_particles. rewrite Hpd, Hph.
  destruct (Nat.eqb (NumberOfParticles pdata) 0) eqn:E;
    [apply Nat.eqb_eq in E; lia|].
  apply index_of_None in Hi, Hr. now rewrite Hi, Hr.
Qed.

(** ** The Orion reader and its selector *)

Section OrionProperties.
Variable sinks_index : list string -> gmap string nat.
Variable np_float : string -> option F.

(** C9: with a [GridSelector], chunks that are not one chunk of one grid make
    the Orion [_read_particle_selection] raise, with the state untouched:
    [RuntimeError] from the guard, or [IndexError] from the guard's own
    [chunks[0]] when there is no chunk at all; the general loop is never
    entered.  With one chunk of one grid the result is one
    [_read_particles] call per requested field on that grid, each stored
    under its key (no concatenation, no chunk iteration). *)
Theorem orion_grid_selector_fast_path
    (fs : filesystem) (self : IOHandlerOrion F) (chunks : list (Chunk F))
    (selector : Selector F) (fields : list FieldKey) (s : OrionState F) :
  class_name selector = "GridSelector" ->
  (~ single_grid chunks ->
     Orion_read_particle_selection sinks_index np_float fs self chunks selector fields s
     = (Raise (match chunks with [] => IndexError | _ => RuntimeError end), s))
  /\ (forall c g, chunks = [c] -> objs c = [g] ->
        Orion_read_particle_selection sinks_index np_float fs self chunks selector fields s
        = for_each fields
            (fun '(ftype, fname) rv =>
               let* data := Orion_read_particles sinks_index np_float fs self g fname in
               ret (<[(ftype, fname) := data]> rv))
            ∅ s).
Proof.
  intros Hcls. unfold Orion_read_particle_selection.
  destruct (decide (class_name selector = "GridSelector")) as [_|Hn]; [|done].
  split.
  - intros Hns. destruct chunks as [|c cs]; [reflexivity|].
    destruct (Nat.eqb (length (c :: cs)) (length (objs c))
              && Nat.eqb (length (objs c)) 1) eqn:E; [|reflexivity].
    exfalso. apply Hns. apply andb_true_iff in E as [E1 E2].
    apply Nat.eqb_eq in E1, E2. rewrite E2 in E1. simpl in E1.
    destruct cs; [|discriminate].
    destruct (objs c) as [|g [|g' gs]] eqn:Eo; try discriminate.
    now exists c, g.
  - intros c g -> Hg. rewrite Hg. reflexivity.
Qed.

(** C10: on the general path of the Orion reader the selector is only
    asked for its class name: two selectors that are not [GridSelector]s
    give the same arrays (and the same reader state and log) on the same
    chunks and fields. *)
Theorem orion_general_path_ignores_selector
    (fs : filesystem) (self : IOHandlerOrion F) (chunks : list (Chunk F))
    (sel1 sel2 : Selector F) (fields : list FieldKey) (s : OrionState F) :
  class_name sel1 ≠ "GridSelector" ->
  class_name sel2 ≠ "GridSelector" ->
  Orion_read_particle_selection sinks_index np_float fs self chunks sel1 fields s
  = Orion_read_particle_selection sinks_index np_float fs self chunks sel2 fields s.
Proof.
  intros H1 H2. unfold Orion_read_particle_selection.
  destruct (decide (class_name sel1 = "GridSelector")); [done|].
  destruct (decide (class_name sel2 = "GridSelector")); [done|].
  reflexivity.
Qed.

(** The [particle_field_index] property does not look at the table that
    an earlier access stored on the instance: whatever
    [_particle_field_index] holds, the file is parsed again. *)
Lemma particle_field_index_parses_again
    (fs : filesystem) (self : IOHandlerOrion F) (s : OrionState F)
    (bs : list byte) :
  let star := output_dir (orion_ds self) +:+ "/StarParticles" in
  let fn := if decide (is_Some (fs !! star)) then star
            else output_dir (orion_ds self) +:+ "/SinkParticles" in
  fs !! fn = Some bs ->
  particle_field_index sinks_index fs self s
  = (Ok (sinks_index (readlines bs)),
     {| _cached_lines := _cached_lines s;
        _particle_filename := Some fn;
        _particle_field_index := Some (sinks_index (readlines bs));
        io_log := io_log s ++ [EvParseSinks fn] |}).
Proof.
  intros star fn Hfs.
  unfold particle_field_index, particle_filename_prop, parse_orion_sinks,
    lift_io, bind, get, put, ret, emit.
  fold star. fold fn. simpl. rewrite Hfs. reflexivity.
Qed.

End OrionProperties.

(** ** Loops *)

Lemma bind_ret_r {S A : Type} (m : M S A) s : bind m ret s = m s.
Proof. unfold bind, ret. destruct (m s) as [[a|e] s']; reflexivity. Qed.

Lemma bind_raise {S A B : Type} (m : M S A) (k : A -> M S B) s e s' :
  m s = (Raise e, s') -> bind m k s = (Raise e, s').
Proof. intros E. unfold bind. now rewrite E. Qed.

Lemma for_each_singleton {S A B : Type} (a : A) (body : A -> B -> M S B) b s :
  for_each [a] body b s = body a b s.
Proof. rewrite for_each_cons. apply bind_ret_r. Qed.

(** A loop one of whose turns raises from every state does not return. *)
Lemma for_each_raises {S A B : Type} (l : list A) (body : A -> B -> M S B) (a : A) :
  a ∈ l ->
  (forall b s, exists e s', body a b s = (Raise e, s')) ->
  forall b s, exists e s', for_each l body b s = (Raise e, s').
Proof.
  intros Hin Hraise. induction l as [|a0 l IH]; intros b s;
    [by apply elem_of_nil in Hin|].
  rewrite for_each_cons. unfold bind.
  destruct (body a0 b s) as [[b'|e] s'] eqn:E; [|eauto].
  apply elem_of_cons in Hin as [->|Hin]; [|auto].
  destruct (Hraise b s) as (e & s1 & E1). congruence.
Qed.

(** A relation between states that every turn respects is respected by
    the loop. *)
Lemma for_each_preserves {S A B : Type} (R : S -> S -> Prop) (l : list A)
    (body : A -> B -> M S B) :
  (forall s, R s s) ->
  (forall s1 s2 s3, R s1 s2 -> R s2 s3 -> R s1 s3) ->
  (forall a b s, a ∈ l -> R s (body a b s).2) ->
  forall b s, R s (for_each l body b s).2.
Proof.
  intros Hrefl Htrans Hbody. induction l as [|a l IH]; intros b s; simpl;
    [apply Hrefl|].
  pose proof (Hbody a b s (list_elem_of_here _ _)) as H1. unfold bind.
  destruct (body a b s) as [[b'|e] s'] eqn:E; simpl in H1; [|exact H1].
  apply (Htrans _ s'); [exact H1|]. apply IH.
  intros a' b0 s0 Ha'. apply Hbody. by right.
Qed.

(** The exceptions of a loop are exceptions of its turns. *)
Lemma for_each_exceptions {S A B : Type} (E : exn -> Prop) (l : list A)
    (body : A -> B -> M S B) :
  (forall a b s e s', body a b s = (Raise e, s') -> E e) ->
  forall b s e s', for_each l body b s = (Raise e, s') -> E e.
Proof.
  intros Hbody. induction l as [|a l IH]; intros b s e s'; simpl.
  - unfold ret. discriminate.
  - unfold bind. destruct (body a b s) as [[b'|e0] s0] eqn:E0.
    + apply IH.
    + intros [= <- <-]. eapply Hbody. exact E0.
Qed.

(** ** The text-particle reader and its cache *)

Section OrionCache.
Variable sinks_index : list string -> gmap string nat.
Variable np_float : string -> option F.
Variables (fs : filesystem) (self : IOHandlerOrion F).

Lemma only_parses_refl (s : OrionState F) : only_parses s s.
Proof. split; [reflexivity|]. exists []. now rewrite app_nil_r. Qed.

Lemma only_parses_trans (s1 s2 s3 : OrionState F) :
  only_parses s1 s2 -> only_parses s2 s3 -> only_parses s1 s3.
Proof.
  intros [C1 (e1 & L1 & F1)] [C2 (e2 & L2 & F2)]. split; [congruence|].
  exists (e1 ++ e2). split; [now rewrite L2, L1, app_assoc|].
  now apply Forall_app.
Qed.

Lemma particle_field_index_only_parses (s : OrionState F) :
  only_parses s (particle_field_index sinks_index fs self s).2
  /\ forall e s', particle_field_index sinks_index fs self s = (Raise e, s') ->
       e = IOError.
Proof.
  unfold particle_field_index, particle_filename_prop, parse_orion_sinks,
    lift_io, bind, get, put, ret, emit, raise. simpl.
  match goal with |- context [fs !! ?fn] => destruct (fs !! fn) end; simpl.
  - split; [|discriminate]. split; [reflexivity|].
    eexists. split; [reflexivity|]. repeat constructor. eexists. reflexivity.
  - split; [|now intros e s' [= <- _]]. split; [reflexivity|].
    exists []. simpl. split; [now rewrite app_nil_r|constructor].
Qed.

Lemma read_entry_only_parses (line field : string) (s : OrionState F) :
  only_parses s (read_entry sinks_index np_float fs self line field s).2
  /\ forall e s', read_entry sinks_index np_float fs self line field s
                  = (Raise e, s') -> e ≠ AttributeError.
Proof.
  destruct (particle_field_index_only_parses s) as [Hp He].
  unfold read_entry, bind.
  destruct (particle_field_index sinks_index fs self s) as [[idx|e] s1] eqn:E;
    simpl in Hp.
  - destruct (idx !! field) as [col|]; [|split; [exact Hp|now intros ? ? [= <- _]]].
    destruct (split_spaces [] (strip line) !! col) as [entry|];
      [|split; [exact Hp|now intros ? ? [= <- _]]].
    destruct (np_float entry); split; try exact Hp; try discriminate.
    now intros ? ? [= <- _].
  - split; [exact Hp|]. intros e' s' [= <- _].
    rewrite (He e s1 eq_refl). discriminate.
Qed.

Lemma read_lines_only_parses (lines : list string) (grid : Grid F)
    (field : string) (particles : list F) (s : OrionState F) :
  only_parses s (read_lines sinks_index np_float fs self lines grid field particles s).2
  /\ forall e s', read_lines sinks_index np_float fs self lines grid field particles s
                  = (Raise e, s') -> e ≠ AttributeError.
Proof.
  unfold read_lines. split.
  - apply (for_each_preserves only_parses);
      [apply only_parses_refl|apply only_parses_trans|].
    intros num ps s0 _. destruct (lines !! num) as [line|];
      [|apply only_parses_refl].
    destruct (read_entry_only_parses line field s0) as [Hp _].
    unfold bind.
    destruct (read_entry sinks_index np_float fs self line field s0)
      as [[v|e] s1]; exact Hp.
  - apply (for_each_exceptions (fun e => e ≠ AttributeError)).
    intros num ps s0 e s'. destruct (lines !! num) as [line|];
      [|now intros [= <- _]].
    destruct (read_entry_only_parses line field s0) as [_ He].
    unfold bind.
    destruct (read_entry sinks_index np_float fs self line field s0)
      as [[v|e0] s1] eqn:E0; [discriminate|].
    intros [= <- <-]. now apply (He e0 s1).
Qed.

(** Once the lines are cached, a read neither opens nor reads the text
    file again; only [parse_orion_sinks] still goes to the file. *)
Lemma orion_read_particles_cached (grid : Grid F) (field : string)
    (s : OrionState F) (lines : list string) :
  _cached_lines s = Some lines ->
  only_parses s (Orion_read_particles sinks_index np_float fs self grid field s).2.
Proof.
  intros Hc. unfold Orion_read_particles.
  destruct (Nat.eqb (grid_NumberOfParticles grid) 0); [apply only_parses_refl|].
  unfold try_except_AttributeError, bind at 1, get at 1. rewrite Hc.
  destruct (read_lines_only_parses lines grid field [] s) as [Hp He].
  destruct (read_lines sinks_index np_float fs self lines grid field [] s)
    as [[ps|e] s1] eqn:E; simpl in Hp; [exact Hp|].
  destruct e; try exact Hp. exfalso. now apply (He AttributeError s1).
Qed.

(** X1: once the lines of the text file are cached on the reader, a whole
    [_read_particle_selection] (fast path or general path, any chunks and
    fields, whether it returns or raises) keeps the cached lines and adds
    nothing to the log but calls of [parse_orion_sinks]: the file is
    neither opened nor read by [readlines] again. *)
Theorem orion_selection_reuses_cached_lines
    (chunks : list (Chunk F)) (selector : Selector F) (fields : list FieldKey)
    (s : OrionState F) (lines : list string) :
  _cached_lines s = Some lines ->
  only_parses s
    (Orion_read_particle_selection sinks_index np_float fs self chunks
       selector fields s).2.
Proof.
  set (R := fun s s' : OrionState F =>
              _cached_lines s = Some lines -> only_parses s s').
  assert (Rrefl : forall s, R s s) by (intros s0 _; apply only_parses_refl).
  assert (Rtrans : forall s1 s2 s3, R s1 s2 -> R s2 s3 -> R s1 s3).
  { intros s1 s2 s3 H12 H23 Hc. pose proof (H12 Hc) as P12.
    apply (only_parses_trans _ s2); [exact P12|]. apply H23.
    destruct P12 as [-> _]. exact Hc. }
  assert (Rread : forall grid fname (k : list F -> M (OrionState F) particle_rv) s0,
             (forall data s1, (k data s1).2 = s1) ->
             R s0 (bind (Orion_read_particles sinks_index np_float fs self grid fname)
                        k s0).2).
  { intros grid fname k s0 Hk Hc.
    pose proof (orion_read_particles_cached grid fname s0 lines Hc) as Hp.
    unfold bind.
    destruct (Orion_read_particles sinks_index np_float fs self grid fname s0)
      as [[data|e] s1]; simpl in Hp; [|exact Hp]. now rewrite Hk. }
  intros Hc. revert Hc. fold (R s (Orion_read_particle_selection sinks_index
                                     np_float fs self chunks selector fields s).2).
  unfold Orion_read_particle_selection.
  destruct (decide (class_name selector = "GridSelector")).
  - destruct chunks as [|chunk0 cs]; [apply Rrefl|].
    destruct (negb _); [apply Rrefl|].
    destruct (objs chunk0) as [|grid gs]; [apply Rrefl|].
    apply (for_each_preserves R); [exact Rrefl|exact Rtrans|].
    intros [ftype fname] rv s0 _. apply Rread. reflexivity.
  - apply (for_each_preserves R); [exact Rrefl|exact Rtrans|].
    intros chunk rv s0 _.
    apply (for_each_preserves R); [exact Rrefl|exact Rtrans|].
    intros grid rv1 s1 _.
    apply (for_each_preserves R); [exact Rrefl|exact Rtrans|].
    intros [ftype fname] rv2 s2 _. apply Rread.
    intros data s3. unfold prepend. case_match; reflexivity.
Qed.

Lemma orion_first_read_unfolds (grid : Grid F) (field : string)
    (s : OrionState F) (bs : list byte) :
  _cached_lines s = None ->
  grid_NumberOfParticles grid ≠ 0 ->
  fs !! orion_particle_file fs self = Some bs ->
  Orion_read_particles sinks_index np_float fs self grid field s
  = read_lines sinks_index np_float fs self (readlines bs) grid field []
      {| _cached_lines := Some (readlines bs);
         _particle_filename := Some (orion_particle_file fs self);
         _particle_field_index := _particle_field_index s;
         io_log := io_log s ++ [EvOpen (orion_particle_file fs self);
                                EvReadlines (orion_particle_file fs self)] |}.
Proof.
  intros Hc Hn Hbs. unfold Orion_read_particles.
  destruct (Nat.eqb (grid_NumberOfParticles grid) 0) eqn:E;
    [apply Nat.eqb_eq in E; contradiction|].
  unfold try_except_AttributeError, particle_filename_prop, open_file, lift_io,
    bind, get, put, ret, raise, emit.
  fold (orion_particle_file fs self). simpl. rewrite Hc. simpl.
  rewrite Hbs. simpl. now rewrite <- app_assoc.
Qed.

(** X2: the first read on a reader without cached lines, for a grid that
    has particles.  If the particle file exists and is ASCII text, it is
    opened once, all its lines are read and cached before any entry is
    parsed, so the cache is set whether the entries then parse or not; if
    it does not exist the read raises [IOError], the log is unchanged and
    the cache stays unset. *)
Theorem orion_first_read_caches_lines
    (grid : Grid F) (field : string) (s : OrionState F) :
  _cached_lines s = None ->
  grid_NumberOfParticles grid ≠ 0 ->
  let fn := orion_particle_file fs self in
  let run := Orion_read_particles sinks_index np_float fs self grid field s in
  (forall bs, fs !! fn = Some bs -> ascii_text bs = true ->
     _cached_lines run.2 = Some (readlines bs)
     /\ exists evs, io_log run.2 = io_log s ++ [EvOpen fn; EvReadlines fn] ++ evs
                    /\ Forall is_parse_event evs)
  /\ (fs !! fn = None ->
      run.1 = Raise IOError /\ _cached_lines run.2 = None
      /\ io_log run.2 = io_log s).
Proof.
  intros Hc Hn fn run. split.
  - intros bs Hbs _. unfold run.
    rewrite (orion_first_read_unfolds grid field s bs Hc Hn Hbs).
    match goal with |- context [read_lines _ _ _ _ ?l _ _ _ ?s0] =>
      destruct (read_lines_only_parses l grid field [] s0)
        as [[Hcl (evs & Hl & Hf)] _]
    end.
    simpl in Hcl, Hl. split; [exact Hcl|].
    exists evs. split; [|exact Hf]. rewrite Hl. now rewrite <- app_assoc.
  - intros Hnone. unfold run, Orion_read_particles.
    destruct (Nat.eqb (grid_NumberOfParticles grid) 0) eqn:E;
      [apply Nat.eqb_eq in E; contradiction|].
    unfold try_except_AttributeError, particle_filename_prop, open_file, lift_io,
      bind, get, put, ret, raise, emit.
    fold (orion_particle_file fs self). fold fn. simpl. rewrite Hc. simpl.
    rewrite Hnone. simpl. now rewrite Hc.
Qed.

Lemma read_entry_value (line field entry : string) (col : nat) (v : F)
    (bs : list byte) (s : OrionState F) :
  fs !! orion_particle_file fs self = Some bs ->
  sinks_index (readlines bs) !! field = Some col ->
  split_spaces [] (strip line) !! col = Some entry ->
  np_float entry = Some v ->
  read_entry sinks_index np_float fs self line field s
  = (Ok v,
     {| _cached_lines := _cached_lines s;
        _particle_filename := Some (orion_particle_file fs self);
        _particle_field_index := Some (sinks_index (readlines bs));
        io_log := io_log s ++ [EvParseSinks (orion_particle_file fs self)] |}).
Proof.
  intros Hbs Hcol Hentry Hv. unfold read_entry.
  rewrite (bind_ok _ _ _ _ _
             (particle_field_index_parses_again sinks_index fs self s bs Hbs)).
  now rewrite Hcol, Hentry, Hv.
Qed.

Lemma read_lines_values (lines : list string) (field : string) (col : nat)
    (bs : list byte) (nums : list nat) (particles : list F) (s : OrionState F) :
  fs !! orion_particle_file fs self = Some bs ->
  sinks_index (readlines bs) !! field = Some col ->
  (forall num, num ∈ nums -> is_Some (orion_entry np_float lines col num)) ->
  exists vs s',
    for_each nums
      (fun num particles =>
         match lines !! num with
         | None => raise IndexError
         | Some line =>
             let* v := read_entry sinks_index np_float fs self line field in
             ret (particles ++ [v])
         end)
      particles s
    = (Ok (particles ++ vs), s')
    /\ Forall2 (fun num v => orion_entry np_float lines col num = Some v) nums vs
    /\ _cached_lines s' = _cached_lines s
    /\ io_log s' = io_log s
                   ++ replicate (length nums)
                        (EvParseSinks (orion_particle_file fs self)).
Proof.
  intros Hbs Hcol. revert particles s.
  induction nums as [|num nums IH]; intros particles s Hall.
  - exists [], s. simpl. rewrite !app_nil_r. repeat split. constructor.
  - destruct (Hall num) as [v Hv]; [by left|].
    unfold orion_entry in Hv.
    destruct (lines !! num) as [line|] eqn:El; [|discriminate].
    destruct (split_spaces [] (strip line) !! col) as [entry|] eqn:Ee;
      [|discriminate].
    pose proof (read_entry_value line field entry col v bs s Hbs Hcol Ee Hv) as Er.
    match type of Er with _ = (_, ?s1) =>
      destruct (IH (particles ++ [v]) s1) as (vs & s' & E & Hvs & Hc & Hl) end.
    { intros n Hn. apply Hall. by right. }
    exists (v :: vs), s'. split; [|split; [|split]].
    + rewrite for_each_cons. rewrite El.
      rewrite bind_assoc, (bind_ok _ _ _ _ _ Er). unfold bind at 1, ret at 1.
      rewrite E. now rewrite <- app_assoc.
    + constructor; [|exact Hvs]. unfold orion_entry. now rewrite El, Ee.
    + exact Hc.
    + rewrite Hl. simpl. now rewrite <- app_assoc.
Qed.

(** X3: what a read returns.  When the particle file exists and is ASCII
    text, its index table has a column for the field and every line number
    of the grid names a line whose entry in that column is a number, the
    read returns one value per line number, in order.  The lines come from
    the cache, or from the file (opened and read once, a line ending at a
    line feed, a carriage return or the pair of them) when nothing is
    cached yet; the log then gains one call of [parse_orion_sinks] per
    particle. *)
Theorem orion_read_particles_values
    (grid : Grid F) (field : string) (s : OrionState F) (bs : list byte)
    (col : nat) :
  let fn := orion_particle_file fs self in
  let lines := default (readlines bs) (_cached_lines s) in
  let prelude := match _cached_lines s with
                 | Some _ => []
                 | None => [EvOpen fn; EvReadlines fn]
                 end in
  grid_NumberOfParticles grid ≠ 0 ->
  fs !! fn = Some bs ->
  ascii_text bs = true ->
  sinks_index (readlines bs) !! field = Some col ->
  (forall num, num ∈ _particle_line_numbers grid ->
     is_Some (orion_entry np_float lines col num)) ->
  exists vs s',
    Orion_read_particles sinks_index np_float fs self grid field s = (Ok vs, s')
    /\ Forall2 (fun num v => orion_entry np_float lines col num = Some v)
               (_particle_line_numbers grid) vs
    /\ _cached_lines s' = Some lines
    /\ io_log s' = io_log s ++ prelude
                   ++ replicate (length (_particle_line_numbers grid))
                        (EvParseSinks fn).
Proof.
  intros fn lines prelude Hn Hbs _ Hcol Hall.
  destruct (_cached_lines s) as [cached|] eqn:Hc.
  - destruct (read_lines_values cached field col bs (_particle_line_numbers grid)
                [] s Hbs Hcol Hall) as (vs & s' & E & Hvs & Hc' & Hl).
    exists vs, s'. split; [|split; [exact Hvs|split]].
    + unfold Orion_read_particles.
      destruct (Nat.eqb (grid_NumberOfParticles grid) 0) eqn:E0;
        [apply Nat.eqb_eq in E0; contradiction|].
      unfold try_except_AttributeError, bind at 1, get at 1. rewrite Hc.
      unfold read_lines. now rewrite E.
    + now rewrite Hc', Hc.
    + exact Hl.
  - rewrite (orion_first_read_unfolds grid field s bs Hc Hn Hbs).
    match goal with |- context [read_lines _ _ _ _ _ _ _ _ ?s0] =>
      destruct (read_lines_values (readlines bs) field col bs
                  (_particle_line_numbers grid) [] s0 Hbs Hcol Hall)
        as (vs & s' & E & Hvs & Hc' & Hl) end.
    exists vs, s'. split; [exact E|split; [exact Hvs|split]].
    + exact Hc'.
    + rewrite Hl. simpl. now rewrite <- app_assoc.
Qed.

(** *** The fast path and the general path *)

Lemma orion_paths_agree_loop (grid : Grid F) (todo : list FieldKey)
    (rvG rvF : particle_rv) (s : OrionState F) :
  NoDup todo ->
  (forall k, k ∈ todo -> rvG !! k = Some [] /\ rvF !! k = None) ->
  (forall k, k ∉ todo -> rvG !! k = rvF !! k) ->
  for_each todo
    (fun '(ftype, fname) rv =>
       let* data := Orion_read_particles sinks_index np_float fs self grid fname in
       prepend (ftype, fname) (Some data) rv)
    rvG s
  = for_each todo
      (fun '(ftype, fname) rv =>
         let* data := Orion_read_particles sinks_index np_float fs self grid fname in
         ret (<[(ftype, fname) := data]> rv))
      rvF s.
Proof.
  revert rvG rvF s.
  induction todo as [|[ftype fname] todo IH]; intros rvG rvF s Hnd Hin Hout.
  - simpl. f_equal. apply map_eq. intros k. apply Hout. apply not_elem_of_nil.
  - apply NoDup_cons in Hnd as [Hk Hnd].
    rewrite !for_each_cons, !bind_assoc.
    destruct (Orion_read_particles sinks_index np_float fs self grid fname s)
      as [[data|e] s1] eqn:E;
      [rewrite !(bind_ok _ _ _ _ _ E)|now rewrite !(bind_raise _ _ _ _ _ E)].
    unfold prepend. destruct (Hin (ftype, fname)) as [-> HF]; [by left|].
    unfold bind, ret. rewrite app_nil_r.
    apply IH; [exact Hnd| |].
    + intros k Hk'. destruct (Hin k) as [HG HF']; [by right|].
      rewrite !lookup_insert_ne by (intros <-; contradiction). done.
    + intros k Hk'. destruct (decide (k = (ftype, fname))) as [->|Hne].
      * now rewrite !lookup_insert_eq.
      * rewrite !lookup_insert_ne by done. apply Hout.
        intros Hc. apply elem_of_cons in Hc as [?|?]; done.
Qed.

(** X4: on one chunk of one grid and distinct fields, the [GridSelector]
    fast path returns exactly what the general path returns with any other
    selector: the same mapping or the same exception, the same reader
    state and the same log. *)
Theorem orion_fast_path_agrees_with_general_path
    (chunk : Chunk F) (grid : Grid F) (grid_selector other : Selector F)
    (fields : list FieldKey) (s : OrionState F) :
  class_name grid_selector = "GridSelector" ->
  class_name other ≠ "GridSelector" ->
  objs chunk = [grid] ->
  NoDup fields ->
  Orion_read_particle_selection sinks_index np_float fs self [chunk]
    grid_selector fields s
  = Orion_read_particle_selection sinks_index np_float fs self [chunk]
      other fields s.
Proof.
  intros HG Hother Hobjs Hnd. unfold Orion_read_particle_selection.
  rewrite decide_True by exact HG. rewrite decide_False by exact Hother.
  rewrite Hobjs. simpl negb. cbv iota.
  rewrite for_each_singleton, Hobjs, for_each_singleton.
  symmetry. apply orion_paths_agree_loop; [exact Hnd| |].
  - intros k Hk. rewrite empty_arrays_lookup, decide_True by done.
    split; [reflexivity|apply lookup_empty].
  - intros k Hk. rewrite empty_arrays_lookup, decide_False by done.
    symmetry. apply lookup_empty.
Qed.

End OrionCache.

(** ** More on the particle readers *)

Section ParticleMore.
Variables (fs : filesystem) (self : IOHandlerBoxlib F) (selector : Selector F).

(** X5: when every read yields an array, the mapping returned by
    [_read_particle_selection] has exactly the requested fields as keys,
    union or not, and each key holds the arrays produced for it,
    concatenated in the reverse of the order of their production. *)
Theorem read_particle_selection_all_fields
    (chunks : list (Chunk F)) (fields : list FieldKey) (tr : trace F) :
  reads_succeed fs self selector chunks fields ->
  exists rv tr',
    _read_particle_selection fs self chunks selector fields tr = (Ok rv, tr')
    /\ forall key,
         rv !! key
         = if decide (key ∈ fields)
           then Some (concat (reverse
                        (produced_in_order fs self selector chunks fields key)))
           else None.
Proof.
  intros Hok. unfold _read_particle_selection.
  destruct (prepends_for_each fields chunks
              (fun chunk rv =>
                 for_each (objs chunk)
                   (fun grid rv =>
                      for_each fields
                        (read_particle_field fs self selector grid) rv) rv)
              (fun chunk k =>
                 flat_map (fun grid =>
                   flat_map (fun field =>
                     if decide (k = field)
                     then map (produced_array fs self selector grid k.2)
                              (visited_types self k.1)
                     else []) fields) (objs chunk))
              (empty_arrays fields) tr) as (rv & tr' & E & L).
  - intros chunk rv0 tr0 Hc Hdom0.
    apply (prepends_for_each fields (objs chunk)
             (fun grid rv => for_each fields
                               (read_particle_field fs self selector grid) rv)
             (fun grid k =>
                flat_map (fun field =>
                  if decide (k = field)
                  then map (produced_array fs self selector grid k.2)
                           (visited_types self k.1)
                  else []) fields)); [|exact Hdom0].
    intros grid rv1 tr1 Hg Hdom1.
    apply (prepends_for_each fields fields
             (read_particle_field fs self selector grid)
             (fun field k =>
                if decide (k = field)
                then map (produced_array fs self selector grid k.2)
                         (visited_types self k.1)
                else [])); [|exact Hdom1].
    intros field rv2 tr2 Hf Hdom2.
    now apply (read_particle_field_prepends fs self selector chunks fields chunk).
  - intros f Hf. rewrite empty_arrays_lookup. rewrite decide_True by done. eauto.
  - exists rv, tr'. split; [exact E|]. intros key.
    rewrite L, empty_arrays_lookup.
    destruct (decide (key ∈ fields)); [|reflexivity]. simpl.
    now rewrite app_nil_r.
Qed.

(** X6: a field name that the header of the particle type does not know.
    [_read_particles] returns [None] for it, and the concatenation in
    [_read_particle_selection] turns that into a [ValueError] at the first
    grid, which has particles of the type; no file has been opened. *)
Theorem read_particle_selection_unknown_name
    (chunk : Chunk F) (chunks : list (Chunk F)) (grid : Grid F)
    (grids : list (Grid F)) (ftype name : string) (fields : list FieldKey)
    (tr : trace F) (pdata : ParticleSet) (pheader : ParticleHeader F) :
  objs chunk = grid :: grids ->
  particle_unions (ds self) !! ftype = None ->
  _pdata grid !! ftype = Some pdata ->
  0 < NumberOfParticles pdata ->
  particle_headers (index (ds self)) !! ftype = Some pheader ->
  name ∉ map snd (known_int_fields pheader) ->
  name ∉ map snd (known_real_fields pheader) ->
  _read_particle_selection fs self (chunk :: chunks) selector
    ((ftype, name) :: fields) tr
  = (Raise ValueError, tr).
Proof.
  intros Hobjs Hu Hpd Hn Hph Hi Hr. unfold _read_particle_selection.
  rewrite for_each_cons, Hobjs, ?bind_assoc, for_each_cons, ?bind_assoc,
    for_each_cons, ?bind_assoc.
  unfold read_particle_field at 1. rewrite Hu, ?bind_assoc.
  rewrite (bind_ok _ _ _ _ _
             (read_particles_unknown_name fs self grid selector ftype name tr
                pdata pheader Hpd Hn Hph Hi Hr)).
  unfold prepend. rewrite empty_arrays_lookup.
  rewrite decide_True by (by left). reflexivity.
Qed.

End ParticleMore.

(** ** Decoding packed particle records *)

Lemma split_items_concat (w : nat) (items : list (list byte)) (rest : list byte) :
  Forall (fun item => length item = w) items ->
  split_items w (length items) (concat items ++ rest) = items.
Proof.
  induction 1 as [|item items Hi _ IH]; simpl; [reflexivity|].
  rewrite <- app_assoc.
  rewrite take_app_length' by (symmetry; exact Hi).
  rewrite drop_app_length' by (symmetry; exact Hi).
  now rewrite IH.
Qed.

Lemma take_every_skip_all {A : Type} (step skip : nat) (l1 l2 : list A) :
  length l1 <= skip ->
  take_every step skip (l1 ++ l2) = take_every step (skip - length l1) l2.
Proof.
  revert skip. induction l1 as [|x l1 IH]; intros skip Hle; simpl.
  - now rewrite Nat.sub_0_r.
  - simpl in Hle. destruct skip as [|k]; [lia|]. apply IH. lia.
Qed.

Lemma take_every_walk {A : Type} (d : A) (step k : nat) (l rest : list A) :
  k < length l -> length l - k <= step ->
  take_every step k (l ++ rest)
  = nth k l d :: take_every step (step - 1 - (length l - k - 1)) rest.
Proof.
  revert k. induction l as [|y l IH]; intros k Hk Hst; simpl in *; [lia|].
  destruct k as [|k].
  - f_equal. rewrite take_every_skip_all by lia. f_equal. lia.
  - rewrite IH by lia. reflexivity.
Qed.

Lemma take_every_row {A : Type} (d : A) (step j : nat) (row rest : list A) :
  length row = step -> j < step ->
  take_every step j (row ++ rest) = nth j row d :: take_every step j rest.
Proof.
  intros Hlen Hj. rewrite (take_every_walk d) by lia. f_equal. f_equal. lia.
Qed.

Lemma take_every_rows {A : Type} (d : A) (step j : nat) (rows : list (list A)) :
  Forall (fun row => length row = step) rows -> j < step ->
  take_every step j (concat rows) = map (fun row => nth j row d) rows.
Proof.
  intros Hrows Hj. induction Hrows as [|row rows Hr _ IH]; simpl; [reflexivity|].
  rewrite (take_every_row d) by done. now rewrite IH.
Qed.

Lemma records_of_items (w n : nat) (records : list (list (list byte))) :
  records_of w n records ->
  Forall (fun item => length item = w) (concat records)
  /\ length (concat records) = n * length records.
Proof.
  induction 1 as [|rec records [Hn Hw] _ [IH1 IH2]]; simpl; [split; [constructor|lia]|].
  split; [now apply Forall_app|]. rewrite length_app, IH2, Hn. lia.
Qed.

(** Reading a whole packed block and slicing it with the record length as
    stride gives the columns of the records. *)
Lemma np_fromfile_records (dt : DType F) (n : nat)
    (records : list (list (list byte))) (f : handle) (before rest : list byte)
    (tr : trace F) :
  0 < itemsize dt -> (0 <= h_pos f)%Z ->
  records_of (itemsize dt) n records ->
  h_data f = before ++ aos_bytes records ++ rest ->
  Z.to_nat (h_pos f) = length before ->
  exists f' rdata,
    np_fromfile f dt (n * length records) tr
    = (Ok (f', rdata),
       tr ++ [EvFromfile (h_name f) (h_pos f)
                         (n * length records * itemsize dt)])
    /\ h_name f' = h_name f /\ h_data f' = h_data f
    /\ forall j, j < n -> take_every n j rdata = column dt j records.
Proof.
  intros Hw Hpos Hrec Hdata Hbefore.
  destruct (records_of_items _ _ _ Hrec) as [Hitems Hlen].
  assert (Hbytes : length (aos_bytes records) = n * length records * itemsize dt).
  { unfold aos_bytes. rewrite <- Hlen. clear -Hitems.
    induction Hitems as [|item items Hi _ IH]; simpl; [reflexivity|].
    rewrite length_app, IH, Hi. lia. }
  assert (Hfull : Z.to_nat (h_pos f) + n * length records * itemsize dt
                  <= length (h_data f)).
  { rewrite Hdata, !length_app, Hbytes. lia. }
  assert (Hdrop : drop (Z.to_nat (h_pos f)) (h_data f) = aos_bytes records ++ rest).
  { rewrite Hdata, Hbefore. apply drop_app_length. }
  rewrite (np_fromfile_full f dt (n * length records) tr Hw Hpos Hfull).
  eexists _, _. split; [reflexivity|]. split; [reflexivity|]. split; [reflexivity|].
  intros j Hj. rewrite Hdrop. unfold aos_bytes. rewrite <- Hlen.
  rewrite split_items_concat by exact Hitems.
  unfold column. clear -Hrec Hj.
  induction Hrec as [|rec records [Hn Hwd] _ IH]; simpl; [reflexivity|].
  rewrite map_app, (take_every_row (decode dt [])) by (rewrite ?length_map; done).
  rewrite IH. f_equal. apply map_nth.
Qed.

Section ParticleDecoding.
Variables (fs : filesystem) (self : IOHandlerBoxlib F) (selector : Selector F).


Lemma bind_ret_l {S A B : Type} (a : A) (k : A -> M S B) s :
  bind (ret a) k s = k a s.
Proof. reflexivity. Qed.

Lemma length_column (dt : DType F) (j : nat) (records : list (list (list byte))) :
  length (column dt j records) = length records.
Proof. unfold column. apply length_map. Qed.

(** X8: decoding a real field.  The particle file holds, after the integer
    block, the real block in array-of-structs layout: one record of
    [num_real] items per particle.  The point predicate is handed items 0
    and 1 of every record as x and y (and item 2 as z, or the synthesized
    column in two dimensions), and the call returns item [ind] of every
    record that the mask keeps, [ind] being the position of the name among
    the header's real fields. *)
Theorem read_particles_real_field
    (grid : Grid F) (ftype name : string) (tr : trace F)
    (pdata : ParticleSet) (pheader : ParticleHeader F)
    (before rest : list byte) (reals : list (list (list byte)))
    (ind : nat) (mask : list bool) :
  let rt := real_type pheader in
  let fn := particle_filename pdata in
  let start := (offset pdata
                + Z.of_nat (particle_int_dtype_itemsize pheader
                            * NumberOfParticles pdata))%Z in
  let x := column rt 0 reals in
  let y := column rt 1 reals in
  let z := if decide (dimensionality (grid_ds grid) = 2)
           then imul (ones_like y)
                     (fmul f_half (fadd (LeftEdge grid).2 (RightEdge grid).2))
           else column rt 2 reals in
  _pdata grid !! ftype = Some pdata ->
  NumberOfParticles pdata = length reals -> reals ≠ [] ->
  particle_headers (index (ds self)) !! ftype = Some pheader ->
  name ∉ map snd (known_int_fields pheader) ->
  index_of name (map snd (known_real_fields pheader)) = Some ind ->
  ind < num_real pheader -> 1 < num_real pheader ->
  dimensionality (grid_ds grid) = 2 \/ 2 < num_real pheader ->
  0 < itemsize rt ->
  records_of (itemsize rt) (num_real pheader) reals ->
  fs !! fn = Some (before ++ aos_bytes reals ++ rest) ->
  start = Z.of_nat (length before) ->
  select_points selector x y z f_zero = Some mask ->
  length mask = length reals ->
  _read_particles fs self grid selector ftype name tr
  = (Ok (Some (masked mask (column rt ind reals))),
     tr ++ [EvOpen fn; EvSeek fn SEEK_SET start;
            EvFromfile fn start (num_real pheader * length reals * itemsize rt);
            EvSelectPoints x y z f_zero]).
Proof.
  intros rt fn start x y z Hpd Hnp Hne Hph Hint Hreal Hind Hnr Hdim Hw Hrec
    Hfs Hstart Hsel Hmask.
  unfold _read_particles. rewrite Hpd, Hph.
  destruct (Nat.eqb (NumberOfParticles pdata) 0) eqn:E.
  { apply Nat.eqb_eq in E. rewrite Hnp in E. destruct reals; [done|discriminate]. }
  apply index_of_None in Hint. rewrite Hint, Hreal.
  assert (Hnr' : Nat.eqb (num_real pheader) 0 = false)
    by (apply Nat.eqb_neq; lia).
  assert (Eo : open_file (F:=F) fs fn tr
               = (Ok {| h_name := fn; h_data := before ++ aos_bytes reals ++ rest;
                        h_pos := 0 |}, tr ++ [EvOpen fn])).
  { unfold open_file. now rewrite Hfs. }
  fold fn. rewrite (bind_ok _ _ _ _ _ Eo). fold start.
  set (f1 := {| h_name := fn; h_data := before ++ aos_bytes reals ++ rest;
                h_pos := start |}).
  assert (Es : seek {| h_name := fn; h_data := before ++ aos_bytes reals ++ rest;
                       h_pos := 0 |} start SEEK_SET (tr ++ [EvOpen fn])
               = (Ok f1, (tr ++ [EvOpen fn]) ++ [EvSeek fn SEEK_SET start])).
  { unfold seek. simpl.
    destruct (start <? 0)%Z eqn:El; [apply Z.ltb_lt in El; lia|reflexivity]. }
  rewrite (bind_ok _ _ _ _ _ Es).
  destruct (np_fromfile_records rt (num_real pheader) reals f1 before rest
              ((tr ++ [EvOpen fn]) ++ [EvSeek fn SEEK_SET start]) Hw)
    as (f2 & rdata & Er & _ & _ & Hcols);
    [simpl; lia|exact Hrec|reflexivity|simpl; lia|].
  rewrite Hnp. fold rt. rewrite (bind_ok _ _ _ _ _ Er). cbv beta iota.
  unfold strided. rewrite Hnr'. rewrite !bind_ret_l.
  rewrite (Hcols 0), (Hcols 1), (Hcols ind) by lia. fold x. fold y.
  assert (Ez : (if decide (dimensionality (grid_ds grid) = 2)
                then ret (imul (ones_like y)
                            (fmul f_half (fadd (LeftEdge grid).2 (RightEdge grid).2)))
                else ret (take_every (num_real pheader) 2 rdata))
               = (ret z : M (trace F) (list F))).
  { unfold z. destruct (decide (dimensionality (grid_ds grid) = 2)) as [|Hn3];
      [reflexivity|].
    destruct Hdim as [|Hdim]; [contradiction|]. now rewrite (Hcols 2) by lia. }
  rewrite Ez, bind_ret_l.
  unfold call_select_points, bind at 1, emit at 1. rewrite Hsel.
  rewrite bind_ret_l. unfold array_index.
  rewrite decide_True by (right; now rewrite length_column).
  rewrite bind_ret_l. unfold ret. f_equal. simpl h_name. simpl h_pos.
  now rewrite <- !app_assoc.
Qed.

Lemma length_aos_bytes (w n : nat) (records : list (list (list byte))) :
  records_of w n records ->
  length (aos_bytes records) = n * length records * w.
Proof.
  intros Hrec. destruct (records_of_items _ _ _ Hrec) as [Hitems Hlen].
  unfold aos_bytes. rewrite <- Hlen. clear -Hitems.
  induction Hitems as [|item items Hi _ IH]; simpl; [reflexivity|].
  rewrite length_app, IH, Hi. lia.
Qed.

(** X9: decoding an integer field.  The integer block (one record of
    [num_int] items per particle, [particle_int_dtype] being the width of
    one record) starts at the recorded offset and the real block follows
    it.  The reals are read first and give the mask; then the reader seeks
    back to the offset, reads the integer block and returns item [ind] of
    every record that the mask keeps, as float64. *)
Theorem read_particles_int_field
    (grid : Grid F) (ftype name : string) (tr : trace F)
    (pdata : ParticleSet) (pheader : ParticleHeader F)
    (before rest : list byte) (ints reals : list (list (list byte)))
    (ind : nat) (mask : list bool) :
  let rt := real_type pheader in
  let it := int_type pheader in
  let fn := particle_filename pdata in
  let start := (offset pdata
                + Z.of_nat (particle_int_dtype_itemsize pheader
                            * NumberOfParticles pdata))%Z in
  let x := column rt 0 reals in
  let y := column rt 1 reals in
  let z := if decide (dimensionality (grid_ds grid) = 2)
           then imul (ones_like y)
                     (fmul f_half (fadd (LeftEdge grid).2 (RightEdge grid).2))
           else column rt 2 reals in
  _pdata grid !! ftype = Some pdata ->
  NumberOfParticles pdata = length reals -> length ints = length reals ->
  reals ≠ [] ->
  particle_headers (index (ds self)) !! ftype = Some pheader ->
  index_of name (map snd (known_int_fields pheader)) = Some ind ->
  ind < num_int pheader -> 1 < num_real pheader ->
  dimensionality (grid_ds grid) = 2 \/ 2 < num_real pheader ->
  0 < itemsize rt -> 0 < itemsize it ->
  particle_int_dtype_itemsize pheader = num_int pheader * itemsize it ->
  records_of (itemsize it) (num_int pheader) ints ->
  records_of (itemsize rt) (num_real pheader) reals ->
  fs !! fn = Some (before ++ aos_bytes ints ++ aos_bytes reals ++ rest) ->
  offset pdata = Z.of_nat (length before) ->
  select_points selector x y z f_zero = Some mask ->
  length mask = length reals ->
  _read_particles fs self grid selector ftype name tr
  = (Ok (Some (masked mask (column it ind ints))),
     tr ++ [EvOpen fn; EvSeek fn SEEK_SET start;
            EvFromfile fn start (num_real pheader * length reals * itemsize rt);
            EvSelectPoints x y z f_zero;
            EvSeek fn SEEK_SET (offset pdata);
            EvFromfile fn (offset pdata)
                       (num_int pheader * length ints * itemsize it)]).
Proof.
  intros rt it fn start x y z Hpd Hnp Hni Hne Hph Hint Hind Hnr Hdim Hwr Hwi
    Hip Hreci Hrecr Hfs Hoff Hsel Hmask.
  unfold _read_particles. rewrite Hpd, Hph.
  destruct (Nat.eqb (NumberOfParticles pdata) 0) eqn:E.
  { apply Nat.eqb_eq in E. rewrite Hnp in E. destruct reals; [done|discriminate]. }
  rewrite Hint.
  assert (Hnr' : Nat.eqb (num_real pheader) 0 = false)
    by (apply Nat.eqb_neq; lia).
  assert (Hni' : Nat.eqb (num_int pheader) 0 = false)
    by (apply Nat.eqb_neq; lia).
  pose proof (length_aos_bytes _ _ _ Hreci) as Hbi.
  set (bs := before ++ aos_bytes ints ++ aos_bytes reals ++ rest) in *.
  assert (Eo : open_file (F:=F) fs fn tr
               = (Ok {| h_name := fn; h_data := bs; h_pos := 0 |},
                  tr ++ [EvOpen fn])).
  { unfold open_file. now rewrite Hfs. }
  fold fn. rewrite (bind_ok _ _ _ _ _ Eo). fold start.
  set (f1 := {| h_name := fn; h_data := bs; h_pos := start |}).
  assert (Es : seek {| h_name := fn; h_data := bs; h_pos := 0 |} start SEEK_SET
                    (tr ++ [EvOpen fn])
               = (Ok f1, (tr ++ [EvOpen fn]) ++ [EvSeek fn SEEK_SET start])).
  { unfold seek. simpl.
    destruct (start <? 0)%Z eqn:El; [apply Z.ltb_lt in El; lia|reflexivity]. }
  rewrite (bind_ok _ _ _ _ _ Es).
  destruct (np_fromfile_records rt (num_real pheader) reals f1
              (before ++ aos_bytes ints) rest
              ((tr ++ [EvOpen fn]) ++ [EvSeek fn SEEK_SET start]) Hwr)
    as (f2 & rdata & Er & Hname2 & Hdata2 & Hcols);
    [simpl; lia|exact Hrecr|simpl; unfold bs; now rewrite <- app_assoc| |].
  { simpl. rewrite length_app, Hbi. unfold start. rewrite Hip, Hnp, Hni. lia. }
  rewrite Hnp. fold rt. rewrite (bind_ok _ _ _ _ _ Er). cbv beta iota.
  unfold strided at 1 2 3. rewrite Hnr'. rewrite !bind_ret_l.
  rewrite (Hcols 0), (Hcols 1) by lia. fold x. fold y.
  assert (Ez : (if decide (dimensionality (grid_ds grid) = 2)
                then ret (imul (ones_like y)
                            (fmul f_half (fadd (LeftEdge grid).2 (RightEdge grid).2)))
                else ret (take_every (num_real pheader) 2 rdata))
               = (ret z : M (trace F) (list F))).
  { unfold z. destruct (decide (dimensionality (grid_ds grid) = 2)) as [|Hn3];
      [reflexivity|].
    destruct Hdim as [|Hdim]; [contradiction|]. now rewrite (Hcols 2) by lia. }
  rewrite Ez, bind_ret_l.
  unfold call_select_points, bind at 1, emit at 1. rewrite Hsel.
  set (f3 := {| h_name := fn; h_data := h_data f2; h_pos := offset pdata |}).
  match goal with |- context [seek f2 (offset pdata) SEEK_SET] =>
    assert (Es2 : forall t, seek (F:=F) f2 (offset pdata) SEEK_SET t
                  = (Ok f3, t ++ [EvSeek fn SEEK_SET (offset pdata)])) end.
  { intros t. unfold seek. rewrite Hname2. simpl.
    destruct (offset pdata <? 0)%Z eqn:El; [apply Z.ltb_lt in El; lia|reflexivity]. }
  rewrite (bind_ok _ _ _ _ _ (Es2 _)).
  destruct (np_fromfile_records it (num_int pheader) ints f3 before
              (aos_bytes reals ++ rest)
              (((((tr ++ [EvOpen fn]) ++ [EvSeek fn SEEK_SET start])
                  ++ [EvFromfile (h_name f1) (h_pos f1)
                        (num_real pheader * length reals * itemsize rt)])
                 ++ [EvSelectPoints x y z f_zero])
                ++ [EvSeek fn SEEK_SET (offset pdata)]) Hwi)
    as (f4 & idata & Ei & _ & _ & Hcoli);
    [simpl; lia|exact Hreci|simpl; now rewrite Hdata2|simpl; lia|].
  rewrite Hni in Ei. fold it. rewrite (bind_ok _ _ _ _ _ Ei). cbv beta iota.
  unfold strided. rewrite Hni'. rewrite bind_ret_l.
  rewrite (Hcoli ind) by lia.
  unfold array_index.
  rewrite decide_True by (right; now rewrite length_column, Hni).
  rewrite bind_ret_l. unfold ret. f_equal. simpl h_name. simpl h_pos.
  rewrite Hni. now rewrite <- !app_assoc.
Qed.

End ParticleDecoding.

(** ** The arguments of the point predicate in two dimensions *)

Lemma call_select_points_bind {A : Type} (selector : Selector F)
    (x y z : list F) (r : F) (k : option (list bool) -> M (trace F) A)
    (tr : trace F) :
  bind (call_select_points selector x y z r) k tr
  = k (select_points selector x y z r) (tr ++ [EvSelectPoints x y z r]).
Proof. reflexivity. Qed.

(** In a two-dimensional dataset, when the particle file holds one real
    record per particle after the integer block, a [_read_particles] call
    for a known field name (integer or real) calls the point predicate
    once: x and y are items 0 and 1 of the records, z holds the midpoint
    of the grid's z edges once per particle. *)
Lemma read_particles_call `{!Float64Laws F}
    (fs : filesystem) (self : IOHandlerBoxlib F) (grid : Grid F)
    (selector : Selector F) (ftype name : string) (tr : trace F)
    (pdata : ParticleSet) (pheader : ParticleHeader F)
    (before rest : list byte) (reals : list (list (list byte))) :
  dimensionality (grid_ds grid) = 2 ->
  _pdata grid !! ftype = Some pdata ->
  NumberOfParticles pdata = length reals ->
  0 < NumberOfParticles pdata ->
  particle_headers (index (ds self)) !! ftype = Some pheader ->
  name ∈ map snd (known_int_fields pheader)
    \/ name ∈ map snd (known_real_fields pheader) ->
  1 < num_real pheader ->
  0 < itemsize (real_type pheader) ->
  records_of (itemsize (real_type pheader)) (num_real pheader) reals ->
  fs !! particle_filename pdata = Some (before ++ aos_bytes reals ++ rest) ->
  (offset pdata
   + Z.of_nat (particle_int_dtype_itemsize pheader * NumberOfParticles pdata))%Z
  = Z.of_nat (length before) ->
  select_points_calls (_read_particles fs self grid selector ftype name tr).2
  = select_points_calls tr
    ++ [(column (real_type pheader) 0 reals,
         column (real_type pheader) 1 reals,
         replicate (NumberOfParticles pdata)
           (fmul f_half (fadd (LeftEdge grid).2 (RightEdge grid).2)),
         f_zero)].
Proof.
  intros Hdim Hpd Hnp Hn Hph Hname Hnr Hw Hrec Hfs Hstart.
  set (rt := real_type pheader) in *.
  set (fn := particle_filename pdata) in *.
  set (start := (offset pdata
                 + Z.of_nat (particle_int_dtype_itemsize pheader
                             * NumberOfParticles pdata))%Z) in *.
  unfold _read_particles. rewrite Hpd, Hph.
  destruct (Nat.eqb (NumberOfParticles pdata) 0) eqn:E;
    [apply Nat.eqb_eq in E; lia|].
  assert (Hnr' : Nat.eqb (num_real pheader) 0 = false)
    by (apply Nat.eqb_neq; lia).
  assert (Eo : open_file (F:=F) fs fn tr
               = (Ok {| h_name := fn; h_data := before ++ aos_bytes reals ++ rest;
                        h_pos := 0 |}, tr ++ [EvOpen fn])).
  { unfold open_file. now rewrite Hfs. }
  set (f1 := {| h_name := fn; h_data := before ++ aos_bytes reals ++ rest;
                h_pos := start |}).
  assert (Es : seek {| h_name := fn; h_data := before ++ aos_bytes reals ++ rest;
                       h_pos := 0 |} start SEEK_SET (tr ++ [EvOpen fn])
               = (Ok f1, (tr ++ [EvOpen fn]) ++ [EvSeek fn SEEK_SET start])).
  { unfold seek. simpl.
    destruct (start <? 0)%Z eqn:El; [apply Z.ltb_lt in El; lia|reflexivity]. }
  destruct (np_fromfile_records rt (num_real pheader) reals f1 before rest
              ((tr ++ [EvOpen fn]) ++ [EvSeek fn SEEK_SET start]) Hw)
    as (f2 & rdata & Er & Hn2 & Hd2 & Hcols);
    [simpl; lia|exact Hrec|reflexivity|simpl; lia|].
  rewrite <- Hnp in Er.
  assert (Hz : imul (ones_like (column rt 1 reals))
                 (fmul f_half (fadd (LeftEdge grid).2 (RightEdge grid).2))
               = replicate (NumberOfParticles pdata)
                   (fmul f_half (fadd (LeftEdge grid).2 (RightEdge grid).2))).
  { now rewrite imul_ones_like, length_column, Hnp. }
  assert (Hcalls : forall tr0 e,
            (forall x y z r, e <> EvSelectPoints x y z r) ->
            select_points_calls (F:=F) (tr0 ++ [e]) = select_points_calls tr0).
  { intros tr0 e He. rewrite select_points_calls_app.
    destruct e; simpl; try apply app_nil_r. exfalso. now apply (He x y z r). }
  destruct (index_of name (map snd (known_int_fields pheader))) as [ind|] eqn:Ei.
  - fold fn. rewrite (bind_ok _ _ _ _ _ Eo). fold start.
    rewrite (bind_ok _ _ _ _ _ Es). fold rt.
    rewrite (bind_ok _ _ _ _ _ Er). cbv beta iota.
    unfold strided at 1 2. rewrite Hnr'. rewrite !bind_ret_l.
    rewrite (Hcols 0), (Hcols 1) by lia.
    rewrite decide_True by exact Hdim. rewrite bind_ret_l, Hz.
    rewrite call_select_points_bind.
    match goal with |- context [?t ++ [EvSelectPoints ?x ?y ?z ?r]] =>
      set (tr5 := t ++ [EvSelectPoints x y z r]) end.
    assert (Hk : select_points_calls tr5
                 = select_points_calls tr
                   ++ [(column rt 0 reals, column rt 1 reals,
                        replicate (NumberOfParticles pdata)
                          (fmul f_half
                             (fadd (LeftEdge grid).2 (RightEdge grid).2)),
                        f_zero)]).
    { unfold tr5. rewrite select_points_calls_app. simpl.
      rewrite !Hcalls by (intros; discriminate). reflexivity. }
    clearbody tr5.
    destruct (select_points selector _ _ _ _) as [mask|]; [|exact Hk].
    unfold seek, np_fromfile, strided, array_index, bind, emit, ret, raise.
    cbn [h_pos h_data h_name].
    repeat case_match; simplify_eq; cbn [snd];
      rewrite ?Hcalls by (intros; discriminate); exact Hk.
  - destruct Hname as [Hname|Hname];
      [apply index_of_elem in Hname as [i Hi]; congruence|].
    apply index_of_elem in Hname as [ind Hind]. rewrite Hind.
    fold fn. rewrite (bind_ok _ _ _ _ _ Eo). fold start.
    rewrite (bind_ok _ _ _ _ _ Es). fold rt.
    rewrite (bind_ok _ _ _ _ _ Er). cbv beta iota.
    unfold strided at 1 2. rewrite Hnr'. rewrite !bind_ret_l.
    rewrite (Hcols 0), (Hcols 1) by lia.
    rewrite decide_True by exact Hdim. rewrite bind_ret_l, Hz.
    rewrite call_select_points_bind.
    match goal with |- context [?t ++ [EvSelectPoints ?x ?y ?z ?r]] =>
      set (tr5 := t ++ [EvSelectPoints x y z r]) end.
    assert (Hk : select_points_calls tr5
                 = select_points_calls tr
                   ++ [(column rt 0 reals, column rt 1 reals,
                        replicate (NumberOfParticles pdata)
                          (fmul f_half
                             (fadd (LeftEdge grid).2 (RightEdge grid).2)),
                        f_zero)]).
    { unfold tr5. rewrite select_points_calls_app. simpl.
      rewrite !Hcalls by (intros; discriminate). reflexivity. }
    clearbody tr5.
    destruct (select_points selector _ _ _ _) as [mask|]; [|exact Hk].
    unfold strided, array_index, bind, ret, raise.
    repeat case_match; simplify_eq; cbn [snd]; exact Hk.
Qed.

(** C4: in a two-dimensional dataset every call of the point predicate
    that [_read_particles] makes, whatever the inputs, passes a z column
    holding [0.5 * (LeftEdge[2] + RightEdge[2])] of the grid at each
    position and [0.0] as fourth argument.  On a grid with at least one
    particle whose file holds one real record per particle after the
    integer block, for a known field name, in the integer branch as in the
    real branch, the predicate is called exactly once: x and y are items 0
    and 1 of the particles' records and z is that midpoint once per
    particle of the grid. *)
Theorem read_particles_two_dimensional_z `{!Float64Laws F}
    (fs : filesystem) (self : IOHandlerBoxlib F) (grid : Grid F)
    (selector : Selector F) (ftype name : string) (tr : trace F) :
  dimensionality (grid_ds grid) = 2 ->
  let midpoint := fmul f_half (fadd (LeftEdge grid).2 (RightEdge grid).2) in
  let log := (_read_particles fs self grid selector ftype name tr).2 in
  (exists calls,
     select_points_calls log = select_points_calls tr ++ calls
     /\ forall x y z r, (x, y, z, r) ∈ calls ->
          z = replicate (length y) midpoint /\ r = f_zero)
  /\ (forall (pdata : ParticleSet) (pheader : ParticleHeader F)
             (before rest : list byte) (reals : list (list (list byte))),
        _pdata grid !! ftype = Some pdata ->
        NumberOfParticles pdata = length reals ->
        0 < NumberOfParticles pdata ->
        particle_headers (index (ds self)) !! ftype = Some pheader ->
        name ∈ map snd (known_int_fields pheader)
          \/ name ∈ map snd (known_real_fields pheader) ->
        1 < num_real pheader ->
        0 < itemsize (real_type pheader) ->
        records_of (itemsize (real_type pheader)) (num_real pheader) reals ->
        fs !! particle_filename pdata = Some (before ++ aos_bytes reals ++ rest) ->
        (offset pdata
         + Z.of_nat (particle_int_dtype_itemsize pheader
                     * NumberOfParticles pdata))%Z
        = Z.of_nat (length before) ->
        select_points_calls log
        = select_points_calls tr
          ++ [(column (real_type pheader) 0 reals,
               column (real_type pheader) 1 reals,
               replicate (NumberOfParticles pdata) midpoint,
               f_zero)]).
Proof.
  intros Hdim midpoint log. split.
  - exists (select_points_calls
              (_read_particles fs self grid selector ftype name []).2).
    split.
    + unfold log.
      rewrite (log_only_read_particles fs self grid selector ftype name tr).
      simpl. apply select_points_calls_app.
    + intros x y z r Hin.
      pose proof (read_particles_z_column fs self grid selector ftype name Hdim)
        as Hall.
      rewrite Forall_forall in Hall. exact (Hall (x, y, z, r) Hin).
  - intros pdata pheader before rest reals Hpd Hnp Hn Hph Hname Hnr Hw Hrec Hfs Hst.
    now apply (read_particles_call fs self grid selector ftype name tr
                 pdata pheader before rest reals).
Qed.

(** ** Grouping by file, in general *)

Lemma elem_of_concat {A : Type} (x : A) (ls : list (list A)) :
  x ∈ concat ls <-> exists l, l ∈ ls /\ x ∈ l.
Proof.
  induction ls as [|l ls IH]; simpl.
  - split; [intros Hx; by apply elem_of_nil in Hx|].
    intros (l & Hl & _). by apply elem_of_nil in Hl.
  - rewrite elem_of_app, IH. split.
    + intros [Hx|(l' & Hl' & Hx)]; [exists l; split; [by left|done]|].
      exists l'. split; [by right|done].
    + intros (l' & Hl' & Hx). apply elem_of_cons in Hl' as [->|Hl']; [by left|].
      right. eauto.
Qed.

(** The dictionary [grids_by_file] holds the grids that have a path, each
    under its own file name. *)
Lemma group_by_file_members (gs : list (Grid F)) :
  group_members (group_by_file gs)
    ≡ₚ filter (fun g => is_Some (filename g)) gs
  /\ keyed (group_by_file gs).
Proof.
  unfold group_by_file.
  assert (G : forall d, keyed d ->
            let d' := fold_left (fun d g => match filename g with
                                            | None => d
                                            | Some fn => dd_append fn g d
                                            end) gs d in
            group_members d'
              ≡ₚ group_members d ++ filter (fun g => is_Some (filename g)) gs
            /\ keyed d').
  { induction gs as [|g gs IH]; intros d Hd; simpl.
    - now rewrite app_nil_r.
    - destruct (filename g) as [fn|] eqn:Hfn.
      + destruct (IH (dd_append fn g d) (dd_append_keyed fn g d Hfn Hd)) as [P K].
        split; [|exact K]. rewrite P, dd_append_perm.
        rewrite filter_cons_True by (rewrite Hfn; eauto).
        now rewrite <- app_assoc.
      + destruct (IH d Hd) as [P K]. split; [|exact K]. rewrite P.
        rewrite filter_cons_False; [done|]. rewrite Hfn. by intros []. }
  destruct (G [] (fun fn gs0 Hin => False_ind _ (proj1 (elem_of_nil _) Hin)))
    as [P K].
  split; [exact P|exact K].
Qed.

Lemma group_by_file_key (gs grids : list (Grid F)) (fn : string) :
  (fn, grids) ∈ group_by_file gs ->
  grids ≠ []
  /\ forall g, g ∈ grids -> g ∈ gs /\ filename g = Some fn.
Proof.
  intros Hin. destruct (group_by_file_members gs) as [P K].
  destruct (K fn grids Hin) as [Hne Hfn]. split; [exact Hne|].
  intros g Hg. split; [|auto].
  assert (Hm : g ∈ group_members (group_by_file gs)).
  { unfold group_members. apply elem_of_concat. exists grids. split; [|exact Hg].
    apply list_elem_of_fmap. now exists (fn, grids). }
  rewrite P in Hm. now apply list_elem_of_filter in Hm as [_ Hm].
Qed.

Lemma group_by_file_grid (gs : list (Grid F)) (g : Grid F) (fn : string) :
  g ∈ gs -> filename g = Some fn ->
  exists grids, (fn, grids) ∈ group_by_file gs /\ g ∈ grids.
Proof.
  intros Hg Hfn. destruct (group_by_file_members gs) as [P K].
  assert (Hm : g ∈ group_members (group_by_file gs)).
  { rewrite P. apply list_elem_of_filter. split; [rewrite Hfn; eauto|exact Hg]. }
  unfold group_members in Hm. apply elem_of_concat in Hm as (grids & Hgr & Hin).
  apply list_elem_of_fmap in Hgr as ([fn' grids'] & -> & Hd). simpl in Hin.
  destruct (K fn' grids' Hd) as [_ Hk]. rewrite (Hk g Hin) in Hfn.
  injection Hfn as ->. eauto.
Qed.

Lemma NoDup_fmap_elem_eq {A B : Type} (f : A -> B) (l : list A) (x y : A) :
  NoDup (f <$> l) -> x ∈ l -> y ∈ l -> f x = f y -> x = y.
Proof.
  induction l as [|a l IH]; intros Hnd Hx Hy Heq; [by apply elem_of_nil in Hx|].
  rewrite fmap_cons in Hnd. apply NoDup_cons in Hnd as [Ha Hnd].
  apply elem_of_cons in Hx as [->|Hx]; apply elem_of_cons in Hy as [->|Hy].
  - reflexivity.
  - exfalso. apply Ha. rewrite Heq. apply list_elem_of_fmap. eauto.
  - exfalso. apply Ha. rewrite <- Heq. apply list_elem_of_fmap. eauto.
  - auto.
Qed.

(** ** The blocks of a chunk, by value *)

Section ChunkBlocks.
Variables (fs : filesystem) (self : IOHandlerBoxlib F) (fields : list FieldKey).

Let dtype := _dtype (index (ds self)).
Let bpr := itemsize dtype.
Let order := field_order (index (ds self)).

Lemma read_fields_values (grid : Grid F) (todo : list FieldKey) (k : nat)
    (f : handle) (data : chunk_data) (d : gmap FieldKey (ndarray F))
    (lo : Z) (tr : trace F) :
  0 < bpr -> NoDup todo -> (0 <= _offset grid)%Z ->
  (h_pos f + lo = _offset grid
                  + Z.of_nat (k * (prod (ActiveDimensions grid) * bpr)))%Z ->
  Z.to_nat (_offset grid)
    + (k + length todo) * (prod (ActiveDimensions grid) * bpr)
    <= length (h_data f) ->
  exists f' d' lo' tr',
    for_each todo
      (read_field fields dtype grid (prod (ActiveDimensions grid))
                  (prod (ActiveDimensions grid) * bpr))
      (f, <[id grid := d]> data, lo) tr
    = (Ok (f', <[id grid := d']> data, lo'), tr')
    /\ h_data f' = h_data f
    /\ forall field,
         d' !! field
         = match (if decide (field ∈ fields) then field_position field todo
                  else None) with
           | Some i => Some (block_of self (h_data f) grid (k + i))
           | None => d !! field
           end.
Proof.
  intros Hw. revert k f d lo tr.
  induction todo as [|fld todo IH]; intros k f d lo tr Hnd Hoff Hpos Hlen.
  - exists f, d, lo, tr. split; [reflexivity|]. split; [reflexivity|].
    intros field. simpl. now destruct (decide (field ∈ fields)).
  - apply NoDup_cons in Hnd as [Hfld Hnd]. cbn [length] in Hlen.
    rewrite for_each_cons.
    destruct (decide (fld ∈ fields)) as [Hin|Hnin].
    + assert (Hp0 : (0 <= h_pos f + lo)%Z) by lia.
      assert (Hp1 : Z.to_nat (h_pos f + lo) + prod (ActiveDimensions grid) * bpr
                    <= length (h_data f)) by lia.
      pose proof (read_field_requested self fields grid
                    (prod (ActiveDimensions grid) * bpr) fld f
                    (<[id grid := d]> data) lo tr Hin Hw Hp0 Hp1) as Es.
      rewrite alter_insert_field in Es. rewrite (bind_ok _ _ _ _ _ Es).
      match type of Es with _ = (Ok (?f2, _, _), ?tr2) =>
        destruct (IH (S k) f2 (<[fld := block_at self grid f lo]> d) 0%Z tr2 Hnd Hoff)
          as (f' & d' & lo' & tr' & E & Hdata & Hval) end.
      * cbn [h_pos]. unfold bpr, dtype in *. lia.
      * cbn [h_data length] in *. unfold bpr, dtype in *. lia.
      * exists f', d', lo', tr'. split; [exact E|]. split; [exact Hdata|].
        intros field. rewrite Hval. cbn [h_data field_position].
        destruct (decide (field ∈ fields)) as [Hf|Hf].
        -- destruct (decide (fld = field)) as [->|Hne].
           ++ assert (Hnone : field_position field todo = None).
              { clear -Hfld. induction todo as [|a todo IHt]; [reflexivity|].
                simpl. apply not_elem_of_cons in Hfld as [Hne Hfld].
                destruct (decide (a = field)); [congruence|].
                now rewrite IHt. }
              rewrite Hnone, lookup_insert_eq. f_equal.
              unfold block_at, block_of. fold dtype. fold bpr. f_equal. f_equal.
              f_equal. f_equal. rewrite Nat.add_0_r. lia.
           ++ destruct (field_position field todo) as [i|]; simpl.
              ** do 3 f_equal. lia.
              ** now rewrite lookup_insert_ne.
        -- destruct (decide (fld = field)) as [->|Hne]; [contradiction|].
           now rewrite lookup_insert_ne.
    + rewrite (bind_ok _ _ _ _ _
                 (read_field_skipped self fields grid _ _ fld f _ lo tr Hnin)).
      destruct (IH (S k) f d
                  (lo + Z.of_nat (prod (ActiveDimensions grid) * bpr))%Z tr Hnd Hoff)
        as (f' & d' & lo' & tr' & E & Hdata & Hval).
      * lia.
      * cbn [length] in *. lia.
      * exists f', d', lo', tr'. split; [exact E|]. split; [exact Hdata|].
        intros field. rewrite Hval. cbn [field_position].
        destruct (decide (field ∈ fields)) as [Hf|Hf]; [|reflexivity].
        destruct (decide (fld = field)) as [->|Hne]; [contradiction|].
        destruct (field_position field todo) as [i|]; simpl; [|reflexivity].
        do 3 f_equal. lia.
Qed.

Lemma read_grid_values (grid : Grid F) (f : handle) (data : chunk_data)
    (tr : trace F) :
  0 < bpr -> NoDup order -> fits self (h_data f) grid ->
  exists f' d' tr',
    read_grid self fields grid (f, data) tr = (Ok (f', <[id grid := d']> data), tr')
    /\ h_data f' = h_data f
    /\ forall field, d' !! field = expected_block self fields (h_data f) grid field.
Proof.
  intros Hw Hnd [Hoff Hlen]. unfold read_grid, _get_offset, tell.
  fold dtype. fold bpr. fold order.
  destruct (read_fields_values grid order 0 f data ∅
              (_offset grid - h_pos f)%Z tr Hw Hnd Hoff)
    as (f' & d' & lo' & tr' & E & Hdata & Hval).
  - lia.
  - exact Hlen.
  - exists f', d', tr'. split; [now rewrite (bind_ok _ _ _ _ _ E)|].
    split; [exact Hdata|]. intros field. rewrite Hval. unfold expected_block.
    fold order. destruct (decide (field ∈ fields)); [|apply lookup_empty].
    destruct (field_position field order); [reflexivity|apply lookup_empty].
Qed.

Lemma read_grids_values (gs : list (Grid F)) (f : handle) (data : chunk_data)
    (tr : trace F) :
  0 < bpr -> NoDup order -> NoDup (id <$> gs) ->
  (forall g, g ∈ gs -> fits self (h_data f) g) ->
  exists f' data' tr',
    for_each gs (read_grid self fields) (f, data) tr = (Ok (f', data'), tr')
    /\ (forall g, g ∈ gs ->
          exists d, data' !! id g = Some d
                    /\ forall field,
                         d !! field = expected_block self fields (h_data f) g field)
    /\ (forall k, k ∉ id <$> gs -> data' !! k = data !! k).
Proof.
  intros Hw Hord. revert f data tr.
  induction gs as [|g gs IH]; intros f data tr Hnd Hfit.
  - exists f, data, tr. split; [reflexivity|]. split; [|done].
    intros g Hg. by apply elem_of_nil in Hg.
  - rewrite fmap_cons in Hnd. apply NoDup_cons in Hnd as [Hg Hnd].
    destruct (read_grid_values g f data tr Hw Hord)
      as (f1 & d1 & tr1 & E1 & Hd1 & Hv1); [apply Hfit; by left|].
    destruct (IH f1 (<[id g := d1]> data) tr1 Hnd)
      as (f2 & data2 & tr2 & E2 & Hr & Hk).
    { intros g' Hg'. rewrite Hd1. apply Hfit. by right. }
    exists f2, data2, tr2. split; [|split].
    + rewrite for_each_cons. now rewrite (bind_ok _ _ _ _ _ E1).
    + intros g' Hg'. apply elem_of_cons in Hg' as [->|Hg'].
      * exists d1. split; [|exact Hv1].
        rewrite (Hk _ Hg). apply lookup_insert_eq.
      * destruct (Hr g' Hg') as (d & Hd & Hv). exists d. split; [exact Hd|].
        intros field. rewrite Hv. now rewrite Hd1.
    + intros k Hk'. rewrite fmap_cons in Hk'.
      apply not_elem_of_cons in Hk' as [Hne Hk'].
      rewrite (Hk _ Hk'). now apply lookup_insert_ne.
Qed.

Lemma read_files_values (groups : list (string * list (Grid F)))
    (data : chunk_data) (tr : trace F) :
  0 < bpr -> NoDup order -> NoDup (id <$> group_members groups) -> keyed groups ->
  (forall g, g ∈ group_members groups -> stored fs self g) ->
  exists data' tr',
    for_each groups
      (fun '(filename, grids) data =>
         let grids := sort_by_offset grids in
         let* f := open_file fs filename in
         let* (_, data) := for_each grids (read_grid self fields) (f, data) in
         ret data)
      data tr
    = (Ok data', tr')
    /\ (forall g, g ∈ group_members groups ->
          exists bs d, grid_bytes fs g = Some bs /\ data' !! id g = Some d
                       /\ forall field,
                            d !! field = expected_block self fields bs g field)
    /\ (forall k, k ∉ id <$> group_members groups -> data' !! k = data !! k).
Proof.
  intros Hw Hord. revert data tr.
  induction groups as [|[fn gs] groups IH]; intros data tr Hnd Hkey Hst.
  - exists data, tr. split; [reflexivity|]. split; [|done].
    intros g Hg. by apply elem_of_nil in Hg.
  - unfold group_members in *. simpl in Hnd, Hst.
    rewrite fmap_app in Hnd. apply NoDup_app in Hnd as (Hnd1 & Hdisj & Hnd2).
    destruct (Hkey fn gs) as [Hne Hfn]; [by left|].
    assert (exists bs, fs !! fn = Some bs /\ forall g, g ∈ gs -> fits self bs g)
      as (bs & Hbs & Hfit).
    { destruct gs as [|g0 gs0]; [done|].
      destruct (Hst g0) as (fn0 & bs & Hf0 & Hbs & _);
        [apply elem_of_app; left; by left|].
      rewrite (Hfn g0) in Hf0 by (by left). injection Hf0 as <-.
      exists bs. split; [exact Hbs|]. intros g Hg.
      destruct (Hst g) as (fn1 & bs1 & Hf1 & Hbs1 & Hfit1);
        [apply elem_of_app; by left|].
      rewrite (Hfn g Hg) in Hf1. injection Hf1 as <-. congruence. }
    destruct (read_grids_values (sort_by_offset gs)
                {| h_name := fn; h_data := bs; h_pos := 0 |} data
                (tr ++ [EvOpen fn]) Hw Hord)
      as (f1 & data1 & tr1 & E1 & Hr1 & Hk1).
    { now rewrite sort_by_offset_perm. }
    { intros g Hg. rewrite sort_by_offset_perm in Hg. simpl. auto. }
    destruct (IH data1 tr1 Hnd2) as (data2 & tr2 & E2 & Hr2 & Hk2).
    { intros fn' gs' Hin. apply Hkey. by right. }
    { intros g Hg. apply Hst. apply elem_of_app. by right. }
    exists data2, tr2. split; [|split].
    + rewrite for_each_cons.
      assert (Eo : open_file (F:=F) fs fn tr
                   = (Ok {| h_name := fn; h_data := bs; h_pos := 0 |},
                      tr ++ [EvOpen fn])).
      { unfold open_file. now rewrite Hbs. }
      erewrite bind_ok; [exact E2|].
      rewrite (bind_ok _ _ _ _ _ Eo). now rewrite (bind_ok _ _ _ _ _ E1).
    + intros g Hg. simpl in Hg. apply elem_of_app in Hg as [Hg|Hg]; [|auto].
      destruct (Hr1 g) as (d & Hd & Hv); [now rewrite sort_by_offset_perm|].
      exists bs, d. split; [|split; [|exact Hv]].
      * unfold grid_bytes. now rewrite (Hfn g Hg).
      * rewrite Hk2; [exact Hd|].
        intros Hin. apply (Hdisj (id g)); [|exact Hin].
        apply list_elem_of_fmap. now exists g.
    + intros k Hk. simpl in Hk. rewrite fmap_app in Hk.
      apply not_elem_of_app in Hk as [Hka Hkb].
      rewrite (Hk2 _ Hkb). apply Hk1. now rewrite sort_by_offset_perm.
Qed.

Lemma read_chunk_data_values (chunk : Chunk F) (tr : trace F) :
  0 < bpr -> NoDup order -> NoDup (id <$> objs chunk) ->
  (forall g, g ∈ objs chunk -> is_Some (filename g) -> stored fs self g) ->
  exists data tr',
    _read_chunk_data fs self chunk fields tr = (Ok data, tr')
    /\ (forall g, g ∈ objs chunk -> is_Some (filename g) ->
          exists bs d, grid_bytes fs g = Some bs /\ data !! id g = Some d
                       /\ forall field,
                            d !! field = expected_block self fields bs g field)
    /\ (forall g, g ∈ objs chunk -> filename g = None -> data !! id g = None)
    /\ (forall k, k ∉ id <$> objs chunk -> data !! k = None).
Proof.
  intros Hw Hord Hnd Hst. unfold _read_chunk_data.
  destruct (Nat.eqb (length (objs chunk)) 0) eqn:E0.
  - apply Nat.eqb_eq in E0. destruct (objs chunk); [|discriminate].
    exists ∅, tr. split; [reflexivity|]. split; [|split].
    + intros g Hg. by apply elem_of_nil in Hg.
    + intros g Hg. by apply elem_of_nil in Hg.
    + intros k _. apply lookup_empty.
  - destruct (group_by_file_members (objs chunk)) as [P K].
    assert (Hm : forall g, g ∈ group_members (group_by_file (objs chunk))
                           <-> is_Some (filename g) /\ g ∈ objs chunk).
    { intros g. rewrite P.
      exact (list_elem_of_filter (fun g => is_Some (filename g)) (objs chunk) g). }
    destruct (read_files_values (group_by_file (objs chunk)) ∅ tr Hw Hord)
      as (data & tr' & E & Hr & Hk).
    + rewrite P. apply (sublist_NoDup _ _ Hnd).
      apply fmap_sublist, sublist_filter.
    + exact K.
    + intros g Hg. apply Hm in Hg as [Hp Hg]. auto.
    + exists data, tr'. split; [exact E|]. split; [|split].
      * intros g Hg Hp. apply Hr. now apply Hm.
      * intros g Hg Hnone. rewrite Hk; [apply lookup_empty|].
        intros Hin. apply list_elem_of_fmap in Hin as (g' & Heq & Hg').
        apply Hm in Hg' as [Hp Hg'].
        rewrite (NoDup_fmap_elem_eq id (objs chunk) g g' Hnd Hg Hg' Heq) in Hnone.
        rewrite Hnone in Hp. by destruct Hp.
      * intros k Hk'. rewrite Hk; [apply lookup_empty|].
        intros Hin. apply Hk'. apply list_elem_of_fmap in Hin as (g' & -> & Hg').
        apply Hm in Hg' as [_ Hg']. apply list_elem_of_fmap. eauto.
Qed.

End ChunkBlocks.

Section ChunkBlockTheorems.
Variables (fs : filesystem) (self : IOHandlerBoxlib F).

(** X10: when the field order table has no repeated entry, grid ids are
    distinct and every grid of the chunk that has a path names an existing
    file that holds its blocks, [_read_chunk_data] returns a dictionary
    with one entry per grid that has a path and no other.  A grid's entry
    has, for every requested field that the table lists at position [k],
    the [k]-th block of [count] items after the grid's offset in the
    grid's file, and nothing for any other field. *)
Theorem read_chunk_data_blocks (fields : list FieldKey) (chunk : Chunk F)
    (tr : trace F) :
  0 < itemsize (_dtype (index (ds self))) ->
  NoDup (field_order (index (ds self))) ->
  NoDup (id <$> objs chunk) ->
  (forall g, g ∈ objs chunk -> is_Some (filename g) -> stored fs self g) ->
  exists data tr',
    _read_chunk_data fs self chunk fields tr = (Ok data, tr')
    /\ (forall g, g ∈ objs chunk -> is_Some (filename g) ->
          exists bs d, grid_bytes fs g = Some bs /\ data !! id g = Some d
                       /\ forall field,
                            d !! field = expected_block self fields bs g field)
    /\ (forall g, g ∈ objs chunk -> filename g = None -> data !! id g = None)
    /\ (forall key, key ∉ id <$> objs chunk -> data !! key = None).
Proof. apply read_chunk_data_values. Qed.

(** X11: the dictionary [_read_chunk_data] returns does not depend on the
    order in which the chunk lists its grids. *)
Theorem read_chunk_data_grid_order (fields : list FieldKey)
    (chunk chunk' : Chunk F) (tr : trace F) :
  0 < itemsize (_dtype (index (ds self))) ->
  NoDup (field_order (index (ds self))) ->
  NoDup (id <$> objs chunk) ->
  (forall g, g ∈ objs chunk -> is_Some (filename g) -> stored fs self g) ->
  objs chunk' ≡ₚ objs chunk ->
  exists data,
    (_read_chunk_data fs self chunk fields tr).1 = Ok data
    /\ (_read_chunk_data fs self chunk' fields tr).1 = Ok data.
Proof.
  intros Hw Hord Hnd Hst Hperm.
  destruct (read_chunk_data_values fs self fields chunk tr Hw Hord Hnd Hst)
    as (data & tr1 & E1 & Hr1 & Hn1 & Hk1).
  destruct (read_chunk_data_values fs self fields chunk' tr Hw Hord)
    as (data' & tr2 & E2 & Hr2 & Hn2 & Hk2).
  { now rewrite Hperm. }
  { intros g Hg. apply Hst. now rewrite <- Hperm. }
  exists data. rewrite E1, E2. split; [reflexivity|]. simpl. f_equal.
  apply map_eq. intros key.
  destruct (decide (key ∈ id <$> objs chunk)) as [Hin|Hnin].
  - apply list_elem_of_fmap in Hin as (g & -> & Hg).
    assert (Hg' : g ∈ objs chunk') by now rewrite Hperm.
    destruct (filename g) as [fn|] eqn:Hfn.
    + destruct (Hr1 g Hg) as (bs & d & Hbs & -> & Hv); [rewrite Hfn; eauto|].
      destruct (Hr2 g Hg') as (bs' & d' & Hbs' & -> & Hv'); [rewrite Hfn; eauto|].
      f_equal. apply map_eq. intros field. rewrite Hv, Hv'. congruence.
    + now rewrite (Hn1 g Hg Hfn), (Hn2 g Hg' Hfn).
  - rewrite (Hk1 _ Hnin). apply Hk2. now rewrite Hperm.
Qed.

(** X12: what [_read_chunk_data] stores under a requested field does not
    depend on which other fields are requested with it. *)
Theorem read_chunk_data_field_independent (fields fields' : list FieldKey)
    (field : FieldKey) (chunk : Chunk F) (tr : trace F) :
  0 < itemsize (_dtype (index (ds self))) ->
  NoDup (field_order (index (ds self))) ->
  NoDup (id <$> objs chunk) ->
  (forall g, g ∈ objs chunk -> is_Some (filename g) -> stored fs self g) ->
  field ∈ fields -> field ∈ fields' ->
  exists data data',
    (_read_chunk_data fs self chunk fields tr).1 = Ok data
    /\ (_read_chunk_data fs self chunk fields' tr).1 = Ok data'
    /\ dom data = dom data'
    /\ forall key d d',
         data !! key = Some d -> data' !! key = Some d' ->
         d !! field = d' !! field.
Proof.
  intros Hw Hord Hnd Hst Hf Hf'.
  destruct (read_chunk_data_values fs self fields chunk tr Hw Hord Hnd Hst)
    as (data & tr1 & E1 & Hr1 & Hn1 & Hk1).
  destruct (read_chunk_data_values fs self fields' chunk tr Hw Hord Hnd Hst)
    as (data' & tr2 & E2 & Hr2 & Hn2 & Hk2).
  exists data, data'. rewrite E1, E2. split; [reflexivity|]. split; [reflexivity|].
  assert (Hcase : forall key,
            (data !! key = None /\ data' !! key = None)
            \/ exists g bs d d', key = id g /\ data !! key = Some d
                 /\ data' !! key = Some d'
                 /\ (forall fld, d !! fld = expected_block self fields bs g fld)
                 /\ (forall fld, d' !! fld = expected_block self fields' bs g fld)).
  { intros key. destruct (decide (key ∈ id <$> objs chunk)) as [Hin|Hnin];
      [|left; split; auto].
    apply list_elem_of_fmap in Hin as (g & -> & Hg).
    destruct (filename g) as [fn|] eqn:Hfn; [|left; split; auto].
    destruct (Hr1 g Hg) as (bs & d0 & Hbs & Hd0 & Hv); [rewrite Hfn; eauto|].
    destruct (Hr2 g Hg) as (bs' & d0' & Hbs' & Hd0' & Hv'); [rewrite Hfn; eauto|].
    right. exists g, bs, d0, d0'. repeat split; try done.
    intros fld. rewrite Hv'. congruence. }
  split.
  - apply set_eq. intros key. rewrite !elem_of_dom.
    destruct (Hcase key) as [[-> ->]|(g & bs & d & d' & _ & -> & -> & _)]; [done|].
    split; eauto.
  - intros key d d' Hd Hd'.
    destruct (Hcase key) as [[Hn _]|(g & bs & d0 & d0' & _ & H0 & H0' & Hv & Hv')];
      [congruence|].
    assert (d0 = d) as -> by congruence. assert (d0' = d') as -> by congruence.
    rewrite Hv, Hv'. unfold expected_block. now rewrite !decide_True by done.
Qed.

End ChunkBlockTheorems.

(** ** The selected values *)

Lemma holds_length (size : nat) (vals : list F) (dest : list (option F)) :
  holds size vals dest -> length vals <= size -> length dest = size.
Proof.
  intros -> Hle. rewrite length_app, length_fmap, length_replicate. lia.
Qed.

Lemma holds_write_at (size : nat) (vals new : list F) (dest : list (option F)) :
  holds size vals dest -> length vals + length new <= size ->
  holds size (vals ++ new) (write_at dest (length vals) new).
Proof.
  intros -> Hle. unfold holds, write_at.
  rewrite take_app_length' by (now rewrite length_fmap).
  rewrite drop_app_add' by (now rewrite length_fmap).
  rewrite drop_replicate, fmap_app, length_app, <- app_assoc.
  do 2 f_equal. f_equal. lia.
Qed.

Lemma length_selected_cells (sel : Selector F) (g : Grid F) (v : ndarray F) :
  length (flat v) = prod (ActiveDimensions g) ->
  length (selected_cells sel g v) = count_selected sel g.
Proof.
  intros Hlen. unfold selected_cells, cell_mask, count_selected.
  now rewrite length_masked, Hlen.
Qed.

Lemma grid_select_values (g : Grid F) (sel : Selector F) (source : ndarray F)
    (dest : list (option F)) (size : nat) (vals : list F) (tr : trace F) :
  length (flat source) = prod (ActiveDimensions g) ->
  holds size vals dest -> length vals + count_selected sel g <= size ->
  exists dest',
    grid_select g sel source dest (length vals) tr
    = (Ok (dest', count_selected sel g), tr)
    /\ holds size (vals ++ selected_cells sel g source) dest'.
Proof.
  intros Hsrc Hh Hle. pose proof (length_selected_cells sel g source Hsrc) as Hc.
  unfold grid_select. fold (selected_cells sel g source). rewrite Hc.
  destruct (Nat.eqb (count_selected sel g) 0) eqn:E0.
  - apply Nat.eqb_eq in E0. rewrite E0 in *. exists dest. split; [reflexivity|].
    destruct (selected_cells sel g source); [|discriminate].
    now rewrite app_nil_r.
  - rewrite decide_True by (rewrite (holds_length size vals dest Hh); lia).
    eexists. split; [reflexivity|]. apply holds_write_at; [exact Hh|lia].
Qed.

Lemma holds_for_ext (size : nat) (ks : list FieldKey) (V V' : FieldKey -> list F)
    (ind : nat) (rv : fluid_rv) :
  (forall f, f ∈ ks -> V f = V' f) ->
  holds_for size ks V ind rv -> holds_for size ks V' ind rv.
Proof.
  intros Heq Hh f Hf. destruct (Hh f Hf) as (dest & Hd & Hv & Hl).
  exists dest. now rewrite <- (Heq f Hf).
Qed.

Lemma field_position_elem (field : FieldKey) (order : list FieldKey) :
  field ∈ order ->
  exists k, field_position field order = Some k /\ k < length order.
Proof.
  induction order as [|f order IH]; intros Hin; [by apply elem_of_nil in Hin|].
  simpl. destruct (decide (f = field)) as [->|Hne].
  - exists 0. split; [reflexivity|lia].
  - apply elem_of_cons in Hin as [->|Hin]; [done|].
    destruct (IH Hin) as (k & -> & Hk). exists (S k). split; [reflexivity|lia].
Qed.

Section SelectedValues.
Variables (fs : filesystem) (self : IOHandlerBoxlib F) (selector : Selector F)
          (fields : list FieldKey) (size : nat).

Let order := field_order (index (ds self)).

Lemma select_fields_values (g : Grid F) (ind : nat) (todo : list FieldKey)
    (V : FieldKey -> list F) (B : FieldKey -> ndarray F)
    (rv : fluid_rv) (nd : option nat) (data : chunk_data)
    (d : gmap FieldKey (ndarray F)) (tr : trace F) :
  NoDup todo ->
  data !! id g = Some d ->
  (forall f, f ∈ todo ->
     d !! f = Some (B f) /\ length (flat (B f)) = prod (ActiveDimensions g)) ->
  holds_for size todo V ind rv ->
  ind + count_selected selector g <= size ->
  exists rv' data',
    for_each todo (select_field g selector ind) (rv, nd, data) tr
    = (Ok (rv', match todo with [] => nd | _ => Some (count_selected selector g) end,
           data'), tr)
    /\ holds_for size todo (fun f => V f ++ selected_cells selector g (B f))
                 (ind + count_selected selector g) rv'
    /\ (forall k, k ∉ todo -> rv' !! k = rv !! k)
    /\ is_Some (data' !! id g)
    /\ (forall k, k ≠ id g -> data' !! k = data !! k).
Proof.
  revert rv nd data d.
  induction todo as [|f todo IH]; intros rv nd data d Hnd Hd Hblk Hrv Hle.
  - exists rv, data. split; [reflexivity|]. split; [|split; [done|split; [eauto|done]]].
    intros f Hf. by apply elem_of_nil in Hf.
  - apply NoDup_cons in Hnd as [Hf Hnd].
    destruct (Hblk f) as (Hv & Hlen); [by left|].
    destruct (Hrv f) as (dest & Hdest & Hfill & Hind); [by left|].
    destruct (grid_select_values g selector (B f) dest size (V f) tr Hlen Hfill)
      as (dest' & Es & Hfill'); [lia|]. rewrite Hind in Es.
    destruct (IH (<[f := dest']> rv) (Some (count_selected selector g))
                (<[id g := delete f d]> data) (delete f d) Hnd)
      as (rv' & data' & E & Hfilled & Hother & Hsome & Hkeep).
    + apply lookup_insert_eq.
    + intros f' Hf'. destruct (Hblk f') as (Hv' & Hlen'); [by right|].
      split; [|exact Hlen'].
      rewrite lookup_delete_ne; [exact Hv'|]. intros ->. contradiction.
    + intros f' Hf'. destruct (Hrv f') as (dest0 & Hd0 & Hf0); [by right|].
      exists dest0. split; [|exact Hf0].
      rewrite lookup_insert_ne; [exact Hd0|]. intros ->. contradiction.
    + exact Hle.
    + exists rv', data'. split; [|split; [|split; [|split]]].
      * rewrite for_each_cons.
        assert (E1 : select_field g selector ind f (rv, nd, data) tr
                     = (Ok (<[f := dest']> rv, Some (count_selected selector g),
                            <[id g := delete f d]> data), tr)).
        { unfold select_field, pop_field. rewrite Hd, Hv.
          unfold bind at 1, ret at 1. rewrite Hdest.
          now rewrite (bind_ok _ _ _ _ _ Es). }
        rewrite (bind_ok _ _ _ _ _ E1). rewrite E. now destruct todo.
      * intros f' Hf'. apply elem_of_cons in Hf' as [->|Hf']; [|auto].
        exists dest'. split; [|split; [exact Hfill'|]].
        -- rewrite (Hother _ Hf). apply lookup_insert_eq.
        -- rewrite length_app, Hind. f_equal.
           now apply length_selected_cells.
      * intros k Hk. apply not_elem_of_cons in Hk as [Hne Hk].
        rewrite (Hother _ Hk). now apply lookup_insert_ne.
      * exact Hsome.
      * intros k Hk. rewrite (Hkeep _ Hk). now apply lookup_insert_ne.
Qed.

Lemma select_grid_values (g : Grid F) (V : FieldKey -> list F)
    (B : FieldKey -> ndarray F) (rv : fluid_rv) (ind : nat)
    (nd : option nat) (data : chunk_data) (d : gmap FieldKey (ndarray F))
    (tr : trace F) :
  fields ≠ [] -> NoDup fields ->
  data !! id g = Some d ->
  (forall f, f ∈ fields ->
     d !! f = Some (B f) /\ length (flat (B f)) = prod (ActiveDimensions g)) ->
  holds_for size fields V ind rv ->
  ind + count_selected selector g <= size ->
  exists rv' data',
    select_grid selector fields g (rv, ind, nd, data) tr
    = (Ok (rv', ind + count_selected selector g,
           Some (count_selected selector g), data'), tr)
    /\ holds_for size fields (fun f => V f ++ selected_cells selector g (B f))
                 (ind + count_selected selector g) rv'
    /\ (forall k, k ≠ id g -> data' !! k = data !! k).
Proof.
  intros Hne Hnd Hd Hblk Hrv Hle.
  destruct (select_fields_values g ind fields V B rv nd data d tr Hnd Hd Hblk Hrv Hle)
    as (rv' & data' & E & Hfilled & Hother & [d' Hd'] & Hkeep).
  exists rv', (delete (id g) data'). split; [|split; [exact Hfilled|]].
  - unfold select_grid. rewrite (bind_ok _ _ _ _ _ E).
    destruct fields as [|f0 fl]; [done|].
    unfold pop_grid. now rewrite Hd'.
  - intros k Hk. rewrite lookup_delete_ne by done. now apply Hkeep.
Qed.

Lemma select_grids_values (gs : list (Grid F)) (V : FieldKey -> list F)
    (B : Grid F -> FieldKey -> ndarray F) (rv : fluid_rv) (ind : nat)
    (nd : option nat) (data : chunk_data) (tr : trace F) :
  fields ≠ [] -> NoDup fields ->
  NoDup (id <$> gs) ->
  (forall g, g ∈ gs ->
     exists d, data !! id g = Some d
               /\ forall f, f ∈ fields ->
                    d !! f = Some (B g f)
                    /\ length (flat (B g f)) = prod (ActiveDimensions g)) ->
  holds_for size fields V ind rv ->
  ind + sum_list_with (count_selected selector) gs <= size ->
  exists rv' nd' data',
    for_each gs (select_grid selector fields) (rv, ind, nd, data) tr
    = (Ok (rv', ind + sum_list_with (count_selected selector) gs, nd', data'), tr)
    /\ holds_for size fields
         (fun f => V f ++ concat (map (fun g => selected_cells selector g (B g f)) gs))
         (ind + sum_list_with (count_selected selector) gs) rv'.
Proof.
  intros Hne Hnd. revert V rv ind nd data.
  induction gs as [|g gs IH]; intros V rv ind nd data Hids Hread Hrv Hle.
  - exists rv, nd, data. simpl. rewrite Nat.add_0_r. split; [reflexivity|].
    apply (holds_for_ext size fields V); [|exact Hrv].
    intros f _. now rewrite app_nil_r.
  - rewrite fmap_cons in Hids. apply NoDup_cons in Hids as [Hg Hids].
    simpl in Hle.
    destruct (Hread g) as (d & Hd & Hblk); [by left|].
    destruct (select_grid_values g V (B g) rv ind nd data d tr Hne Hnd Hd Hblk Hrv)
      as (rv1 & data1 & E1 & Hf1 & Hk1); [lia|].
    destruct (IH (fun f => V f ++ selected_cells selector g (B g f)) rv1
                (ind + count_selected selector g)
                (Some (count_selected selector g)) data1 Hids)
      as (rv2 & nd2 & data2 & E2 & Hf2).
    + intros g' Hg'. destruct (Hread g') as (d' & Hd' & Hok); [by right|].
      exists d'. split; [|exact Hok]. rewrite Hk1; [exact Hd'|].
      intros Heq. apply Hg. apply list_elem_of_fmap. exists g'. done.
    + exact Hf1.
    + lia.
    + exists rv2, nd2, data2. simpl sum_list_with. rewrite Nat.add_assoc.
      split.
      * rewrite for_each_cons. now rewrite (bind_ok _ _ _ _ _ E1).
      * apply (holds_for_ext size fields _ _ _ _ (fun f _ => eq_sym (app_assoc _ _ _))).
        exact Hf2.
Qed.

Lemma grid_block_expected (g : Grid F) (bs : list byte) (f : FieldKey) :
  grid_bytes fs g = Some bs -> f ∈ fields -> f ∈ order ->
  expected_block self fields bs g f = Some (grid_block fs self g f)
  /\ length (flat (grid_block fs self g f)) = prod (ActiveDimensions g).
Proof.
  intros Hbs Hf Ho. unfold expected_block, grid_block. fold order.
  rewrite decide_True by done. rewrite Hbs.
  destruct (field_position_elem f order Ho) as (k & -> & _). split; [reflexivity|].
  simpl. now rewrite length_map, length_split_items.
Qed.

Lemma select_chunks_values (chunks : list (Chunk F)) (V : FieldKey -> list F)
    (rv : fluid_rv) (ind : nat) (nd : option nat) (tr : trace F) :
  fields ≠ [] -> NoDup fields -> (forall f, f ∈ fields -> f ∈ order) ->
  NoDup order ->
  0 < itemsize (_dtype (index (ds self))) ->
  (forall c, c ∈ chunks -> NoDup (id <$> objs c)) ->
  (forall c g, c ∈ chunks -> g ∈ objs c -> stored fs self g) ->
  holds_for size fields V ind rv ->
  ind + total_selected selector chunks <= size ->
  exists rv' nd' tr',
    for_each chunks (select_chunk fs self selector fields) (rv, ind, nd) tr
    = (Ok (rv', ind + total_selected selector chunks, nd'), tr')
    /\ holds_for size fields
         (fun f => V f ++ selected_values fs self selector chunks f)
         (ind + total_selected selector chunks) rv'.
Proof.
  intros Hne Hnd Hsub Hord Hw. revert V rv ind nd tr.
  induction chunks as [|c chunks IH]; intros V rv ind nd tr Hids Hst Hrv Hle.
  - exists rv, nd, tr. unfold total_selected. simpl. rewrite Nat.add_0_r.
    split; [reflexivity|]. apply (holds_for_ext size fields V); [|exact Hrv].
    intros f _. unfold selected_values. simpl. now rewrite app_nil_r.
  - unfold total_selected in Hle |- *. simpl in Hle. simpl sum_list_with.
    fold (total_selected selector chunks) in Hle |- *.
    destruct (read_chunk_data_values fs self fields c tr Hw Hord)
      as (data & tr1 & Ed & Hread & _);
      [apply Hids; by left|intros g Hg _; apply (Hst c); [by left|exact Hg]|].
    destruct (select_grids_values (objs c) V (grid_block fs self) rv ind nd data tr1
                Hne Hnd)
      as (rv1 & nd1 & data1 & E1 & Hf1);
      [apply Hids; by left| |exact Hrv|lia|].
    { intros g Hg. destruct (Hread g Hg) as (bs & d & Hbs & Hd & Hv).
      { destruct (Hst c g) as (fn & bs & -> & _); [by left|exact Hg|eauto]. }
      exists d. split; [exact Hd|]. intros f Hf. rewrite Hv.
      apply grid_block_expected; [exact Hbs|exact Hf|auto]. }
    destruct (IH _ rv1 (ind + sum_list_with (count_selected selector) (objs c))
                nd1 tr1 ltac:(intros c' Hc'; apply Hids; by right)
                ltac:(intros c' g Hc'; apply Hst; by right) Hf1 ltac:(lia))
      as (rv2 & nd2 & tr2 & E2 & Hf2).
    exists rv2, nd2, tr2. rewrite Nat.add_assoc. split.
    + rewrite for_each_cons.
      assert (Ec : select_chunk fs self selector fields c (rv, ind, nd) tr
                   = (Ok (rv1, ind + sum_list_with (count_selected selector) (objs c),
                          nd1), tr1)).
      { unfold select_chunk. rewrite (bind_ok _ _ _ _ _ Ed).
        now rewrite (bind_ok _ _ _ _ _ E1). }
      now rewrite (bind_ok _ _ _ _ _ Ec).
    + apply (holds_for_ext size fields
               (fun f => (V f ++ concat (map (fun g => selected_cells selector g
                                                        (grid_block fs self g f))
                                             (objs c)))
                         ++ selected_values fs self selector chunks f));
        [|exact Hf2].
      intros f _. unfold selected_values. simpl.
      now rewrite map_app, concat_app, app_assoc.
Qed.

(** X13: under the conditions of the fill property, with a field order
    table without repeated entries and an output size of at least the
    number of selected cells, [_read_fluid_selection] returns under every
    requested field one segment per grid, chunk by chunk and grid by grid
    in the order given, each segment holding the selected cells of that
    field's block of the grid (in the order the grid's [select] writes
    them, which this file does not fix), followed by cells that were never
    written when [size] is larger than the number selected. *)
Theorem read_fluid_selection_values (chunks : list (Chunk F)) (tr : trace F) :
  fields ≠ [] -> NoDup fields ->
  (forall f, f ∈ fields -> f.1 = "boxlib") ->
  (forall f, f ∈ fields -> f ∈ field_order (index (ds self))) ->
  NoDup (field_order (index (ds self))) ->
  0 < itemsize (_dtype (index (ds self))) ->
  (forall c, c ∈ chunks -> NoDup (id <$> objs c)) ->
  (forall c g, c ∈ chunks -> g ∈ objs c -> stored fs self g) ->
  total_selected selector chunks <= size ->
  exists rv tr',
    _read_fluid_selection fs self chunks selector fields size tr = (Ok rv, tr')
    /\ forall f, f ∈ fields ->
         exists segments,
           Forall2 (fun g segment =>
                      segment ≡ₚ selected_cells selector g (grid_block fs self g f))
                   (flat_map objs chunks) segments
           /\ rv !! f
              = Some ((Some <$> concat segments)
                      ++ replicate (size - total_selected selector chunks) None).
Proof.
  intros Hne Hnd Hbox Hsub Hord Hw Hids Hst Hsize.
  unfold _read_fluid_selection. rewrite (all_boxlib_existsb fields Hbox).
  set (rv0 := fold_left _ fields ∅).
  destruct (select_chunks_values chunks (fun _ => []) rv0 0 None tr
              Hne Hnd Hsub Hord Hw Hids Hst)
    as (rv & nd & tr' & E & Hfill).
  - intros f Hf. exists (np_empty size). split; [|split; [|reflexivity]].
    + unfold rv0. rewrite np_empty_arrays_lookup. now rewrite decide_True.
    + unfold holds, np_empty. simpl. now rewrite Nat.sub_0_r.
  - lia.
  - exists rv, tr'. split; [now rewrite (bind_ok _ _ _ _ _ E)|].
    intros f Hf. destruct (Hfill f Hf) as (dest & Hd & Hh & Hl).
    exists (map (fun g => selected_cells selector g (grid_block fs self g f))
                (flat_map objs chunks)).
    split.
    + generalize (flat_map objs chunks). intros gs.
      induction gs as [|g gs IH]; simpl; constructor; [reflexivity|exact IH].
    + rewrite Hd, Hh. simpl in Hl |- *. now rewrite Hl.
Qed.

End SelectedValues.

(** ** Failures of the fluid reader *)

Lemma bind_cases {S A B : Type} (m : M S A) (k : A -> M S B) s e s' :
  bind m k s = (Raise e, s') ->
  m s = (Raise e, s') \/ exists a s1, m s = (Ok a, s1) /\ k a s1 = (Raise e, s').
Proof.
  unfold bind. destruct (m s) as [[a|e0] s0]; intros E; [right; eauto|left; now injection E as -> ->].
Qed.

Lemma for_each_returns {S A B : Type} (l : list A) (body : A -> B -> M S B) :
  (forall a b s, a ∈ l -> exists b' s', body a b s = (Ok b', s')) ->
  forall b s, exists b' s', for_each l body b s = (Ok b', s').
Proof.
  induction l as [|a l IH]; intros Hbody b s; [by exists b, s|].
  destruct (Hbody a b s) as (b1 & s1 & E1); [by left|].
  rewrite for_each_cons, (bind_ok _ _ _ _ _ E1).
  apply IH. intros a' b0 s0 Ha'. apply Hbody. by right.
Qed.

(** A loop whose states keep an invariant does not return when one of its
    turns raises from every state with the invariant. *)
Lemma for_each_raises_from {S A B : Type} (I : B -> Prop) (l : list A)
    (body : A -> B -> M S B) (a : A) :
  a ∈ l ->
  (forall a' b s b' s', I b -> body a' b s = (Ok b', s') -> I b') ->
  (forall b s, I b -> exists e s', body a b s = (Raise e, s')) ->
  forall b s, I b -> exists e s', for_each l body b s = (Raise e, s').
Proof.
  intros Hin Hkeep Hraise. induction l as [|a0 l IH]; intros b s Hb;
    [by apply elem_of_nil in Hin|].
  rewrite for_each_cons. unfold bind.
  destruct (body a0 b s) as [[b'|e] s'] eqn:E; [|eauto].
  apply elem_of_cons in Hin as [->|Hin].
  - destruct (Hraise b s Hb) as (e & s1 & E1). congruence.
  - apply IH; [exact Hin|]. exact (Hkeep _ _ _ _ _ Hb E).
Qed.

Section FluidFailures.
Variables (fs : filesystem) (self : IOHandlerBoxlib F) (fields : list FieldKey).

Let dtype := _dtype (index (ds self)).
Let bpr := itemsize dtype.
Let order := field_order (index (ds self)).

(** A block that the file cannot serve in full: the short array does not
    fit the grid's shape. *)
Lemma read_field_short (grid : Grid F) (size : nat) (field : FieldKey)
    (f : handle) (data : chunk_data) (lo : Z) (tr : trace F) :
  field ∈ fields -> 0 < bpr -> 0 < prod (ActiveDimensions grid) ->
  (0 <= h_pos f + lo)%Z ->
  length (h_data f)
    < Z.to_nat (h_pos f + lo) + prod (ActiveDimensions grid) * bpr ->
  exists tr',
    read_field fields dtype grid (prod (ActiveDimensions grid)) size field
               (f, data, lo) tr
    = (Raise ValueError, tr').
Proof.
  intros Hin Hw Hc Hpos Hlen. unfold read_field. rewrite decide_True by done.
  set (p := (h_pos f + lo)%Z) in *.
  assert (Es : seek f lo SEEK_CUR tr
               = (Ok {| h_name := h_name f; h_data := h_data f; h_pos := p |},
                  tr ++ [EvSeek (h_name f) SEEK_CUR lo])).
  { unfold seek. fold p.
    destruct (p <? 0)%Z eqn:E; [apply Z.ltb_lt in E; lia|reflexivity]. }
  rewrite (bind_ok _ _ _ _ _ Es).
  unfold np_fromfile, emit. cbn [h_pos h_data h_name].
  unfold bind at 1. unfold reshape_F.
  rewrite decide_False; [eexists; reflexivity|].
  rewrite length_map, length_split_items, length_drop. fold bpr.
  assert ((length (h_data f) - Z.to_nat p) `div` bpr
          < prod (ActiveDimensions grid)); [|lia].
  apply Nat.Div0.div_lt_upper_bound. unfold bpr, dtype in *. nia.
Qed.

Lemma read_fields_short (grid : Grid F) (todo : list FieldKey) (k0 : nat)
    (f : handle) (data : chunk_data) (lo : Z) (tr : trace F)
    (field : FieldKey) (k : nat) :
  0 < prod (ActiveDimensions grid) * bpr -> (0 <= _offset grid)%Z ->
  field ∈ fields -> field_position field todo = Some k ->
  (h_pos f + lo = _offset grid
                  + Z.of_nat (k0 * (prod (ActiveDimensions grid) * bpr)))%Z ->
  length (h_data f)
    < Z.to_nat (_offset grid)
      + (k0 + k + 1) * (prod (ActiveDimensions grid) * bpr) ->
  exists tr',
    for_each todo
      (read_field fields dtype grid (prod (ActiveDimensions grid))
                  (prod (ActiveDimensions grid) * bpr))
      (f, data, lo) tr
    = (Raise ValueError, tr').
Proof.
  intros Hsz Hoff Hin. assert (Hw : 0 < bpr) by (unfold bpr, dtype in *; nia).
  assert (Hc : 0 < prod (ActiveDimensions grid)) by nia.
  revert k0 f data lo tr k.
  induction todo as [|fld todo IH]; intros k0 f data lo tr k Hk Hpos Hlen;
    [discriminate|].
  rewrite for_each_cons. cbn [field_position] in Hk.
  assert (Hp0 : (0 <= h_pos f + lo)%Z) by lia.
  destruct (decide (Z.to_nat (h_pos f + lo) + prod (ActiveDimensions grid) * bpr
                    <= length (h_data f))) as [Hfit|Hshort].
  - destruct (decide (fld = field)) as [->|Hne].
    { injection Hk as <-. unfold bpr, dtype in *. lia. }
    destruct (field_position field todo) as [k'|] eqn:Hk'; [|discriminate].
    injection Hk as <-.
    destruct (decide (fld ∈ fields)) as [Hf|Hf].
    + pose proof (read_field_requested self fields grid
                    (prod (ActiveDimensions grid) * bpr) fld f data lo tr
                    Hf Hw Hp0 Hfit) as Es.
      rewrite (bind_ok _ _ _ _ _ Es).
      apply (IH (S k0) _ _ _ _ k' eq_refl).
      * cbn [h_pos]. unfold bpr, dtype in *. lia.
      * cbn [h_data]. unfold bpr, dtype in *. lia.
    + rewrite (bind_ok _ _ _ _ _
                 (read_field_skipped self fields grid _ _ fld f _ lo tr Hf)).
      apply (IH (S k0) _ _ _ _ k' eq_refl); unfold bpr, dtype in *; lia.
  - destruct (decide (fld ∈ fields)) as [Hf|Hf].
    + destruct (read_field_short grid (prod (ActiveDimensions grid) * bpr)
                  fld f data lo tr Hf Hw Hc Hp0) as [tr' E]; [lia|].
      exists tr'. now apply bind_raise.
    + destruct (decide (fld = field)) as [->|Hne]; [contradiction|].
      destruct (field_position field todo) as [k'|] eqn:Hk'; [|discriminate].
      injection Hk as <-.
      rewrite (bind_ok _ _ _ _ _
                 (read_field_skipped self fields grid _ _ fld f _ lo tr Hf)).
      apply (IH (S k0) _ _ _ _ k' eq_refl); unfold bpr, dtype in *; lia.
Qed.

Lemma read_grid_short (grid : Grid F) (f : handle) (data : chunk_data)
    (tr : trace F) (field : FieldKey) (k : nat) :
  0 < prod (ActiveDimensions grid) * bpr -> (0 <= _offset grid)%Z ->
  field ∈ fields -> field_position field order = Some k ->
  length (h_data f)
    < Z.to_nat (_offset grid) + (k + 1) * (prod (ActiveDimensions grid) * bpr) ->
  exists tr', read_grid self fields grid (f, data) tr = (Raise ValueError, tr').
Proof.
  intros Hsz Hoff Hin Hk Hlen. unfold read_grid, _get_offset, tell.
  fold dtype. fold bpr. fold order.
  destruct (read_fields_short grid order 0 f (<[id grid := ∅]> data)
              (_offset grid - h_pos f)%Z tr field k Hsz Hoff Hin Hk)
    as [tr' E]; [lia|exact Hlen|].
  exists tr'. now apply bind_raise.
Qed.

Lemma read_grid_keeps_file (grid : Grid F) (f f' : handle)
    (data data' : chunk_data) (tr tr' : trace F) :
  read_grid self fields grid (f, data) tr = (Ok (f', data'), tr') ->
  h_data f' = h_data f.
Proof.
  unfold read_grid. fold dtype. fold bpr. fold order.
  generalize (<[id grid := ∅]> data) (_get_offset grid f - tell f)%Z.
  intros d0 lo0.
  assert (G : forall todo f d lo tr f' d' lo' tr',
            for_each todo
              (read_field fields dtype grid (prod (ActiveDimensions grid))
                          (prod (ActiveDimensions grid) * bpr))
              (f, d, lo) tr = (Ok (f', d', lo'), tr') ->
            h_data f' = h_data f).
  { induction todo as [|fld todo IH]; intros f1 d lo tr1 f2 d2 lo2 tr2 E.
    - now injection E as <- _ _ _.
    - rewrite for_each_cons in E. unfold bind at 1 in E.
      destruct (read_field _ _ _ _ _ fld (f1, d, lo) tr1)
        as [[[[f3 d3] lo3]|e] tr3] eqn:E1; [|discriminate].
      rewrite (IH _ _ _ _ _ _ _ _ E). clear E IH.
      unfold read_field in E1. destruct (decide (fld ∈ fields)).
      + unfold seek, np_fromfile, reshape_F, emit, bind, ret, raise in E1.
        cbn [h_pos h_data h_name] in E1.
        destruct (_ <? 0)%Z; [discriminate|].
        destruct (decide _); [|discriminate].
        now injection E1 as <- _ _ _.
      + now injection E1 as <- _ _ _. }
  intros E. unfold bind in E.
  destruct (for_each order _ (f, d0, lo0) tr) as [[[[f1 d1] lo1]|e] tr1] eqn:E1;
    [|discriminate].
  injection E as <- _ _. exact (G _ _ _ _ _ _ _ _ _ E1).
Qed.

(** The chunk reader does not return when one of the chunk's grids is
    unreadable. *)
Lemma read_chunk_data_raises (chunk : Chunk F) (g : Grid F) :
  g ∈ objs chunk -> unreadable fs self fields g ->
  forall tr, exists e tr',
    _read_chunk_data fs self chunk fields tr = (Raise e, tr').
Proof.
  intros Hg (fn & Hfn & Hbad) tr. unfold _read_chunk_data.
  destruct (Nat.eqb (length (objs chunk)) 0) eqn:E0.
  { apply Nat.eqb_eq in E0. destruct (objs chunk); [|discriminate].
    by apply elem_of_nil in Hg. }
  destruct (group_by_file_grid (objs chunk) g fn Hg Hfn) as (grids & Hgr & Hin).
  apply (for_each_raises _ _ (fn, grids) Hgr). intros data tr0.
  unfold open_file. destruct (fs !! fn) as [bs|] eqn:Hbs; [|by eexists _, _].
  destruct Hbad as (Hoff & Hsz & field & k & Hf & Hk & Hlen).
  unfold emit, bind at 1.
  destruct (for_each_raises_from (fun st : handle * chunk_data => h_data st.1 = bs)
              (sort_by_offset grids) (read_grid self fields) g)
    with (b := ({| h_name := fn; h_data := bs; h_pos := 0 |}, data))
         (s := tr0 ++ [EvOpen fn]) as (e & tr' & E).
  - now rewrite sort_by_offset_perm.
  - intros g' [f0 d0] s0 [f1 d1] s1 Hb E. simpl in *.
    rewrite <- Hb. exact (read_grid_keeps_file _ _ _ _ _ _ _ E).
  - intros [f0 d0] s0 Hb. simpl in Hb. exists ValueError.
    apply (read_grid_short g f0 d0 s0 field k); try done.
    now rewrite Hb.
  - reflexivity.
  - exists e, tr'. now apply bind_raise.
Qed.

(** Whatever the inputs, a failure of the chunk reader is one of opening
    or seeking in a file, or of fitting a block to the grid's shape. *)
Lemma read_chunk_data_failures (chunk : Chunk F) (tr tr' : trace F) (e : exn) :
  _read_chunk_data fs self chunk fields tr = (Raise e, tr') ->
  e = IOError \/ e = ValueError.
Proof.
  unfold _read_chunk_data. destruct (Nat.eqb _ 0); [discriminate|].
  apply (for_each_exceptions (fun e => e = IOError \/ e = ValueError)).
  clear. intros [fn grids] data s e s' E.
  apply bind_cases in E as [E|(f & s1 & _ & E)].
  { unfold open_file in E. destruct (fs !! fn); [discriminate|].
    injection E as <- _. by left. }
  apply bind_cases in E as [E|([f' d'] & s2 & _ & E)]; [|discriminate].
  revert E. apply (for_each_exceptions (fun e => e = IOError \/ e = ValueError)).
  clear. intros g [f d] s e s' E. unfold read_grid in E.
  apply bind_cases in E as [E|([[f' d'] lo'] & s2 & _ & E)]; [|discriminate].
  revert E. apply (for_each_exceptions (fun e => e = IOError \/ e = ValueError)).
  clear. intros fld [[f d] lo] s e s' E. unfold read_field in E.
  destruct (decide (fld ∈ fields)); [|discriminate].
  apply bind_cases in E as [E|(f1 & s1 & _ & E)].
  { unfold seek in E. destruct (_ <? 0)%Z; [|discriminate].
    injection E as <- _. by left. }
  apply bind_cases in E as [E|([f2 v] & s2 & _ & E)]; [discriminate|].
  apply bind_cases in E as [E|(v' & s3 & _ & E)]; [|discriminate].
  unfold reshape_F in E. destruct (decide _); [discriminate|].
  injection E as <- _. by right.
Qed.

End FluidFailures.

Section FluidFailureTheorems.
Variables (fs : filesystem) (self : IOHandlerBoxlib F).

(** X14: whatever the chunk and the requested fields, [_read_chunk_data]
    fails only with an I/O error (a file that cannot be opened, a seek
    before the start of the file) or with the [ValueError] of a block that
    does not fit the grid's shape; in particular it never raises
    [KeyError]. *)
Theorem read_chunk_data_raises_io_or_value_error (chunk : Chunk F)
    (fields : list FieldKey) (tr tr' : trace F) (e : exn) :
  _read_chunk_data fs self chunk fields tr = (Raise e, tr') ->
  e = IOError \/ e = ValueError.
Proof. apply read_chunk_data_failures. Qed.

(** X15: a grid of the chunk whose file is missing, or ends before the
    block of a requested field that the table lists, makes
    [_read_chunk_data] fail, with [IOError] or [ValueError], wherever the
    grid stands in the chunk. *)
Theorem read_chunk_data_unreadable_grid (chunk : Chunk F)
    (fields : list FieldKey) (g : Grid F) (tr : trace F) :
  g ∈ objs chunk -> unreadable fs self fields g ->
  exists e tr',
    _read_chunk_data fs self chunk fields tr = (Raise e, tr')
    /\ (e = IOError \/ e = ValueError).
Proof.
  intros Hg Hbad.
  destruct (read_chunk_data_raises fs self fields chunk g Hg Hbad tr)
    as (e & tr' & E).
  exists e, tr'. split; [exact E|].
  exact (read_chunk_data_failures fs self fields chunk tr tr' e E).
Qed.

(** X16: [_read_fluid_selection] returns no mapping when a grid of one of
    its chunks is unreadable: the failure of the chunk reader is not
    caught. *)
Theorem read_fluid_selection_unreadable_grid (chunks : list (Chunk F))
    (selector : Selector F) (fields : list FieldKey) (size : nat)
    (chunk : Chunk F) (g : Grid F) (tr : trace F) :
  chunk ∈ chunks -> g ∈ objs chunk -> unreadable fs self fields g ->
  exists e tr',
    _read_fluid_selection fs self chunks selector fields size tr = (Raise e, tr').
Proof.
  intros Hc Hg Hbad. unfold _read_fluid_selection.
  match goal with |- context [existsb ?p fields] =>
    destruct (existsb p fields); [by eexists _, _|] end.
  match goal with |- context [for_each chunks ?body ?st] =>
    assert (Hbody : forall b s, exists e s', body chunk b s = (Raise e, s'));
    [|destruct (for_each_raises chunks body chunk Hc Hbody st tr)
        as (e & tr' & E)] end.
  - intros [[rv ind] nd] s. unfold select_chunk.
    destruct (read_chunk_data_raises fs self fields chunk g Hg Hbad s)
      as (e & s' & E).
    exists e, s'. now apply bind_raise.
  - exists e, tr'. now apply bind_raise.
Qed.

(** X17: with an empty field list and a first chunk that has a grid and
    whose files all exist, [_read_fluid_selection] raises
    [UnboundLocalError]: the inner loop never binds [nd], which the
    statement [ind += nd] then reads. *)
Theorem read_fluid_selection_no_fields (chunk : Chunk F)
    (chunks : list (Chunk F)) (selector : Selector F) (size : nat)
    (tr : trace F) :
  objs chunk ≠ [] ->
  (forall g fn, g ∈ objs chunk -> filename g = Some fn -> is_Some (fs !! fn)) ->
  exists tr',
    _read_fluid_selection fs self (chunk :: chunks) selector [] size tr
    = (Raise UnboundLocalError, tr').
Proof.
  intros Hne Hfiles. unfold _read_fluid_selection. cbn [existsb fold_left].
  assert (Hd : exists data tr1,
             _read_chunk_data fs self chunk [] tr = (Ok data, tr1)).
  { unfold _read_chunk_data. destruct (Nat.eqb _ 0); [by eexists _, _|].
    apply for_each_returns. intros [fn grids] data s Hin.
    destruct (group_by_file_key _ _ _ Hin) as [Hgr Hall].
    destruct grids as [|g0 grids']; [done|].
    destruct (Hall g0) as [Hg0 Hf0]; [by left|].
    destruct (Hfiles g0 fn Hg0 Hf0) as [bs Hbs].
    unfold open_file. rewrite Hbs. unfold emit, bind at 1.
    destruct (for_each_returns (sort_by_offset (g0 :: grids'))
                (read_grid self []))
      with (b := ({| h_name := fn; h_data := bs; h_pos := 0 |}, data))
           (s := s ++ [EvOpen fn]) as ([f' d'] & s' & E).
    - intros g [f d] s0 _. unfold read_grid.
      destruct (for_each_returns (field_order (index (ds self)))
                  (read_field [] (_dtype (index (ds self))) g
                     (prod (ActiveDimensions g))
                     (prod (ActiveDimensions g)
                      * itemsize (_dtype (index (ds self))))))
        with (b := (f, <[id g := ∅]> d, (_get_offset g f - tell f)%Z))
             (s := s0) as ([[f1 d1] lo1] & s1 & E1).
      + intros fld [[f1 d1] lo1] s1 _. unfold read_field.
        rewrite decide_False by apply not_elem_of_nil. by eexists _, _.
      + rewrite (bind_ok _ _ _ _ _ E1). by eexists _, _.
    - rewrite (bind_ok _ _ _ _ _ E). by eexists _, _. }
  destruct Hd as (data & tr1 & Ed). exists tr1.
  rewrite for_each_cons, ?bind_assoc. unfold select_chunk at 1.
  rewrite ?bind_assoc, (bind_ok _ _ _ _ _ Ed).
  destruct (objs chunk) as [|g gs]; [done|].
  rewrite for_each_cons, ?bind_assoc. unfold select_grid at 1.
  reflexivity.
Qed.

End FluidFailureTheorems.

(** ** The files a chunk read opens *)

Lemma opened_app (tr tr' : trace F) : opened (tr ++ tr') = opened tr ++ opened tr'.
Proof. apply omap_app. Qed.

Lemma dd_append_keys (fn : string) (g : Grid F) (d : list (string * list (Grid F))) :
  (dd_append fn g d).*1 = if decide (fn ∈ d.*1) then d.*1 else d.*1 ++ [fn].
Proof.
  induction d as [|[k gs] d IH]; [reflexivity|].
  cbn [dd_append]. destruct (decide (k = fn)) as [->|Hne];
    rewrite !fmap_cons; cbn [fst].
  - destruct (decide (fn ∈ fn :: d.*1)) as [_|Hn]; [reflexivity|].
    exfalso. apply Hn. by left.
  - rewrite IH. destruct (decide (fn ∈ d.*1)) as [Hin|Hnin];
      destruct (decide (fn ∈ k :: d.*1)) as [Hin'|Hnin']; try reflexivity.
    + exfalso. apply Hnin'. by right.
    + apply elem_of_cons in Hin' as [?|?]; congruence.
Qed.

Lemma group_by_file_keys_NoDup (gs : list (Grid F)) : NoDup (group_by_file gs).*1.
Proof.
  unfold group_by_file.
  assert (G : forall d : list (string * list (Grid F)), NoDup d.*1 ->
            NoDup (fold_left (fun d g => match filename g with
                                         | None => d
                                         | Some fn => dd_append fn g d
                                         end) gs d).*1).
  { induction gs as [|g gs IH]; intros d Hd; simpl; [exact Hd|].
    apply IH. destruct (filename g) as [fn|]; [|exact Hd].
    rewrite dd_append_keys. destruct (decide (fn ∈ d.*1)) as [Hin|Hnin]; [exact Hd|].
    apply NoDup_app. split; [exact Hd|]. split; [|apply NoDup_singleton].
    intros x Hx Hx'. apply list_elem_of_singleton in Hx' as ->. contradiction. }
  apply G. constructor.
Qed.

Section OpenedFiles.
Variables (fs : filesystem) (self : IOHandlerBoxlib F) (fields : list FieldKey).

Lemma read_field_opened (dtype : DType F) (grid : Grid F) (count size : nat)
    (field : FieldKey) (st : handle * chunk_data * Z) (tr : trace F) :
  opened (read_field fields dtype grid count size field st tr).2 = opened tr.
Proof.
  destruct st as [[f data] lo]. unfold read_field.
  destruct (decide (field ∈ fields)); [|reflexivity].
  unfold seek, np_fromfile, reshape_F, emit, bind, ret, raise.
  destruct (_ <? 0)%Z; [reflexivity|]. cbn [h_pos h_data h_name].
  destruct (decide _); simpl; rewrite !opened_app; simpl; now rewrite !app_nil_r.
Qed.

Lemma read_grid_opened (grid : Grid F) (st : handle * chunk_data) (tr : trace F) :
  opened (read_grid self fields grid st tr).2 = opened tr.
Proof.
  destruct st as [f data]. unfold read_grid.
  match goal with |- context [for_each ?l ?body ?st] =>
    pose proof (for_each_preserves (fun s s' : trace F => opened s' = opened s)
                  l body (fun _ => eq_refl)
                  (fun s1 s2 s3 H12 H23 => eq_trans H23 H12)
                  (fun a0 b0 s0 _ => read_field_opened _ _ _ _ a0 b0 s0) st tr)
      as Hl;
    unfold bind; destruct (for_each l body st tr) as [[[[f' d'] lo']|e] tr'] end;
    exact Hl.
Qed.

Lemma read_file_opened (fn : string) (gs : list (Grid F)) (data : chunk_data)
    (tr : trace F) :
  let run :=
    (let* f := open_file fs fn in
     let* (_, data) :=
       for_each (sort_by_offset gs) (read_grid self fields) (f, data) in
     ret data) tr in
  match run.1 with
  | Ok _ => opened run.2 = opened tr ++ [fn]
  | Raise _ => opened run.2 = opened tr \/ opened run.2 = opened tr ++ [fn]
  end.
Proof.
  cbv zeta. unfold open_file. destruct (fs !! fn) as [bs|]; [|by left].
  unfold emit. unfold bind at 1.
  pose proof (for_each_preserves (fun s s' : trace F => opened s' = opened s)
                (sort_by_offset gs) (read_grid self fields) (fun _ => eq_refl)
                (fun s1 s2 s3 H12 H23 => eq_trans H23 H12)
                (fun a0 b0 s0 _ => read_grid_opened a0 b0 s0)
                ({| h_name := fn; h_data := bs; h_pos := 0 |}, data)
                (tr ++ [EvOpen fn])) as Hl.
  cbv beta in Hl. rewrite opened_app in Hl. unfold bind.
  destruct (for_each (sort_by_offset gs) (read_grid self fields) _ _)
    as [[[f' data1]|e] tr1]; simpl in *; [exact Hl|right; exact Hl].
Qed.

Lemma read_files_opened (groups : list (string * list (Grid F)))
    (data : chunk_data) (tr : trace F) :
  let run := for_each groups
      (fun '(filename, grids) data =>
         let grids := sort_by_offset grids in
         let* f := open_file fs filename in
         let* (_, data) := for_each grids (read_grid self fields) (f, data) in
         ret data)
      data tr in
  exists n,
    opened run.2 = opened tr ++ take n groups.*1
    /\ (forall data', run.1 = Ok data' -> n = length groups).
Proof.
  cbv zeta. revert data tr.
  induction groups as [|[fn gs] groups IH]; intros data tr.
  - exists 0. simpl. now rewrite app_nil_r.
  - rewrite for_each_cons. pose proof (read_file_opened fn gs data tr) as Hf.
    cbv zeta in Hf.
    destruct ((let* f := open_file fs fn in
               let* (_, data) :=
                 for_each (sort_by_offset gs) (read_grid self fields) (f, data) in
               ret data) tr) as [[data1|e] tr1] eqn:E1; simpl in Hf.
    + rewrite !(bind_ok _ _ _ _ _ E1).
      destruct (IH data1 tr1) as (n & Ho & Hn). exists (S n).
      split; [|intros data' E; simpl; f_equal; exact (Hn data' E)].
      rewrite Ho, Hf. simpl. now rewrite <- app_assoc.
    + rewrite !(bind_raise _ _ _ _ _ E1).
      destruct Hf as [Hf|Hf]; [exists 0|exists 1]; (split; [|discriminate]);
        simpl; rewrite Hf; [now rewrite app_nil_r|now rewrite take_0].
Qed.

End OpenedFiles.

(** X18: in one call [_read_chunk_data] opens no file twice, and only
    files that a grid of the chunk names; when it returns, it has opened
    every file that a grid of the chunk names. *)
Theorem read_chunk_data_opens_each_file_once (fs : filesystem)
    (self : IOHandlerBoxlib F) (chunk : Chunk F) (fields : list FieldKey)
    (tr : trace F) :
  let run := _read_chunk_data fs self chunk fields tr in
  exists fns,
    opened run.2 = opened tr ++ fns
    /\ NoDup fns
    /\ (forall fn, fn ∈ fns -> exists g, g ∈ objs chunk /\ filename g = Some fn)
    /\ (forall data g fn, run.1 = Ok data ->
          g ∈ objs chunk -> filename g = Some fn -> fn ∈ fns).
Proof.
  unfold _read_chunk_data. destruct (Nat.eqb (length (objs chunk)) 0) eqn:E0.
  - apply Nat.eqb_eq in E0. destruct (objs chunk) as [|g0 gs]; [|discriminate].
    exists []. simpl. rewrite app_nil_r. split; [reflexivity|].
    split; [constructor|]. split.
    + intros fn Hin. by apply elem_of_nil in Hin.
    + intros data g fn _ Hg. by apply elem_of_nil in Hg.
  - destruct (read_files_opened fs self fields (group_by_file (objs chunk)) ∅ tr)
      as (n & Ho & Hn).
    exists (take n (group_by_file (objs chunk)).*1). split; [exact Ho|].
    split; [|split].
    + apply (sublist_NoDup _ _ (group_by_file_keys_NoDup (objs chunk))).
      apply sublist_take.
    + intros fn Hin.
      apply (fun H => elem_of_sublist _ _ _ H (sublist_take _ _)) in Hin.
      apply list_elem_of_fmap in Hin as ([fn' grids] & -> & Hin).
      destruct (group_by_file_key _ _ _ Hin) as [Hne Hall].
      destruct grids as [|g0 grids]; [done|].
      exists g0. apply Hall. by left.
    + intros data g fn E Hg Hfn. rewrite (Hn data E).
      rewrite <- (length_fmap fst), firstn_all.
      destruct (group_by_file_grid (objs chunk) g fn Hg Hfn) as (grids & Hin & _).
      apply list_elem_of_fmap. now exists (fn, grids).
Qed.

(** ** Grids without particles *)

Lemma for_each_fixed {S A B : Type} (l : list A) (body : A -> B -> M S B) b s :
  (forall a, a ∈ l -> body a b s = (Ok b, s)) ->
  for_each l body b s = (Ok b, s).
Proof.
  induction l as [|a l IH]; intros Hbody; [reflexivity|].
  rewrite for_each_cons, (bind_ok _ _ _ _ _ (Hbody a (list_elem_of_here _ _))).
  apply IH. intros a' Ha'. apply Hbody. by right.
Qed.

Lemma prepend_nothing {S : Type} (fields : list FieldKey) (key : FieldKey) (s : S) :
  key ∈ fields ->
  prepend (F:=F) key (Some []) (empty_arrays fields) s = (Ok (empty_arrays fields), s).
Proof.
  intros Hin. unfold prepend.
  rewrite empty_arrays_lookup, decide_True by done. simpl. unfold ret.
  rewrite insert_id; [reflexivity|].
  now rewrite empty_arrays_lookup, decide_True.
Qed.

(** X19: when no grid holds a particle of any type the loops visit,
    [_read_particle_selection] returns an empty array for every requested
    field and touches no file, whatever the field names are. *)
Theorem read_particle_selection_no_particles (fs : filesystem)
    (self : IOHandlerBoxlib F) (selector : Selector F)
    (chunks : list (Chunk F)) (fields : list FieldKey) (tr : trace F) :
  (forall chunk grid ftype fname subtype,
     chunk ∈ chunks -> grid ∈ objs chunk -> (ftype, fname) ∈ fields ->
     subtype ∈ visited_types self ftype ->
     exists pdata, _pdata grid !! subtype = Some pdata
                   /\ NumberOfParticles pdata = 0) ->
  _read_particle_selection fs self chunks selector fields tr
  = (Ok (empty_arrays fields), tr).
Proof.
  intros Hnone. unfold _read_particle_selection.
  apply for_each_fixed. intros chunk Hc.
  apply for_each_fixed. intros grid Hg.
  apply for_each_fixed. intros [ftype fname] Hf.
  assert (Hread : forall subtype, subtype ∈ visited_types self ftype ->
            _read_particles fs self grid selector subtype fname tr
            = (Ok (Some []), tr)).
  { intros subtype Hs.
    destruct (Hnone chunk grid ftype fname subtype Hc Hg Hf Hs) as (pdata & Hp & Hn).
    unfold _read_particles. now rewrite Hp, Hn. }
  unfold read_particle_field, visited_types in *.
  destruct (particle_unions (ds self) !! ftype) as [subtypes|].
  - apply for_each_fixed. intros subtype Hs.
    rewrite (bind_ok _ _ _ _ _ (Hread subtype Hs)). now apply prepend_nothing.
  - rewrite (bind_ok _ _ _ _ _ (Hread ftype (list_elem_of_here _ _))).
    now apply prepend_nothing.
Qed.

(** X20: when no grid has particles, the Orion reader returns an empty
    array for every requested field on its general path and leaves the
    reader as it was: the particle file is neither looked for nor opened
    and no line cache is set. *)
Theorem orion_selection_no_particles (sinks_index : list string -> gmap string nat)
    (np_float : string -> option F) (fs : filesystem) (self : IOHandlerOrion F)
    (selector : Selector F) (chunks : list (Chunk F)) (fields : list FieldKey)
    (s : OrionState F) :
  class_name selector ≠ "GridSelector" ->
  (forall chunk grid, chunk ∈ chunks -> grid ∈ objs chunk ->
     grid_NumberOfParticles grid = 0) ->
  Orion_read_particle_selection sinks_index np_float fs self chunks selector fields s
  = (Ok (empty_arrays fields), s).
Proof.
  intros Hsel Hnone. unfold Orion_read_particle_selection.
  rewrite decide_False by done.
  apply for_each_fixed. intros chunk Hc.
  apply for_each_fixed. intros grid Hg.
  apply for_each_fixed. intros [ftype fname] Hf.
  assert (E : Orion_read_particles sinks_index np_float fs self grid fname s
              = (Ok [], s)).
  { unfold Orion_read_particles. now rewrite (Hnone chunk grid Hc Hg). }
  rewrite (bind_ok _ _ _ _ _ E). now apply prepend_nothing.
Qed.

(** ** The reads and seeks of a chunk read *)

Lemma reads_app (tr tr' : trace F) : reads (tr ++ tr') = reads tr ++ reads tr'.
Proof. apply omap_app. Qed.

Lemma relative_seeks_app (tr tr' : trace F) :
  relative_seeks (tr ++ tr') = relative_seeks tr ++ relative_seeks tr'.
Proof. apply omap_app. Qed.

Lemma flat_map_perm {A B : Type} (f : A -> list B) (l l' : list A) :
  l ≡ₚ l' -> flat_map f l ≡ₚ flat_map f l'.
Proof.
  induction 1 as [|x l l' _ IH|x y l|l1 l2 l3 _ IH1 _ IH2]; simpl.
  - reflexivity.
  - now rewrite IH.
  - rewrite !app_assoc. apply Permutation_app_tail, Permutation_app_comm.
  - now rewrite IH1.
Qed.

Lemma flat_map_ext_elem {A B : Type} (f g : A -> list B) (l : list A) :
  (forall a, a ∈ l -> f a = g a) -> flat_map f l = flat_map g l.
Proof.
  induction l as [|a l IH]; intros Heq; simpl; [reflexivity|].
  rewrite (Heq a) by (by left). rewrite IH; [reflexivity|].
  intros a' Ha'. apply Heq. by right.
Qed.

Lemma flat_map_concat {A B : Type} (f : A -> list B) (ls : list (list A)) :
  flat_map f (concat ls) = flat_map (flat_map f) ls.
Proof.
  induction ls as [|l ls IH]; simpl; [reflexivity|].
  now rewrite flat_map_app, IH.
Qed.

Lemma NoDup_concat_elem {A : Type} (ls : list (list A)) (l : list A) :
  NoDup (concat ls) -> l ∈ ls -> NoDup l.
Proof.
  induction ls as [|l0 ls IH]; intros Hnd Hl; [by apply elem_of_nil in Hl|].
  simpl in Hnd. apply NoDup_app in Hnd as (H0 & _ & Hrest).
  apply elem_of_cons in Hl as [->|Hl]; auto.
Qed.

(** *** The stable sort by offset *)

Lemma insert_by_offset_ascending (g : Grid F) (l : list (Grid F)) :
  ascending l -> ascending (insert_by_offset g l).
Proof.
  induction l as [|h t IH]; intros Ha; simpl.
  - split; [|done]. intros g' Hg'. by apply elem_of_nil in Hg'.
  - destruct Ha as [Hh Ht]. destruct (_offset g <=? _offset h)%Z eqn:E.
    + apply Z.leb_le in E. split; [|split; assumption].
      intros g' Hg'. apply elem_of_cons in Hg' as [->|Hg']; [exact E|].
      specialize (Hh g' Hg'). lia.
    + apply Z.leb_gt in E. split; [|auto].
      intros g' Hg'. rewrite insert_by_offset_perm in Hg'.
      apply elem_of_cons in Hg' as [->|Hg']; [lia|auto].
Qed.

Lemma sort_by_offset_ascending (l : list (Grid F)) : ascending (sort_by_offset l).
Proof.
  induction l as [|g l IH]; simpl; [done|].
  now apply insert_by_offset_ascending.
Qed.

(** Grids in ascending order of offset whose blocks do not overlap lie one
    after the other. *)
Lemma ascending_laid_out (self : IOHandlerBoxlib F) (l : list (Grid F)) (pos : Z) :
  ascending l -> NoDup l ->
  (forall g g', g ∈ l -> g' ∈ l -> (_offset g <= _offset g')%Z ->
     g = g' \/ (_offset g + Z.of_nat (grid_extent self g) <= _offset g')%Z) ->
  (forall g, g ∈ l -> (pos <= _offset g)%Z) ->
  laid_out self pos l.
Proof.
  revert pos. induction l as [|g l IH]; intros pos Ha Hnd Hsep Hpos; [done|].
  destruct Ha as [Hg Ha]. apply NoDup_cons in Hnd as [Hnin Hnd].
  split; [apply Hpos; by left|].
  apply IH; [exact Ha|exact Hnd| |].
  - intros g1 g2 H1 H2. apply Hsep; by right.
  - intros g' Hg'.
    destruct (Hsep g g') as [->|Hle]; [by left|by right|auto|contradiction|exact Hle].
Qed.

Section ChunkTrace.
Variables (fs : filesystem) (self : IOHandlerBoxlib F) (fields : list FieldKey).

Let dtype := _dtype (index (ds self)).
Let bpr := itemsize dtype.
Let order := field_order (index (ds self)).

Lemma read_fields_trace (grid : Grid F) (todo : list FieldKey)
    (f : handle) (data : chunk_data) (lo : Z) (tr : trace F) :
  0 < bpr -> (0 <= h_pos f + lo)%Z ->
  Z.to_nat (h_pos f + lo) + length todo * (prod (ActiveDimensions grid) * bpr)
    <= length (h_data f) ->
  exists f' data' lo' tr' sk,
    for_each todo
      (read_field fields dtype grid (prod (ActiveDimensions grid))
                  (prod (ActiveDimensions grid) * bpr))
      (f, data, lo) tr
    = (Ok (f', data', lo'), tr')
    /\ h_data f' = h_data f /\ h_name f' = h_name f
    /\ (h_pos f' + lo'
        = h_pos f + lo
          + Z.of_nat (length todo * (prod (ActiveDimensions grid) * bpr)))%Z
    /\ reads tr'
       = reads tr ++ block_reads fields (h_name f)
                       (prod (ActiveDimensions grid) * bpr) (h_pos f + lo) todo
    /\ relative_seeks tr' = relative_seeks tr ++ sk
    /\ ((0 <= lo)%Z -> (0 <= lo')%Z /\ Forall (fun off => (0 <= off)%Z) sk).
Proof.
  intros Hw. revert f data lo tr.
  induction todo as [|fld todo IH]; intros f data lo tr Hpos Hlen.
  - exists f, data, lo, tr, []. simpl. rewrite !app_nil_r.
    repeat split; try done. lia.
  - cbn [length] in Hlen. rewrite for_each_cons. cbn [block_reads].
    destruct (decide (fld ∈ fields)) as [Hin|Hnin].
    + assert (Hp1 : Z.to_nat (h_pos f + lo) + prod (ActiveDimensions grid) * bpr
                    <= length (h_data f)) by lia.
      pose proof (read_field_requested self fields grid
                    (prod (ActiveDimensions grid) * bpr) fld f data lo tr
                    Hin Hw Hpos Hp1) as Es.
      rewrite (bind_ok _ _ _ _ _ Es).
      match type of Es with _ = (Ok (?f2, ?d2, _), ?tr2) =>
        destruct (IH f2 d2 0%Z tr2)
          as (f' & data' & lo' & tr' & sk & E & Hd & Hn & Hp & Hr & Hs & Hfw) end.
      * cbn [h_pos]. lia.
      * cbn [h_pos h_data]. unfold bpr, dtype in *. lia.
      * exists f', data', lo', tr', (lo :: sk). cbn [h_pos h_data h_name] in *.
        split; [exact E|]. split; [exact Hd|]. split; [exact Hn|].
        split; [unfold bpr, dtype in *; cbn [length]; lia|].
        split; [|split].
        -- rewrite Hr, reads_app. simpl. rewrite <- app_assoc. simpl.
           do 3 f_equal. unfold bpr, dtype. lia.
        -- rewrite Hs, relative_seeks_app. simpl. now rewrite <- app_assoc.
        -- intros Hlo. destruct (Hfw (Z.le_refl 0)) as [Hlo' Hsk].
           split; [exact Hlo'|]. by constructor.
    + rewrite (bind_ok _ _ _ _ _
                 (read_field_skipped self fields grid _ _ fld f _ lo tr Hnin)).
      destruct (IH f data (lo + Z.of_nat (prod (ActiveDimensions grid) * bpr))%Z tr)
        as (f' & data' & lo' & tr' & sk & E & Hd & Hn & Hp & Hr & Hs & Hfw).
      * lia.
      * unfold bpr, dtype in *. lia.
      * exists f', data', lo', tr', sk.
        split; [exact E|]. split; [exact Hd|]. split; [exact Hn|].
        split; [unfold bpr, dtype in *; cbn [length]; lia|].
        split; [|split; [exact Hs|]].
        -- rewrite Hr. simpl. do 2 f_equal. lia.
        -- intros Hlo. apply Hfw. lia.
Qed.

Lemma read_grid_trace (grid : Grid F) (f : handle) (data : chunk_data)
    (tr : trace F) :
  0 < bpr -> fits self (h_data f) grid ->
  exists f' data' tr' sk,
    read_grid self fields grid (f, data) tr = (Ok (f', data'), tr')
    /\ h_data f' = h_data f /\ h_name f' = h_name f
    /\ reads tr'
       = reads tr ++ block_reads fields (h_name f)
                       (prod (ActiveDimensions grid) * bpr) (_offset grid) order
    /\ relative_seeks tr' = relative_seeks tr ++ sk
    /\ ((h_pos f <= _offset grid)%Z ->
        (h_pos f' <= _offset grid + Z.of_nat (grid_extent self grid))%Z
        /\ Forall (fun off => (0 <= off)%Z) sk).
Proof.
  intros Hw [Hoff Hlen]. unfold read_grid, _get_offset, tell.
  fold dtype. fold bpr. fold order.
  destruct (read_fields_trace grid order f (<[id grid := ∅]> data)
              (_offset grid - h_pos f)%Z tr Hw)
    as (f' & data' & lo' & tr' & sk & E & Hd & Hn & Hp & Hr & Hs & Hfw).
  - lia.
  - replace (h_pos f + (_offset grid - h_pos f))%Z with (_offset grid) by lia.
    exact Hlen.
  - exists f', data', tr', sk. rewrite (bind_ok _ _ _ _ _ E).
    split; [reflexivity|]. split; [exact Hd|]. split; [exact Hn|].
    split; [|split; [exact Hs|]].
    + rewrite Hr. do 2 f_equal. lia.
    + intros Hle. destruct Hfw as [Hlo' Hsk]; [lia|]. split; [|exact Hsk].
      unfold grid_extent. fold dtype. fold bpr. fold order. lia.
Qed.

Lemma read_grids_trace (gs : list (Grid F)) (f : handle) (data : chunk_data)
    (tr : trace F) :
  0 < bpr -> (forall g, g ∈ gs -> fits self (h_data f) g) ->
  exists f' data' tr' sk,
    for_each gs (read_grid self fields) (f, data) tr = (Ok (f', data'), tr')
    /\ reads tr'
       = reads tr
         ++ flat_map (fun g => block_reads fields (h_name f)
                                 (prod (ActiveDimensions g) * bpr) (_offset g) order)
                     gs
    /\ relative_seeks tr' = relative_seeks tr ++ sk
    /\ (laid_out self (h_pos f) gs -> Forall (fun off => (0 <= off)%Z) sk).
Proof.
  intros Hw. revert f data tr.
  induction gs as [|g gs IH]; intros f data tr Hfit.
  - exists f, data, tr, []. simpl. rewrite !app_nil_r. repeat split; done.
  - destruct (read_grid_trace g f data tr Hw)
      as (f1 & data1 & tr1 & sk1 & E1 & Hd1 & Hn1 & Hr1 & Hs1 & Hfw1);
      [apply Hfit; by left|].
    destruct (IH f1 data1 tr1)
      as (f2 & data2 & tr2 & sk2 & E2 & Hr2 & Hs2 & Hfw2).
    { intros g' Hg'. rewrite Hd1. apply Hfit. by right. }
    exists f2, data2, tr2, (sk1 ++ sk2).
    rewrite for_each_cons, (bind_ok _ _ _ _ _ E1).
    split; [exact E2|]. split; [|split].
    + rewrite Hr2, Hr1, Hn1. simpl. now rewrite <- app_assoc.
    + rewrite Hs2, Hs1. now rewrite <- app_assoc.
    + intros [Hpos Hlay]. destruct (Hfw1 Hpos) as [Hend Hsk1].
      apply Forall_app. split; [exact Hsk1|]. apply Hfw2.
      clear -Hlay Hend. destruct gs as [|g1 gs]; [done|].
      destruct Hlay as [Hle Hlay]. split; [lia|exact Hlay].
Qed.

Lemma read_files_trace (groups : list (string * list (Grid F)))
    (data : chunk_data) (tr : trace F) :
  0 < bpr -> keyed groups ->
  (forall g, g ∈ group_members groups -> stored fs self g) ->
  exists data' tr' sk,
    for_each groups
      (fun '(filename, grids) data =>
         let grids := sort_by_offset grids in
         let* f := open_file fs filename in
         let* (_, data) := for_each grids (read_grid self fields) (f, data) in
         ret data)
      data tr
    = (Ok data', tr')
    /\ reads tr'
       = reads tr
         ++ flat_map (fun '(fn, gs) =>
                        flat_map (fun g => block_reads fields fn
                                             (prod (ActiveDimensions g) * bpr)
                                             (_offset g) order)
                                 (sort_by_offset gs))
                     groups
    /\ relative_seeks tr' = relative_seeks tr ++ sk
    /\ ((forall fn gs, (fn, gs) ∈ groups -> laid_out self 0 (sort_by_offset gs)) ->
        Forall (fun off => (0 <= off)%Z) sk).
Proof.
  intros Hw. revert data tr.
  induction groups as [|[fn gs] groups IH]; intros data tr Hkey Hst.
  - exists data, tr, []. simpl. rewrite !app_nil_r. repeat split; done.
  - unfold group_members in *. simpl in Hst.
    destruct (Hkey fn gs) as [Hne Hfn]; [by left|].
    assert (exists bs, fs !! fn = Some bs /\ forall g, g ∈ gs -> fits self bs g)
      as (bs & Hbs & Hfit).
    { destruct gs as [|g0 gs0]; [done|].
      destruct (Hst g0) as (fn0 & bs & Hf0 & Hbs & _);
        [apply elem_of_app; left; by left|].
      rewrite (Hfn g0) in Hf0 by (by left). injection Hf0 as <-.
      exists bs. split; [exact Hbs|]. intros g Hg.
      destruct (Hst g) as (fn1 & bs1 & Hf1 & Hbs1 & Hfit1);
        [apply elem_of_app; by left|].
      rewrite (Hfn g Hg) in Hf1. injection Hf1 as <-. congruence. }
    destruct (read_grids_trace (sort_by_offset gs)
                {| h_name := fn; h_data := bs; h_pos := 0 |} data
                (tr ++ [EvOpen fn]) Hw)
      as (f1 & data1 & tr1 & sk1 & E1 & Hr1 & Hs1 & Hfw1).
    { intros g Hg. rewrite sort_by_offset_perm in Hg. simpl. auto. }
    destruct (IH data1 tr1) as (data2 & tr2 & sk2 & E2 & Hr2 & Hs2 & Hfw2).
    { intros fn' gs' Hin. apply Hkey. by right. }
    { intros g Hg. apply Hst. apply elem_of_app. by right. }
    exists data2, tr2, (sk1 ++ sk2). split; [|split; [|split]].
    + rewrite for_each_cons.
      assert (Eo : open_file (F:=F) fs fn tr
                   = (Ok {| h_name := fn; h_data := bs; h_pos := 0 |},
                      tr ++ [EvOpen fn])).
      { unfold open_file. now rewrite Hbs. }
      erewrite bind_ok; [exact E2|].
      rewrite (bind_ok _ _ _ _ _ Eo). now rewrite (bind_ok _ _ _ _ _ E1).
    + rewrite Hr2, Hr1, reads_app. simpl. rewrite app_nil_r.
      now rewrite <- app_assoc.
    + rewrite Hs2, Hs1, relative_seeks_app. simpl. rewrite app_nil_r.
      now rewrite <- app_assoc.
    + intros Hlay. apply Forall_app. split.
      * apply Hfw1. simpl. apply (Hlay fn gs). by left.
      * apply Hfw2. intros fn' gs' Hin. apply (Hlay fn' gs'). by right.
Qed.

Lemma read_chunk_data_trace (chunk : Chunk F) (tr : trace F) :
  0 < bpr ->
  (forall g, g ∈ objs chunk -> is_Some (filename g) -> stored fs self g) ->
  exists data tr' sk,
    _read_chunk_data fs self chunk fields tr = (Ok data, tr')
    /\ reads tr'
       = reads tr
         ++ flat_map (fun '(fn, gs) =>
                        flat_map (fun g => block_reads fields fn
                                             (prod (ActiveDimensions g) * bpr)
                                             (_offset g) order)
                                 (sort_by_offset gs))
                     (group_by_file (objs chunk))
    /\ relative_seeks tr' = relative_seeks tr ++ sk
    /\ ((forall fn gs, (fn, gs) ∈ group_by_file (objs chunk) ->
           laid_out self 0 (sort_by_offset gs)) ->
        Forall (fun off => (0 <= off)%Z) sk).
Proof.
  intros Hw Hst. unfold _read_chunk_data.
  destruct (Nat.eqb (length (objs chunk)) 0) eqn:E0.
  - apply Nat.eqb_eq in E0. destruct (objs chunk); [|discriminate].
    exists ∅, tr, []. simpl. rewrite !app_nil_r. repeat split; done.
  - destruct (group_by_file_members (objs chunk)) as [P K].
    apply read_files_trace; [exact Hw|exact K|].
    intros g Hg. rewrite P in Hg.
    apply (list_elem_of_filter (fun g => is_Some (filename g))) in Hg as [Hp Hg].
    auto.
Qed.

End ChunkTrace.

(** X21: when every grid of the chunk that has a path names an existing
    file that holds its blocks, [_read_chunk_data] returns, and the reads
    it adds to the log are, up to their order, one read of
    [count * item_width] bytes at the block's position in the grid's file
    for every grid and every entry of the field order table that is
    requested; no byte of an entry that is not requested is read. *)
Theorem read_chunk_data_reads_requested_blocks (fs : filesystem)
    (self : IOHandlerBoxlib F) (fields : list FieldKey) (chunk : Chunk F)
    (tr : trace F) :
  0 < itemsize (_dtype (index (ds self))) ->
  (forall g, g ∈ objs chunk -> is_Some (filename g) -> stored fs self g) ->
  exists data tr' new,
    _read_chunk_data fs self chunk fields tr = (Ok data, tr')
    /\ reads tr' = reads tr ++ new
    /\ new ≡ₚ flat_map (grid_reads self fields) (objs chunk).
Proof.
  intros Hw Hst.
  destruct (read_chunk_data_trace fs self fields chunk tr Hw Hst)
    as (data & tr' & sk & E & Hr & _).
  eexists data, tr', _. split; [exact E|]. split; [exact Hr|].
  destruct (group_by_file_members (objs chunk)) as [P K].
  transitivity (flat_map (grid_reads self fields)
                  (group_members (group_by_file (objs chunk)))).
  - unfold group_members. rewrite flat_map_concat.
    generalize (group_by_file (objs chunk)) K. clear.
    induction l as [|[fn gs] l IH]; intros K; simpl; [reflexivity|].
    apply Permutation_app.
    + rewrite (flat_map_perm _ _ _ (sort_by_offset_perm gs)).
      rewrite (flat_map_ext_elem _ (grid_reads self fields)); [reflexivity|].
      intros g Hg. unfold grid_reads.
      destruct (K fn gs) as [_ Hfn]; [by left|]. now rewrite (Hfn g Hg).
    + apply IH. intros fn' gs' Hin. apply K. by right.
  - rewrite (flat_map_perm _ _ _ P). clear.
    induction (objs chunk) as [|g l IH]; [reflexivity|].
    destruct (filename g) as [fn|] eqn:Hfn.
    + rewrite filter_cons_True by (rewrite Hfn; eauto). simpl. now rewrite IH.
    + rewrite filter_cons_False by (rewrite Hfn; by intros []). simpl.
      unfold grid_reads at 2. now rewrite Hfn.
Qed.

(** X22: when, in addition, grid ids are distinct and the blocks of two
    grids of one file never overlap (of two distinct grids, the one with
    the smaller or equal offset ends at or before the start of the other),
    [_read_chunk_data] never moves a file cursor backward: every seek
    relative to the cursor has a non-negative distance. *)
Theorem read_chunk_data_never_seeks_backward (fs : filesystem)
    (self : IOHandlerBoxlib F) (fields : list FieldKey) (chunk : Chunk F)
    (tr : trace F) :
  0 < itemsize (_dtype (index (ds self))) ->
  NoDup (id <$> objs chunk) ->
  (forall g, g ∈ objs chunk -> is_Some (filename g) -> stored fs self g) ->
  (forall g g', g ∈ objs chunk -> g' ∈ objs chunk ->
     filename g = filename g' -> (_offset g <= _offset g')%Z ->
     g = g' \/ (_offset g + Z.of_nat (grid_extent self g) <= _offset g')%Z) ->
  exists data tr' sk,
    _read_chunk_data fs self chunk fields tr = (Ok data, tr')
    /\ relative_seeks tr' = relative_seeks tr ++ sk
    /\ Forall (fun off => (0 <= off)%Z) sk.
Proof.
  intros Hw Hnd Hst Hsep.
  destruct (read_chunk_data_trace fs self fields chunk tr Hw Hst)
    as (data & tr' & sk & E & _ & Hs & Hfw).
  exists data, tr', sk. split; [exact E|]. split; [exact Hs|].
  apply Hfw. intros fn gs Hin.
  destruct (group_by_file_key _ _ _ Hin) as [_ Hall].
  destruct (group_by_file_members (objs chunk)) as [P _].
  apply ascending_laid_out.
  - apply sort_by_offset_ascending.
  - rewrite sort_by_offset_perm.
    apply (NoDup_concat_elem (group_by_file (objs chunk)).*2).
    + fold (group_members (group_by_file (objs chunk))). rewrite P.
      apply NoDup_filter. exact (NoDup_fmap_1 _ _ Hnd).
    + apply list_elem_of_fmap. now exists (fn, gs).
  - intros g g' Hg Hg'. rewrite sort_by_offset_perm in Hg, Hg'.
    destruct (Hall g Hg) as [Ho Hf]. destruct (Hall g' Hg') as [Ho' Hf'].
    apply Hsep; [exact Ho|exact Ho'|congruence].
  - intros g Hg. rewrite sort_by_offset_perm in Hg.
    destruct (Hall g Hg) as [Ho Hf].
    destruct (Hst g Ho) as (fn' & bs & _ & _ & Hoff & _); [rewrite Hf; eauto|].
    exact Hoff.
Qed.

End Properties.

(** * The properties at concrete inputs *)

#[export] Instance Q_float64_laws : Float64Laws Q.
Proof. split. intros [[|p|p] d]; reflexivity. Qed.

(** C8 on a request that mixes a fluid field with a particle field. *)
Lemma read_fluid_selection_rejects_foreign_namespace_witness :
  ("io", "particle_mass") ∈ [("boxlib", "density"); ("io", "particle_mass")]
  /\ "io" ≠ "boxlib"
  /\ _read_fluid_selection demo_fs boxlib_handler [two_grid_chunk]
       (keep_all "RegionSelector")
       [("boxlib", "density"); ("io", "particle_mass")] 4 []
     = (Raise NotImplementedError, []).
Proof.
  assert (Hin : ("io", "particle_mass")
                ∈ [("boxlib", "density"); ("io", "particle_mass")])
    by (right; left).
  assert (Hne : "io" ≠ "boxlib") by discriminate.
  split; [exact Hin|]. split; [exact Hne|].
  exact (read_fluid_selection_rejects_foreign_namespace demo_fs boxlib_handler
           [two_grid_chunk] (keep_all "RegionSelector") _ 4 [] "io"
           "particle_mass" Hin Hne).
Defined.

(** C9 on one chunk of two grids. *)
Lemma orion_grid_selector_fast_path_witness :
  class_name (keep_all "GridSelector") = "GridSelector"
  /\ Orion_read_particle_selection demo_sinks_index q_of_text demo_fs
       orion_handler [two_grid_chunk] (keep_all "GridSelector")
       [("io", "particle_mass")] fresh_orion
     = (Raise RuntimeError, fresh_orion).
Proof.
  split; [reflexivity|].
  refine (proj1 (orion_grid_selector_fast_path demo_sinks_index q_of_text
                   demo_fs orion_handler [two_grid_chunk]
                   (keep_all "GridSelector") [("io", "particle_mass")]
                   fresh_orion eq_refl) _).
  intros (c & g & Hc & Hg). injection Hc as <-. discriminate Hg.
Defined.

(** C10 on a selector that keeps every point and one that keeps none. *)
Lemma orion_general_path_ignores_selector_witness :
  class_name (keep_all "RegionSelector") ≠ "GridSelector"
  /\ class_name (keep_none "SphereSelector") ≠ "GridSelector"
  /\ Orion_read_particle_selection demo_sinks_index q_of_text demo_fs
       orion_handler [two_grid_chunk] (keep_all "RegionSelector")
       [("io", "particle_mass")] fresh_orion
     = Orion_read_particle_selection demo_sinks_index q_of_text demo_fs
         orion_handler [two_grid_chunk] (keep_none "SphereSelector")
         [("io", "particle_mass")] fresh_orion.
Proof.
  assert (H1 : class_name (keep_all "RegionSelector") ≠ "GridSelector")
    by discriminate.
  assert (H2 : class_name (keep_none "SphereSelector") ≠ "GridSelector")
    by discriminate.
  split; [exact H1|]. split; [exact H2|].
  exact (orion_general_path_ignores_selector demo_sinks_index q_of_text
           demo_fs orion_handler [two_grid_chunk] _ _ _ fresh_orion H1 H2).
Defined.

(** C2 with one-byte items: 64 bytes skipped, 64 bytes read. *)
Lemma read_chunk_data_skips_unrequested_fields_witness :
  _read_chunk_data fs444 boxlib_handler {| objs := [grid444] |}
    [("boxlib", "temperature")] []
  = (Ok {[ 1%Z :=
             {[ ("boxlib", "temperature") :=
                  {| shape := [4; 4; 4];
                     flat := map (decode u8)
                                 (split_items 1 64 (bytes_of (seq 64 64))) |} ]} ]},
     [EvOpen "Cell_D_0444";
      EvSeek "Cell_D_0444" SEEK_CUR 64;
      EvFromfile "Cell_D_0444" 64 64]).
Proof.
  exact (proj1 (read_chunk_data_skips_unrequested_fields fs444 boxlib_handler)
           grid444 "Cell_D_0444" (bytes_of (seq 0 64)) (bytes_of (seq 64 64)) []
           eq_refl eq_refl eq_refl eq_refl eq_refl (le_n 1) eq_refl eq_refl).
Defined.

(** C1 (amended) on two grids of two cells each, all four cells selected. *)
Lemma read_fluid_selection_fills_exactly_witness :
  exists rv tr',
    _read_fluid_selection demo_fs boxlib_handler [two_grid_chunk]
      (keep_all "RegionSelector") [("boxlib", "temperature")] 4 []
    = (Ok rv, tr')
    /\ (forall k, is_Some (rv !! k) <-> k ∈ [("boxlib", "temperature")])
    /\ forall f, f ∈ [("boxlib", "temperature")] ->
         exists vals, rv !! f = Some (Some <$> vals) /\ length vals = 4.
Proof.
  apply (read_fluid_selection_fills_exactly demo_fs boxlib_handler
           (keep_all "RegionSelector") [("boxlib", "temperature")] 4
           [two_grid_chunk] []).
  - discriminate.
  - apply NoDup_singleton.
  - intros f Hf. apply list_elem_of_singleton in Hf. rewrite Hf. reflexivity.
  - intros f Hf. apply list_elem_of_singleton in Hf. rewrite Hf. right. left.
  - apply le_n.
  - intros c Hc. apply list_elem_of_singleton in Hc. rewrite Hc.
    apply NoDup_cons. split; [|apply NoDup_singleton].
    intros Hin. apply list_elem_of_singleton in Hin. discriminate Hin.
  - intros c g Hc Hg. apply list_elem_of_singleton in Hc. rewrite Hc in Hg.
    exists "Cell_D_0000", (bytes_of [11; 12; 21; 22; 13; 14; 23; 24]).
    apply elem_of_cons in Hg as [Hg|Hg];
      [|apply list_elem_of_singleton in Hg]; rewrite Hg;
      (split; [reflexivity|split; [reflexivity|]]);
      (split; [discriminate|vm_compute; repeat constructor]).
  - reflexivity.
Defined.

(** C3 on the union "all" = ["io"]: the first grid yields [1], the second
    [2], and the result is [2; 1]. *)
Lemma read_particle_selection_prepends_witness :
  exists rv tr',
    _read_particle_selection demo_fs boxlib_handler [two_grid_chunk]
      (keep_all "RegionSelector") [("all", "particle_mass")] []
    = (Ok rv, tr')
    /\ rv !! ("all", "particle_mass") = Some [2%Q; 1%Q].
Proof.
  destruct (read_particle_selection_prepends demo_fs boxlib_handler
              (keep_all "RegionSelector") [two_grid_chunk]
              [("all", "particle_mass")] [] "all" "particle_mass" ["io"]
              eq_refl) as (rv & tr' & E & _ & L).
  - left.
  - intros chunk grid ftype fname subtype Hc Hg Hf Hs.
    apply list_elem_of_singleton in Hc. rewrite Hc in Hg.
    apply list_elem_of_singleton in Hf. injection Hf as Hft Hfn.
    rewrite Hft in Hs. apply list_elem_of_singleton in Hs. rewrite Hs, Hfn.
    apply elem_of_cons in Hg as [Hg|Hg];
      [|apply list_elem_of_singleton in Hg]; rewrite Hg;
      eexists; vm_compute; reflexivity.
  - exists rv, tr'. split; [exact E|]. rewrite L. reflexivity.
Defined.

(** C1, as stated, fails: a fluid field that the field order table does
    not list.  The request is non-empty, in the "boxlib" namespace, and
    [size] is the number of selected cells; the file is opened and the
    lookup of the field in the grid's dictionary raises [KeyError]. *)
Lemma read_fluid_selection_unlisted_field_raises :
  [("boxlib", "pressure")] ≠ []
  /\ 2 = total_selected (keep_all "RegionSelector") [one_grid_chunk]
  /\ _read_fluid_selection demo_fs boxlib_handler [one_grid_chunk]
       (keep_all "RegionSelector") [("boxlib", "pressure")] 2 []
     = (Raise KeyError, [EvOpen "Cell_D_0000"]).
Proof. split; [discriminate|]. split; vm_compute; reflexivity. Qed.

(** C5: a chunk whose only grid has no file path.  [_read_chunk_data] skips
    the grid and returns an empty dictionary; [_read_fluid_selection] then
    looks the grid up in it and raises [KeyError] instead of completing. *)
Theorem read_fluid_selection_null_path_raises :
  let g := demo_grid 3 None 0 [2; 1; 1] 3 "DATA_0001" 0 [] in
  _read_chunk_data demo_fs boxlib_handler {| objs := [g] |}
    [("boxlib", "density")] [] = (Ok ∅, [])
  /\ _read_fluid_selection demo_fs boxlib_handler [{| objs := [g] |}]
       (keep_none "RegionSelector") [("boxlib", "density")] 0 []
     = (Raise KeyError, []).
Proof.
  intros g.
  assert (Hg : forall g', g' ∈ [g] -> filename g' = None).
  { intros g' Hg'. apply list_elem_of_singleton in Hg'. now rewrite Hg'. }
  split.
  - now apply read_chunk_data_no_path.
  - apply read_fluid_selection_no_path; [discriminate|discriminate|exact Hg|].
    intros f Hf. apply list_elem_of_singleton in Hf. now rewrite Hf.
Qed.

(** C6: one particle on the grid and a field name that the header does not
    know.  [_read_particles] returns [None]: no error, no array. *)
Theorem read_particles_unknown_name_returns_none :
  _read_particles demo_fs boxlib_handler grid2d (keep_all "RegionSelector")
    "io" "particle_bogus" []
  = (Ok None, []).
Proof.
  apply (read_particles_unknown_name demo_fs boxlib_handler grid2d
           (keep_all "RegionSelector") "io" "particle_bogus" []
           {| NumberOfParticles := 1; particle_filename := "DATA_0001";
              offset := 0 |} io_header eq_refl (le_n 1) eq_refl).
  - intros Hin. apply list_elem_of_singleton in Hin. discriminate Hin.
  - intros Hin. repeat (apply elem_of_cons in Hin as [Hin|Hin]; [discriminate Hin|]).
    by apply elem_of_nil in Hin.
Qed.

(** C7: two reads on one reader instance.  The first reads the text file
    and caches its lines; the second takes the lines from the cache but
    the [particle_field_index] property calls [parse_orion_sinks] on the
    file once more, although the table was stored on the instance by the
    first read. *)
Theorem orion_second_read_parses_file_again :
  let g := demo_grid 1 None 0 [2; 1; 1] 3 "DATA_0001" 1 [1] in
  let fn := "plt00000/StarParticles" in
  let first := Orion_read_particles demo_sinks_index q_of_text demo_fs
                 orion_handler g "particle_mass" fresh_orion in
  let second := Orion_read_particles demo_sinks_index q_of_text demo_fs
                  orion_handler g "particle_position_x" first.2 in
  first.1 = Ok [5%Q]
  /\ io_log first.2 = [EvOpen fn; EvReadlines fn; EvParseSinks fn]
  /\ _particle_field_index first.2 = Some (demo_sinks_index [])
  /\ second.1 = Ok [7%Q]
  /\ io_log second.2 = io_log first.2 ++ [EvParseSinks fn].
Proof. repeat split; vm_compute; reflexivity. Qed.

(** ** Facts about the concrete data *)

Lemma demo_order_NoDup : NoDup (field_order (index (ds boxlib_handler))).
Proof.
  apply NoDup_cons. split; [|apply NoDup_singleton].
  intros Hin. apply list_elem_of_singleton in Hin. discriminate Hin.
Qed.

Lemma two_grid_chunk_ids : NoDup (id <$> objs two_grid_chunk).
Proof.
  apply NoDup_cons. split; [|apply NoDup_singleton].
  intros Hin. apply list_elem_of_singleton in Hin. discriminate Hin.
Qed.

Lemma two_grid_chunk_stored (g : Grid Q) :
  g ∈ objs two_grid_chunk -> stored demo_fs boxlib_handler g.
Proof.
  intros Hg. exists "Cell_D_0000", (bytes_of [11; 12; 21; 22; 13; 14; 23; 24]).
  apply elem_of_cons in Hg as [Hg|Hg];
    [|apply list_elem_of_singleton in Hg]; rewrite Hg;
    (split; [reflexivity|split; [reflexivity|]]);
    (split; [discriminate|vm_compute; repeat constructor]).
Qed.

Lemma demo_reads_succeed :
  reads_succeed demo_fs boxlib_handler (keep_all "RegionSelector")
    [two_grid_chunk] [("all", "particle_mass")].
Proof.
  intros chunk grid ftype fname subtype Hc Hg Hf Hs.
  apply list_elem_of_singleton in Hc. rewrite Hc in Hg.
  apply list_elem_of_singleton in Hf. injection Hf as Hft Hfn.
  rewrite Hft in Hs. apply list_elem_of_singleton in Hs. rewrite Hs, Hfn.
  apply elem_of_cons in Hg as [Hg|Hg];
    [|apply list_elem_of_singleton in Hg]; rewrite Hg;
    eexists; vm_compute; reflexivity.
Qed.

Lemma first_grid_unreadable :
  unreadable short_fs boxlib_handler [("boxlib", "temperature")] first_grid.
Proof.
  exists "Cell_D_0000". split; [reflexivity|].
  assert (E : short_fs !! "Cell_D_0000" = Some (bytes_of [11; 12; 21]))
    by reflexivity.
  rewrite E. cbv zeta. split; [discriminate|]. split; [vm_compute; lia|].
  exists ("boxlib", "temperature"), 1. split; [left|]. split; [reflexivity|].
  vm_compute. lia.
Qed.

(** ** The further properties at concrete inputs *)

(** C4 on a grid with two particles and z edges 1 and 2, integer branch:
    the predicate sees x = [1; 3], y = [2; 4] and the midpoint twice. *)
Lemma read_particles_two_dimensional_z_witness :
  dimensionality (grid_ds pair_grid) = 2
  /\ select_points_calls
       (_read_particles pair_fs boxlib_handler pair_grid
          (keep_all "RegionSelector") "io" "particle_id" []).2
     = [([1%Q; 3%Q], [2%Q; 4%Q],
         replicate 2 (fmul f_half (fadd 1%Q 2%Q)), 0%Q)].
Proof.
  split; [reflexivity|].
  refine (proj2 (read_particles_two_dimensional_z pair_fs boxlib_handler
                   pair_grid (keep_all "RegionSelector") "io" "particle_id" []
                   eq_refl)
            pair_pdata io_header (bytes_of [8; 9]) [] pair_reals
            _ _ _ _ _ _ _ _ _ _).
  - reflexivity.
  - reflexivity.
  - simpl. lia.
  - reflexivity.
  - left. left.
  - simpl. lia.
  - simpl. lia.
  - repeat constructor.
  - reflexivity.
  - reflexivity.
Defined.

(** X1 on a reader whose cache holds the lines of the file. *)
Lemma orion_selection_reuses_cached_lines_witness :
  _cached_lines cached_orion = Some star_lines
  /\ only_parses cached_orion
       (Orion_read_particle_selection demo_sinks_index q_of_text demo_fs
          orion_handler [two_grid_chunk] (keep_all "RegionSelector")
          [("io", "particle_mass")] cached_orion).2.
Proof.
  split; [reflexivity|].
  exact (orion_selection_reuses_cached_lines demo_sinks_index q_of_text demo_fs
           orion_handler [two_grid_chunk] (keep_all "RegionSelector")
           [("io", "particle_mass")] cached_orion star_lines eq_refl).
Defined.

(** X2 on a fresh reader and a grid with one particle. *)
Lemma orion_first_read_caches_lines_witness :
  let fn := orion_particle_file demo_fs orion_handler in
  let run := Orion_read_particles demo_sinks_index q_of_text demo_fs
               orion_handler orion_grid "particle_mass" fresh_orion in
  (forall bs, demo_fs !! fn = Some bs -> ascii_text bs = true ->
     _cached_lines run.2 = Some (readlines bs)
     /\ exists evs, io_log run.2
                    = io_log fresh_orion ++ [EvOpen fn; EvReadlines fn] ++ evs
                    /\ Forall is_parse_event evs)
  /\ (demo_fs !! fn = None ->
      run.1 = Raise IOError /\ _cached_lines run.2 = None
      /\ io_log run.2 = io_log fresh_orion).
Proof.
  apply (orion_first_read_caches_lines demo_sinks_index q_of_text demo_fs
           orion_handler orion_grid "particle_mass" fresh_orion).
  - reflexivity.
  - discriminate.
Defined.

(** X3 on the same read: the mass of line 1 is 5. *)
Lemma orion_read_particles_values_witness :
  exists vs s',
    Orion_read_particles demo_sinks_index q_of_text demo_fs orion_handler
      orion_grid "particle_mass" fresh_orion = (Ok vs, s')
    /\ Forall2 (fun num v => orion_entry q_of_text star_lines 0 num = Some v)
               [1] vs
    /\ _cached_lines s' = Some star_lines
    /\ io_log s' = [EvOpen "plt00000/StarParticles";
                    EvReadlines "plt00000/StarParticles";
                    EvParseSinks "plt00000/StarParticles"].
Proof.
  apply (orion_read_particles_values demo_sinks_index q_of_text demo_fs
           orion_handler orion_grid "particle_mass" fresh_orion star_bytes 0).
  - discriminate.
  - reflexivity.
  - reflexivity.
  - reflexivity.
  - intros num Hnum. apply list_elem_of_singleton in Hnum. rewrite Hnum.
    exists 5%Q. reflexivity.
Defined.

(** X4 on one chunk of one grid. *)
Lemma orion_fast_path_agrees_with_general_path_witness :
  Orion_read_particle_selection demo_sinks_index q_of_text demo_fs
    orion_handler [one_grid_chunk] (keep_all "GridSelector")
    [("io", "particle_mass")] fresh_orion
  = Orion_read_particle_selection demo_sinks_index q_of_text demo_fs
      orion_handler [one_grid_chunk] (keep_none "SphereSelector")
      [("io", "particle_mass")] fresh_orion.
Proof.
  apply (orion_fast_path_agrees_with_general_path demo_sinks_index q_of_text
           demo_fs orion_handler one_grid_chunk first_grid).
  - reflexivity.
  - discriminate.
  - reflexivity.
  - apply NoDup_singleton.
Defined.

(** X5 on the union "all" = ["io"]. *)
Lemma read_particle_selection_all_fields_witness :
  exists rv tr',
    _read_particle_selection demo_fs boxlib_handler [two_grid_chunk]
      (keep_all "RegionSelector") [("all", "particle_mass")] []
    = (Ok rv, tr')
    /\ forall key,
         rv !! key
         = if decide (key ∈ [("all", "particle_mass")])
           then Some (concat (reverse
                        (produced_in_order demo_fs boxlib_handler
                           (keep_all "RegionSelector") [two_grid_chunk]
                           [("all", "particle_mass")] key)))
           else None.
Proof.
  exact (read_particle_selection_all_fields demo_fs boxlib_handler
           (keep_all "RegionSelector") [two_grid_chunk]
           [("all", "particle_mass")] [] demo_reads_succeed).
Defined.

(** X6 on a field name that the header of "io" does not know. *)
Lemma read_particle_selection_unknown_name_witness :
  _read_particle_selection demo_fs boxlib_handler [one_grid_chunk]
    (keep_all "RegionSelector") [("io", "particle_bogus")] []
  = (Raise ValueError, []).
Proof.
  apply (read_particle_selection_unknown_name demo_fs boxlib_handler
           (keep_all "RegionSelector") one_grid_chunk [] first_grid []
           "io" "particle_bogus" [] [] io_pdata io_header).
  - reflexivity.
  - reflexivity.
  - reflexivity.
  - apply le_n.
  - reflexivity.
  - intros Hin. apply list_elem_of_singleton in Hin. discriminate Hin.
  - intros Hin. repeat (apply elem_of_cons in Hin as [Hin|Hin]; [discriminate Hin|]).
    by apply elem_of_nil in Hin.
Defined.


(** X8 on the mass of the one particle of "DATA_0001". *)
Lemma read_particles_real_field_witness :
  _read_particles demo_fs boxlib_handler first_grid
    (keep_all "RegionSelector") "io" "particle_mass" []
  = (Ok (Some [1%Q]),
     [EvOpen "DATA_0001"; EvSeek "DATA_0001" SEEK_SET 1;
      EvFromfile "DATA_0001" 1 4;
      EvSelectPoints [0%Q] [0%Q] [0%Q] 0%Q]).
Proof.
  refine (read_particles_real_field demo_fs boxlib_handler
            (keep_all "RegionSelector") first_grid "io" "particle_mass" []
            io_pdata io_header (bytes_of [9]) [] io_reals 3 [true]
            _ _ _ _ _ _ _ _ _ _ _ _ _ _ _).
  - reflexivity.
  - reflexivity.
  - discriminate.
  - reflexivity.
  - intros Hin. apply list_elem_of_singleton in Hin. discriminate Hin.
  - reflexivity.
  - simpl. lia.
  - simpl. lia.
  - right. simpl. lia.
  - simpl. lia.
  - repeat constructor.
  - reflexivity.
  - reflexivity.
  - reflexivity.
  - reflexivity.
Defined.

(** X9 on the id of the same particle. *)
Lemma read_particles_int_field_witness :
  _read_particles demo_fs boxlib_handler first_grid
    (keep_all "RegionSelector") "io" "particle_id" []
  = (Ok (Some [9%Q]),
     [EvOpen "DATA_0001"; EvSeek "DATA_0001" SEEK_SET 1;
      EvFromfile "DATA_0001" 1 4;
      EvSelectPoints [0%Q] [0%Q] [0%Q] 0%Q;
      EvSeek "DATA_0001" SEEK_SET 0;
      EvFromfile "DATA_0001" 0 1]).
Proof.
  refine (read_particles_int_field demo_fs boxlib_handler
            (keep_all "RegionSelector") first_grid "io" "particle_id" []
            io_pdata io_header [] [] io_ints io_reals 0 [true]
            _ _ _ _ _ _ _ _ _ _ _ _ _ _ _ _ _ _).
  - reflexivity.
  - reflexivity.
  - reflexivity.
  - discriminate.
  - reflexivity.
  - reflexivity.
  - simpl. lia.
  - simpl. lia.
  - right. simpl. lia.
  - simpl. lia.
  - simpl. lia.
  - reflexivity.
  - repeat constructor.
  - repeat constructor.
  - reflexivity.
  - reflexivity.
  - reflexivity.
  - reflexivity.
Defined.

(** X10 on two grids of one file, temperature requested. *)
Lemma read_chunk_data_blocks_witness :
  exists data tr',
    _read_chunk_data demo_fs boxlib_handler two_grid_chunk
      [("boxlib", "temperature")] [] = (Ok data, tr')
    /\ (forall g, g ∈ objs two_grid_chunk -> is_Some (filename g) ->
          exists bs d, grid_bytes demo_fs g = Some bs /\ data !! id g = Some d
                       /\ forall field,
                            d !! field
                            = expected_block boxlib_handler
                                [("boxlib", "temperature")] bs g field)
    /\ (forall g, g ∈ objs two_grid_chunk -> filename g = None ->
          data !! id g = None)
    /\ (forall key, key ∉ id <$> objs two_grid_chunk -> data !! key = None).
Proof.
  apply (read_chunk_data_blocks demo_fs boxlib_handler
           [("boxlib", "temperature")] two_grid_chunk []).
  - apply le_n.
  - exact demo_order_NoDup.
  - exact two_grid_chunk_ids.
  - intros g Hg _. exact (two_grid_chunk_stored g Hg).
Defined.

(** X11 on the two grids listed in either order. *)
Lemma read_chunk_data_grid_order_witness :
  exists data,
    (_read_chunk_data demo_fs boxlib_handler two_grid_chunk
       [("boxlib", "temperature")] []).1 = Ok data
    /\ (_read_chunk_data demo_fs boxlib_handler swapped_chunk
          [("boxlib", "temperature")] []).1 = Ok data.
Proof.
  apply (read_chunk_data_grid_order demo_fs boxlib_handler
           [("boxlib", "temperature")] two_grid_chunk swapped_chunk []).
  - apply le_n.
  - exact demo_order_NoDup.
  - exact two_grid_chunk_ids.
  - intros g Hg _. exact (two_grid_chunk_stored g Hg).
  - apply perm_swap.
Defined.

(** X12: temperature read alone and read together with density. *)
Lemma read_chunk_data_field_independent_witness :
  exists data data',
    (_read_chunk_data demo_fs boxlib_handler two_grid_chunk
       [("boxlib", "temperature")] []).1 = Ok data
    /\ (_read_chunk_data demo_fs boxlib_handler two_grid_chunk
          [("boxlib", "density"); ("boxlib", "temperature")] []).1 = Ok data'
    /\ dom data = dom data'
    /\ forall key d d',
         data !! key = Some d -> data' !! key = Some d' ->
         d !! ("boxlib", "temperature") = d' !! ("boxlib", "temperature").
Proof.
  apply (read_chunk_data_field_independent demo_fs boxlib_handler
           [("boxlib", "temperature")]
           [("boxlib", "density"); ("boxlib", "temperature")]
           ("boxlib", "temperature") two_grid_chunk []).
  - apply le_n.
  - exact demo_order_NoDup.
  - exact two_grid_chunk_ids.
  - intros g Hg _. exact (two_grid_chunk_stored g Hg).
  - left.
  - right. left.
Defined.

(** X13 on two grids of two cells, all four selected, five cells asked
    for: one segment per grid, and the last cell is never written. *)
Lemma read_fluid_selection_values_witness :
  exists rv tr',
    _read_fluid_selection demo_fs boxlib_handler [two_grid_chunk]
      (keep_all "RegionSelector") [("boxlib", "temperature")] 5 []
    = (Ok rv, tr')
    /\ forall f, f ∈ [("boxlib", "temperature")] ->
         exists segments,
           Forall2 (fun g segment =>
                      segment ≡ₚ selected_cells (keep_all "RegionSelector") g
                                   (grid_block demo_fs boxlib_handler g f))
                   (flat_map objs [two_grid_chunk]) segments
           /\ rv !! f
              = Some ((Some <$> concat segments)
                      ++ replicate
                           (5 - total_selected (keep_all "RegionSelector")
                                  [two_grid_chunk]) None).
Proof.
  apply (read_fluid_selection_values demo_fs boxlib_handler
           (keep_all "RegionSelector") [("boxlib", "temperature")] 5
           [two_grid_chunk] []).
  - discriminate.
  - apply NoDup_singleton.
  - intros f Hf. apply list_elem_of_singleton in Hf. rewrite Hf. reflexivity.
  - intros f Hf. apply list_elem_of_singleton in Hf. rewrite Hf. right. left.
  - exact demo_order_NoDup.
  - apply le_n.
  - intros c Hc. apply list_elem_of_singleton in Hc. rewrite Hc.
    exact two_grid_chunk_ids.
  - intros c g Hc Hg. apply list_elem_of_singleton in Hc. rewrite Hc in Hg.
    exact (two_grid_chunk_stored g Hg).
  - vm_compute. lia.
Defined.

(** X14 on a chunk whose file does not exist. *)
Lemma read_chunk_data_raises_io_or_value_error_witness :
  _read_chunk_data ∅ boxlib_handler one_grid_chunk
    [("boxlib", "temperature")] [] = (Raise IOError, [])
  /\ (IOError = IOError \/ IOError = ValueError).
Proof.
  assert (E : _read_chunk_data ∅ boxlib_handler one_grid_chunk
                [("boxlib", "temperature")] [] = (Raise IOError, []))
    by reflexivity.
  split; [exact E|].
  exact (read_chunk_data_raises_io_or_value_error ∅ boxlib_handler
           one_grid_chunk [("boxlib", "temperature")] [] [] IOError E).
Defined.

(** X15 on a file that ends inside the temperature block. *)
Lemma read_chunk_data_unreadable_grid_witness :
  exists e tr',
    _read_chunk_data short_fs boxlib_handler two_grid_chunk
      [("boxlib", "temperature")] [] = (Raise e, tr')
    /\ (e = IOError \/ e = ValueError).
Proof.
  apply (read_chunk_data_unreadable_grid short_fs boxlib_handler two_grid_chunk
           [("boxlib", "temperature")] first_grid []).
  - left.
  - exact first_grid_unreadable.
Defined.

(** X16 on the same file. *)
Lemma read_fluid_selection_unreadable_grid_witness :
  exists e tr',
    _read_fluid_selection short_fs boxlib_handler [two_grid_chunk]
      (keep_all "RegionSelector") [("boxlib", "temperature")] 4 []
    = (Raise e, tr').
Proof.
  apply (read_fluid_selection_unreadable_grid short_fs boxlib_handler
           [two_grid_chunk] (keep_all "RegionSelector")
           [("boxlib", "temperature")] 4 two_grid_chunk first_grid []).
  - left.
  - left.
  - exact first_grid_unreadable.
Defined.

(** X17 on an empty request. *)
Lemma read_fluid_selection_no_fields_witness :
  exists tr',
    _read_fluid_selection demo_fs boxlib_handler [two_grid_chunk]
      (keep_all "RegionSelector") [] 0 []
    = (Raise UnboundLocalError, tr').
Proof.
  apply (read_fluid_selection_no_fields demo_fs boxlib_handler two_grid_chunk
           [] (keep_all "RegionSelector") 0 []).
  - discriminate.
  - intros g fn Hg Hfn.
    destruct (two_grid_chunk_stored g Hg) as (fn' & bs & Hfn' & Hbs & _).
    rewrite Hfn in Hfn'. injection Hfn' as Heq. rewrite Heq, Hbs. eauto.
Defined.

(** X19 on a grid without particles and a field name no header knows. *)
Lemma read_particle_selection_no_particles_witness :
  _read_particle_selection demo_fs boxlib_handler [no_particle_chunk]
    (keep_all "RegionSelector") [("all", "particle_bogus")] []
  = (Ok (empty_arrays [("all", "particle_bogus")]), []).
Proof.
  apply (read_particle_selection_no_particles demo_fs boxlib_handler
           (keep_all "RegionSelector") [no_particle_chunk]
           [("all", "particle_bogus")] []).
  intros chunk grid ftype fname subtype Hc Hg Hf Hs.
  apply list_elem_of_singleton in Hc. rewrite Hc in Hg.
  apply list_elem_of_singleton in Hg.
  apply list_elem_of_singleton in Hf. injection Hf as Hft Hfn.
  rewrite Hft in Hs. apply list_elem_of_singleton in Hs. rewrite Hs, Hg.
  eexists. split; reflexivity.
Defined.

(** X20 on the same grid. *)
Lemma orion_selection_no_particles_witness :
  Orion_read_particle_selection demo_sinks_index q_of_text demo_fs
    orion_handler [no_particle_chunk] (keep_all "RegionSelector")
    [("io", "particle_mass")] fresh_orion
  = (Ok (empty_arrays [("io", "particle_mass")]), fresh_orion).
Proof.
  apply (orion_selection_no_particles demo_sinks_index q_of_text demo_fs
           orion_handler (keep_all "RegionSelector") [no_particle_chunk]
           [("io", "particle_mass")] fresh_orion).
  - discriminate.
  - intros chunk grid Hc Hg.
    apply list_elem_of_singleton in Hc. rewrite Hc in Hg.
    apply list_elem_of_singleton in Hg. rewrite Hg. reflexivity.
Defined.

(** X21 on two grids of one file, temperature requested. *)
Lemma read_chunk_data_reads_requested_blocks_witness :
  exists data tr' new,
    _read_chunk_data demo_fs boxlib_handler two_grid_chunk
      [("boxlib", "temperature")] [] = (Ok data, tr')
    /\ reads tr' = reads (F:=Q) [] ++ new
    /\ new ≡ₚ flat_map (grid_reads boxlib_handler [("boxlib", "temperature")])
                (objs two_grid_chunk).
Proof.
  apply (read_chunk_data_reads_requested_blocks demo_fs boxlib_handler
           [("boxlib", "temperature")] two_grid_chunk []).
  - apply le_n.
  - intros g Hg _. exact (two_grid_chunk_stored g Hg).
Defined.

(** X22 on the same chunk: the second grid starts where the first ends. *)
Lemma read_chunk_data_never_seeks_backward_witness :
  exists data tr' sk,
    _read_chunk_data demo_fs boxlib_handler two_grid_chunk
      [("boxlib", "temperature")] [] = (Ok data, tr')
    /\ relative_seeks tr' = relative_seeks (F:=Q) [] ++ sk
    /\ Forall (fun off => (0 <= off)%Z) sk.
Proof.
  apply (read_chunk_data_never_seeks_backward demo_fs boxlib_handler
           [("boxlib", "temperature")] two_grid_chunk []).
  - apply le_n.
  - exact two_grid_chunk_ids.
  - intros g Hg _. exact (two_grid_chunk_stored g Hg).
  - intros g g' Hg Hg' _ Hle.
    apply elem_of_cons in Hg as [Hg|Hg];
      [|apply list_elem_of_singleton in Hg];
      (apply elem_of_cons in Hg' as [Hg'|Hg'];
         [|apply list_elem_of_singleton in Hg']);
      rewrite Hg, Hg' in *.
    + left. reflexivity.
    + right. vm_compute. discriminate.
    + exfalso. apply Hle. reflexivity.
    + left. reflexivity.
Defined.
